(** * A voice-enabled chat widget: the turn-taking state machine

    The development embeds the two source units of the widget:

    - [useSpeechRecognition] (hooks/useSpeechRecognition.ts): the adapter
      around the browser recognizer, with its reference cells, its timers
      and the four recognizer callbacks;
    - the [App] component: the chat transcript, the text/attachment
      sender, the reset operation and the continuous voice conversation
      loop.

    JavaScript runs these handlers one at a time on the event loop.  Every
    handler is therefore a function on one explicit [World]: the React
    state cells, the mutable reference cells, the pending timers, the
    outstanding promises (permission probes and remote calls), the
    recognizer objects and the speaker.  An [async] function is cut at each
    [await]: the part before it is the handler, the part after it is the
    continuation run by the event that settles the promise. *)

From Stdlib Require Import List Bool Arith ZArith NArith Lia String Ascii.
From Stdlib Require Import DecimalString.
Import ListNotations.
Local Open Scope Z_scope.

Set Implicit Arguments.

(* ------------------------------------------------------------------ *)
(** ** JavaScript strings *)
(* ------------------------------------------------------------------ *)

(** A JavaScript string is a sequence of UTF-16 code units; [length],
    [trim] and [endsWith] all work on code units. *)
Definition JsString := list N.

(** An ASCII literal of the source. *)
Definition lit (s : string) : JsString :=
  List.map N_of_ascii (list_ascii_of_string s).

(** ECMAScript WhiteSpace and LineTerminator code points, the characters
    that [String.prototype.trim] removes. *)
Definition isWhiteSpace (c : N) : bool :=
  ((9 <=? c) && (c <=? 13) || (c =? 32) || (c =? 160) || (c =? 5760)
   || (8192 <=? c) && (c <=? 8202) || (c =? 8232) || (c =? 8233)
   || (c =? 8239) || (c =? 8287) || (c =? 12288) || (c =? 65279))%N.

Fixpoint trimStart (s : JsString) : JsString :=
  match s with
  | c :: r => if isWhiteSpace c then trimStart r else s
  | [] => []
  end.

Definition trimEnd (s : JsString) : JsString := rev (trimStart (rev s)).

Definition trim (s : JsString) : JsString := trimEnd (trimStart s).

(** Truthiness of a string: only the empty string is falsy. *)
Definition truthy (s : JsString) : bool :=
  match s with [] => false | _ :: _ => true end.

Fixpoint str_eqb (a b : JsString) : bool :=
  match a, b with
  | [], [] => true
  | x :: a', y :: b' => (x =? y)%N && str_eqb a' b'
  | _, _ => false
  end.

(** [s.length] *)
Definition len (s : JsString) : Z := Z.of_nat (List.length s).

(** [s.endsWith(suffix)] *)
Definition endsWith (s suffix : JsString) : bool :=
  str_eqb (skipn (List.length s - List.length suffix) s) suffix
  && (List.length suffix <=? List.length s)%nat.

(** [n.toString()] for the integer clock value. *)
Definition toString (z : Z) : JsString :=
  lit (NilZero.string_of_int (Z.to_int z)).

(** [a || b] on strings where the left operand may be missing. *)
Definition orElse (a : option JsString) (b : JsString) : JsString :=
  match a with
  | Some s => if truthy s then s else b
  | None => b
  end.

(* ------------------------------------------------------------------ *)
(** ** Data model *)
(* ------------------------------------------------------------------ *)

(** Modelled from the spec: the type declarations of types.ts are not part
    of the sources.  The spec gives an attachment a file name, a MIME type
    and a base64 data URI, and a message an identifier, a sender kind
    (user or bot), a text, a timestamp and at most one attachment; the
    field names are the ones the component uses. *)
Record ChatAttachment := mkAttachment {
  att_name : JsString;
  att_mime : JsString;
  att_contentString : JsString }.

Inductive Sender := user | bot.

Record ChatMessage := mkMessage {
  msg_id : JsString;
  msg_type : Sender;
  msg_message : JsString;
  msg_timestamp : Z;
  msg_attachment : option ChatAttachment }.

(** Modelled from the spec: the remote chat call [sendChatMessage] of
    api.ts is not part of the sources.  The spec gives its interface: the
    request carries the message text, a mode tag, a session identifier, an
    optional list of attachments and an optional reset flag; the response
    carries an identifier and the response text.  The call is opaque: it
    is outstanding from the moment it is issued until the environment
    resolves or rejects it. *)
Record ChatRequest := mkRequest {
  req_message : JsString;
  req_mode : JsString;
  req_sessionId : JsString;
  req_attachments : option (list ChatAttachment);
  req_reset : option bool }.

Record ChatResponse := mkResponse {
  resp_id : option JsString;
  textResponse : JsString }.

(** Modelled from the spec: the error class [ChatApiError] of api.ts is not
    part of the sources.  A rejected call throws either a [ChatApiError],
    which carries its own message, or anything else. *)
Inductive CallError :=
| ChatApiError (message : JsString)
| OtherError.

(** The fixed text the component shows for errors that are not a
    [ChatApiError]. *)
Definition fallbackErrorMessage : JsString :=
  [220%N] ++ lit "zg" ++ [252%N] ++ lit "n" ++ [252%N] ++ lit "m, bir hata olu"
  ++ [351%N] ++ lit "tu. L" ++ [252%N] ++ lit "tfen tekrar deneyin.".

Definition micDeniedAlert : JsString :=
  lit "Mikrofon eri" ++ [351%N] ++ lit "imi reddedildi. L" ++ [252%N]
  ++ lit "tfen taray" ++ [305%N] ++ lit "c" ++ [305%N] ++ lit " ayarlar"
  ++ [305%N] ++ lit "ndan mikrofon iznini verin ve sayfay" ++ [305%N]
  ++ lit " yenileyin.".

Definition notImageAlert : JsString :=
  lit "L" ++ [252%N] ++ lit "tfen sadece resim dosyas" ++ [305%N] ++ lit " y"
  ++ [252%N] ++ lit "kleyin.".

(* ------------------------------------------------------------------ *)
(** ** Identifiers, closures and the run-time objects *)
(* ------------------------------------------------------------------ *)

Definition TimerId := nat.
Definition RecId := nat.
Definition CallId := nat.
Definition ProbeId := nat.

(** The only function ever passed as [onSpeechEnd] is the component's
    [handleVoiceConversation]. *)
Inductive Callback := HandleVoiceConversation.

(** The only completion callback ever passed to [speak] is the arrow
    function of the voice turn (lines 128-140 of the component). *)
Inductive SpeakDone := VoiceTurnSpoken.

(** The bodies given to [setTimeout], one constructor per call site, with
    the variables each closure captures. *)
Inductive TimerAction :=
| TaCallback (cb : Callback) (trimmedText : JsString)  (* processVoiceResult *)
| TaSilence (fullText : JsString)                      (* onresult *)
| TaAutoStop (r : RecId)                               (* onstart *)
| TaResetProcessing                                    (* onend, onerror *)
| TaNoSpeechRestart                                    (* onerror, no-speech *)
| TaRestart (cb : Callback)                            (* restartListening *)
| TaVoiceRestart                                       (* handleVoiceConversation *)
| TaAutoSpeak (text : JsString).                       (* handleSendMessage *)

Record Timer := mkTimer {
  t_id : TimerId;
  t_delay : Z;
  t_due : Z;
  t_action : TimerAction }.

(** The values a memoised closure saw in the render that created it.
    [startListening] is built by [useCallback] with the dependency list
    [isSupported, cleanup, processVoiceResult]; [cleanup] and
    [processVoiceResult] never change, so the closure is rebuilt exactly
    when [isSupported] changes, and until then it reads the [isSupported]
    and the [isListening] of the render that built it. *)
Record Captured := mkCaptured {
  cap_isSupported : bool;
  cap_isListening : bool }.

(** What the code asked of a recognizer object so far, and whether the
    browser has delivered its [end] event. *)
Inductive RecStatus := RsNew | RsStarted | RsStopRequested | RsAborted | RsEnded.

(** A recognizer object together with what its four callbacks share: the
    local variable [autoStopTimeout] and the variables of the enclosing
    [startListening] closure. *)
Record Recognizer := mkRecognizer {
  rec_continuous : bool;
  rec_interimResults : bool;
  rec_lang : JsString;
  rec_status : RecStatus;
  autoStopTimeout : option TimerId;
  rec_env : Captured }.

(** The code after the [await] of a remote call. *)
Inductive Continuation :=
| KVoice                       (* handleVoiceConversation *)
| KSend (autoSpeak : bool)     (* handleSendMessage, with its captured flag *)
| KReset.                      (* handleResetChat *)

Record PendingCall := mkCall {
  call_id : CallId;
  call_request : ChatRequest;
  call_k : Continuation }.

(** A [startListening] suspended at [await checkMicrophonePermission()]. *)
Record PendingProbe := mkProbe {
  probe_id : ProbeId;
  probe_onSpeechEnd : option Callback;
  probe_env : Captured }.

(** The browser the page runs in. *)
Record Browser := mkBrowser {
  isMobile : bool;                 (* the user-agent test of startListening *)
  hasSpeechRecognition : bool;     (* window.SpeechRecognition || webkit... *)
  speechSynthesisSupported : bool }.

(* ------------------------------------------------------------------ *)
(** ** The world *)
(* ------------------------------------------------------------------ *)

(** State and reference cells of the component. *)
Record AppState := mkApp {
  messages : list ChatMessage;
  input : JsString;
  isLoading : bool;
  attachment : option ChatAttachment;
  autoSpeak : bool;
  isVoiceMode : bool;
  currentUserSpeech : JsString;
  currentBotSpeech : JsString;
  voiceModeRef : bool;
  isProcessingVoiceRef : bool }.

(** State and reference cells of [useSpeechRecognition]. *)
Record HookState := mkHook {
  isListening : bool;
  transcript : JsString;
  isSupported : bool;
  recognitionRef : option RecId;
  onSpeechEndRef : option Callback;
  finalTranscriptRef : JsString;
  isVoiceModeRef : bool;
  timeoutRef : option TimerId;
  isProcessingRef : bool;
  lastProcessedTextRef : JsString;
  silenceTimeoutRef : option TimerId }.

(** The dependency values the component's effects saw last. *)
Record Deps := mkDeps {
  dep_transcript : JsString;
  dep_isVoiceMode : bool;
  dep_isListening : bool }.

(** Event loop, browser objects and the speaker: the clock, the pending
    timers, the recognizer objects, the outstanding remote calls and
    permission probes, the text being played with its completion callback
    ([utterance]), every text whose playback was begun ([playbacks]), the
    alerts shown, the current [startListening] closure and the
    dependencies last seen by the effects. *)
Record Runtime := mkRuntime {
  now : Z;
  timers : list Timer;
  nextTimer : TimerId;
  recognizers : list (RecId * Recognizer);
  nextRec : RecId;
  calls : list PendingCall;
  nextCall : CallId;
  probes : list PendingProbe;
  nextProbe : ProbeId;
  utterance : option (JsString * option SpeakDone);
  playbacks : list JsString;
  alerts : list JsString;
  startListeningEnv : Captured;
  depsSeen : Deps }.

Record World := mkWorld {
  app : AppState;
  hook : HookState;
  rt : Runtime }.

(* ------------------------------------------------------------------ *)
(** ** Handlers as state transformers *)
(* ------------------------------------------------------------------ *)

(** A handler reads and writes the world and may return a value (the
    identifier that [setTimeout] gives back, for instance). *)
Definition M (A : Type) : Type := World -> A * World.

Definition ret {A} (a : A) : M A := fun w => (a, w).

Definition bind {A B} (c : M A) (k : A -> M B) : M B :=
  fun w => let (a, w') := c w in k a w'.

Declare Scope handler_scope.
Delimit Scope handler_scope with handler.
Notation "x <- c ;; k" := (bind c (fun x => k))
  (at level 61, c at next level, right associativity) : handler_scope.
Notation "c ;; k" := (bind c (fun _ => k))
  (at level 61, right associativity) : handler_scope.
Local Open Scope handler_scope.

Definition exec {A} (c : M A) (w : World) : World := snd (c w).
Definition gets {A} (f : World -> A) : M A := fun w => (f w, w).
Definition modify (f : World -> World) : M unit := fun w => (tt, f w).
Definition skip : M unit := ret tt.
Definition when (b : bool) (c : M unit) : M unit := if b then c else skip.
Definition whenSome {A} (o : option A) (c : A -> M unit) : M unit :=
  match o with Some a => c a | None => skip end.

Definition isSome {A} (o : option A) : bool :=
  match o with Some _ => true | None => false end.

(** *** Cells of the component *)

Definition updApp (f : AppState -> AppState) : M unit :=
  modify (fun w => mkWorld (f (app w)) (hook w) (rt w)).

Definition setMessages (f : list ChatMessage -> list ChatMessage) : M unit :=
  updApp (fun a => mkApp (f (messages a)) (input a) (isLoading a) (attachment a)
    (autoSpeak a) (isVoiceMode a) (currentUserSpeech a) (currentBotSpeech a)
    (voiceModeRef a) (isProcessingVoiceRef a)).
Definition setInput (f : JsString -> JsString) : M unit :=
  updApp (fun a => mkApp (messages a) (f (input a)) (isLoading a) (attachment a)
    (autoSpeak a) (isVoiceMode a) (currentUserSpeech a) (currentBotSpeech a)
    (voiceModeRef a) (isProcessingVoiceRef a)).
Definition setIsLoading (v : bool) : M unit :=
  updApp (fun a => mkApp (messages a) (input a) v (attachment a)
    (autoSpeak a) (isVoiceMode a) (currentUserSpeech a) (currentBotSpeech a)
    (voiceModeRef a) (isProcessingVoiceRef a)).
Definition setAttachment (v : option ChatAttachment) : M unit :=
  updApp (fun a => mkApp (messages a) (input a) (isLoading a) v
    (autoSpeak a) (isVoiceMode a) (currentUserSpeech a) (currentBotSpeech a)
    (voiceModeRef a) (isProcessingVoiceRef a)).
Definition setAutoSpeak (v : bool) : M unit :=
  updApp (fun a => mkApp (messages a) (input a) (isLoading a) (attachment a)
    v (isVoiceMode a) (currentUserSpeech a) (currentBotSpeech a)
    (voiceModeRef a) (isProcessingVoiceRef a)).
Definition setIsVoiceMode (v : bool) : M unit :=
  updApp (fun a => mkApp (messages a) (input a) (isLoading a) (attachment a)
    (autoSpeak a) v (currentUserSpeech a) (currentBotSpeech a)
    (voiceModeRef a) (isProcessingVoiceRef a)).
Definition setCurrentUserSpeech (v : JsString) : M unit :=
  updApp (fun a => mkApp (messages a) (input a) (isLoading a) (attachment a)
    (autoSpeak a) (isVoiceMode a) v (currentBotSpeech a)
    (voiceModeRef a) (isProcessingVoiceRef a)).
Definition setCurrentBotSpeech (v : JsString) : M unit :=
  updApp (fun a => mkApp (messages a) (input a) (isLoading a) (attachment a)
    (autoSpeak a) (isVoiceMode a) (currentUserSpeech a) v
    (voiceModeRef a) (isProcessingVoiceRef a)).
Definition voiceModeRef_set (v : bool) : M unit :=
  updApp (fun a => mkApp (messages a) (input a) (isLoading a) (attachment a)
    (autoSpeak a) (isVoiceMode a) (currentUserSpeech a) (currentBotSpeech a)
    v (isProcessingVoiceRef a)).
Definition isProcessingVoiceRef_set (v : bool) : M unit :=
  updApp (fun a => mkApp (messages a) (input a) (isLoading a) (attachment a)
    (autoSpeak a) (isVoiceMode a) (currentUserSpeech a) (currentBotSpeech a)
    (voiceModeRef a) v).

(** *** Cells of the recognition hook *)

Definition updHook (f : HookState -> HookState) : M unit :=
  modify (fun w => mkWorld (app w) (f (hook w)) (rt w)).

Definition setIsListening (v : bool) : M unit :=
  updHook (fun h => mkHook v (transcript h) (isSupported h) (recognitionRef h)
    (onSpeechEndRef h) (finalTranscriptRef h) (isVoiceModeRef h) (timeoutRef h)
    (isProcessingRef h) (lastProcessedTextRef h) (silenceTimeoutRef h)).
Definition setTranscript (v : JsString) : M unit :=
  updHook (fun h => mkHook (isListening h) v (isSupported h) (recognitionRef h)
    (onSpeechEndRef h) (finalTranscriptRef h) (isVoiceModeRef h) (timeoutRef h)
    (isProcessingRef h) (lastProcessedTextRef h) (silenceTimeoutRef h)).
Definition setIsSupported (v : bool) : M unit :=
  updHook (fun h => mkHook (isListening h) (transcript h) v (recognitionRef h)
    (onSpeechEndRef h) (finalTranscriptRef h) (isVoiceModeRef h) (timeoutRef h)
    (isProcessingRef h) (lastProcessedTextRef h) (silenceTimeoutRef h)).
Definition recognitionRef_set (v : option RecId) : M unit :=
  updHook (fun h => mkHook (isListening h) (transcript h) (isSupported h) v
    (onSpeechEndRef h) (finalTranscriptRef h) (isVoiceModeRef h) (timeoutRef h)
    (isProcessingRef h) (lastProcessedTextRef h) (silenceTimeoutRef h)).
Definition onSpeechEndRef_set (v : option Callback) : M unit :=
  updHook (fun h => mkHook (isListening h) (transcript h) (isSupported h)
    (recognitionRef h) v (finalTranscriptRef h) (isVoiceModeRef h) (timeoutRef h)
    (isProcessingRef h) (lastProcessedTextRef h) (silenceTimeoutRef h)).
Definition finalTranscriptRef_set (v : JsString) : M unit :=
  updHook (fun h => mkHook (isListening h) (transcript h) (isSupported h)
    (recognitionRef h) (onSpeechEndRef h) v (isVoiceModeRef h) (timeoutRef h)
    (isProcessingRef h) (lastProcessedTextRef h) (silenceTimeoutRef h)).
Definition isVoiceModeRef_set (v : bool) : M unit :=
  updHook (fun h => mkHook (isListening h) (transcript h) (isSupported h)
    (recognitionRef h) (onSpeechEndRef h) (finalTranscriptRef h) v (timeoutRef h)
    (isProcessingRef h) (lastProcessedTextRef h) (silenceTimeoutRef h)).
Definition timeoutRef_set (v : option TimerId) : M unit :=
  updHook (fun h => mkHook (isListening h) (transcript h) (isSupported h)
    (recognitionRef h) (onSpeechEndRef h) (finalTranscriptRef h) (isVoiceModeRef h) v
    (isProcessingRef h) (lastProcessedTextRef h) (silenceTimeoutRef h)).
Definition isProcessingRef_set (v : bool) : M unit :=
  updHook (fun h => mkHook (isListening h) (transcript h) (isSupported h)
    (recognitionRef h) (onSpeechEndRef h) (finalTranscriptRef h) (isVoiceModeRef h)
    (timeoutRef h) v (lastProcessedTextRef h) (silenceTimeoutRef h)).
Definition lastProcessedTextRef_set (v : JsString) : M unit :=
  updHook (fun h => mkHook (isListening h) (transcript h) (isSupported h)
    (recognitionRef h) (onSpeechEndRef h) (finalTranscriptRef h) (isVoiceModeRef h)
    (timeoutRef h) (isProcessingRef h) v (silenceTimeoutRef h)).
Definition silenceTimeoutRef_set (v : option TimerId) : M unit :=
  updHook (fun h => mkHook (isListening h) (transcript h) (isSupported h)
    (recognitionRef h) (onSpeechEndRef h) (finalTranscriptRef h) (isVoiceModeRef h)
    (timeoutRef h) (isProcessingRef h) (lastProcessedTextRef h) v).

(** *** Event loop and browser objects *)

Definition updRt (f : Runtime -> Runtime) : M unit :=
  modify (fun w => mkWorld (app w) (hook w) (f (rt w))).

Definition with_now (v : Z) (r : Runtime) : Runtime :=
  mkRuntime v (timers r) (nextTimer r) (recognizers r) (nextRec r) (calls r)
    (nextCall r) (probes r) (nextProbe r) (utterance r) (playbacks r) (alerts r)
    (startListeningEnv r) (depsSeen r).
Definition with_timers (v : list Timer) (n : TimerId) (r : Runtime) : Runtime :=
  mkRuntime (now r) v n (recognizers r) (nextRec r) (calls r)
    (nextCall r) (probes r) (nextProbe r) (utterance r) (playbacks r) (alerts r)
    (startListeningEnv r) (depsSeen r).
Definition with_recognizers (v : list (RecId * Recognizer)) (n : RecId)
    (r : Runtime) : Runtime :=
  mkRuntime (now r) (timers r) (nextTimer r) v n (calls r)
    (nextCall r) (probes r) (nextProbe r) (utterance r) (playbacks r) (alerts r)
    (startListeningEnv r) (depsSeen r).
Definition with_calls (v : list PendingCall) (n : CallId) (r : Runtime) : Runtime :=
  mkRuntime (now r) (timers r) (nextTimer r) (recognizers r) (nextRec r) v
    n (probes r) (nextProbe r) (utterance r) (playbacks r) (alerts r)
    (startListeningEnv r) (depsSeen r).
Definition with_probes (v : list PendingProbe) (n : ProbeId) (r : Runtime) : Runtime :=
  mkRuntime (now r) (timers r) (nextTimer r) (recognizers r) (nextRec r) (calls r)
    (nextCall r) v n (utterance r) (playbacks r) (alerts r)
    (startListeningEnv r) (depsSeen r).
Definition with_speaker (u : option (JsString * option SpeakDone))
    (p : list JsString) (r : Runtime) : Runtime :=
  mkRuntime (now r) (timers r) (nextTimer r) (recognizers r) (nextRec r) (calls r)
    (nextCall r) (probes r) (nextProbe r) u p (alerts r)
    (startListeningEnv r) (depsSeen r).
Definition with_alerts (v : list JsString) (r : Runtime) : Runtime :=
  mkRuntime (now r) (timers r) (nextTimer r) (recognizers r) (nextRec r) (calls r)
    (nextCall r) (probes r) (nextProbe r) (utterance r) (playbacks r) v
    (startListeningEnv r) (depsSeen r).
Definition with_startListeningEnv (v : Captured) (r : Runtime) : Runtime :=
  mkRuntime (now r) (timers r) (nextTimer r) (recognizers r) (nextRec r) (calls r)
    (nextCall r) (probes r) (nextProbe r) (utterance r) (playbacks r) (alerts r)
    v (depsSeen r).
Definition with_depsSeen (v : Deps) (r : Runtime) : Runtime :=
  mkRuntime (now r) (timers r) (nextTimer r) (recognizers r) (nextRec r) (calls r)
    (nextCall r) (probes r) (nextProbe r) (utterance r) (playbacks r) (alerts r)
    (startListeningEnv r) v.

(** [setTimeout(body, delay)]: the timer is due [delay] ms from now and
    the call returns its identifier. *)
Definition setTimeout (body : TimerAction) (delay : Z) : M TimerId :=
  fun w =>
    let r := rt w in
    let t := mkTimer (nextTimer r) delay (now r + delay) body in
    (nextTimer r,
     mkWorld (app w) (hook w) (with_timers (timers r ++ [t]) (S (nextTimer r)) r)).

(** [clearTimeout(id)]: a timer that already ran is not there any more and
    clearing it does nothing. *)
Definition clearTimeout (id : TimerId) : M unit :=
  updRt (fun r =>
    with_timers (filter (fun t => negb (t_id t =? id)%nat) (timers r)) (nextTimer r) r).

Fixpoint lookupRec (r : RecId) (l : list (RecId * Recognizer)) : option Recognizer :=
  match l with
  | [] => None
  | (k, v) :: l' => if (k =? r)%nat then Some v else lookupRec r l'
  end.

Fixpoint updateRec (r : RecId) (f : Recognizer -> Recognizer)
    (l : list (RecId * Recognizer)) : list (RecId * Recognizer) :=
  match l with
  | [] => []
  | (k, v) :: l' =>
      if (k =? r)%nat then (k, f v) :: l' else (k, v) :: updateRec r f l'
  end.

Definition updRec (r : RecId) (f : Recognizer -> Recognizer) : M unit :=
  updRt (fun x => with_recognizers (updateRec r f (recognizers x)) (nextRec x) x).

Definition with_status (s : RecStatus) (x : Recognizer) : Recognizer :=
  mkRecognizer (rec_continuous x) (rec_interimResults x) (rec_lang x) s
    (autoStopTimeout x) (rec_env x).
Definition with_autoStopTimeout (t : option TimerId) (x : Recognizer) : Recognizer :=
  mkRecognizer (rec_continuous x) (rec_interimResults x) (rec_lang x)
    (rec_status x) t (rec_env x).
Definition with_settings (c i : bool) (l : JsString) (x : Recognizer) : Recognizer :=
  mkRecognizer c i l (rec_status x) (autoStopTimeout x) (rec_env x).

(** [new SpeechRecognition()]: a new object with the defaults of the
    platform (not continuous, no interim results, no language), created
    inside the [startListening] closure [env]. *)
Definition newSpeechRecognition (env : Captured) : M RecId :=
  fun w =>
    let r := rt w in
    (nextRec r,
     mkWorld (app w) (hook w)
       (with_recognizers
          (recognizers r ++ [(nextRec r, mkRecognizer false false [] RsNew None env)])
          (S (nextRec r)) r)).

(** [recognition.start()], [recognition.stop()], [recognition.abort()]. *)
Definition recognition_start (r : RecId) : M unit :=
  updRec r (fun x =>
    match rec_status x with RsNew => with_status RsStarted x | _ => x end).
Definition recognition_stop (r : RecId) : M unit :=
  updRec r (fun x =>
    match rec_status x with RsStarted => with_status RsStopRequested x | _ => x end).
Definition recognition_abort (r : RecId) : M unit :=
  updRec r (fun x =>
    match rec_status x with
    | RsStarted | RsStopRequested => with_status RsAborted x
    | _ => x
    end).

Definition alert (msg : JsString) : M unit :=
  updRt (fun r => with_alerts (alerts r ++ [msg]) r).

(** Modelled from the spec: the speech-synthesis adapter
    (hooks/useSpeechSynthesis.ts) is not part of the sources.  The spec
    gives it [speak(text, onDone?)], [stop()] and a boolean "currently
    speaking".  [speak] begins one playback of [text] and keeps the
    completion callback, which runs when the playback completes; [stop]
    ends the playback and drops the callback; the page is speaking while
    there is an utterance. *)
Definition speak (text : JsString) (onDone : option SpeakDone) : M unit :=
  updRt (fun r => with_speaker (Some (text, onDone)) (playbacks r ++ [text]) r).
Definition stopSpeaking : M unit :=
  updRt (fun r => with_speaker None (playbacks r) r).
Definition isSpeaking (w : World) : bool := isSome (utterance (rt w)).

(** Modelled from the spec: issuing the remote call.  The request stays
    outstanding, with the code that awaits it, until it is settled. *)
Definition sendChatMessage (message mode sessionId : JsString)
    (attachments : option (list ChatAttachment)) (reset : option bool)
    (k : Continuation) : M unit :=
  updRt (fun r =>
    with_calls
      (calls r ++ [mkCall (nextCall r)
                     (mkRequest message mode sessionId attachments reset) k])
      (S (nextCall r)) r).

(* ------------------------------------------------------------------ *)
(** ** The speech-recognition hook (hooks/useSpeechRecognition.ts) *)
(* ------------------------------------------------------------------ *)

(** One entry of [event.results]: [result.isFinal] and
    [result[0].transcript]. *)
Record SpeechResult := mkResult {
  isFinal : bool;
  res_transcript : JsString }.

Record SpeechRecognitionEvent := mkResultEvent {
  results : list SpeechResult;
  resultIndex : nat }.

(** [event.error] of a recognizer error event. *)
Inductive RecError := ErrAborted | ErrNotAllowed | ErrNoSpeech | ErrOther.

(** What the platform answers to [checkMicrophonePermission]. *)
Inductive PermissionQuery :=
| NoPermissionsApi              (* 'permissions' in navigator is false *)
| QueryThrows
| QueryState (denied : bool).

Record MicProbe := mkMicProbe {
  permissionQuery : PermissionQuery;
  getUserMediaOk : bool }.

Definition checkMicrophonePermission (p : MicProbe) : bool :=
  match permissionQuery p with
  | QueryThrows => false
  | QueryState true => false
  | QueryState false | NoPermissionsApi => getUserMediaOk p
  end.

Definition cleanup : M unit :=
  t <- gets (fun w => timeoutRef (hook w)) ;;
  whenSome t (fun id => clearTimeout id ;; timeoutRef_set None) ;;
  s <- gets (fun w => silenceTimeoutRef (hook w)) ;;
  whenSome s (fun id => clearTimeout id ;; silenceTimeoutRef_set None) ;;
  r <- gets (fun w => recognitionRef (hook w)) ;;
  whenSome r (fun id => recognition_abort id ;; recognitionRef_set None) ;;
  setIsListening false ;;
  isProcessingRef_set false.

Definition processVoiceResult (text : JsString) : M unit :=
  let trimmedText := trim text in
  h <- gets hook ;;
  if isProcessingRef h || negb (truthy trimmedText)
     || str_eqb trimmedText (lastProcessedTextRef h)
  then skip
  else if len trimmedText <? 2 then skip
  else
    isProcessingRef_set true ;;
    lastProcessedTextRef_set trimmedText ;;
    whenSome (recognitionRef h) recognition_stop ;;
    whenSome (onSpeechEndRef h) (fun callback =>
      setTimeout (TaCallback callback trimmedText) 100 ;; skip).

Definition stopListening : M unit :=
  isVoiceModeRef_set false ;;
  onSpeechEndRef_set None ;;
  isProcessingRef_set false ;;
  lastProcessedTextRef_set [] ;;
  cleanup.

Definition resetTranscript : M unit :=
  setTranscript [] ;;
  finalTranscriptRef_set [] ;;
  lastProcessedTextRef_set [] ;;
  isProcessingRef_set false.

(** [startListening] up to its [await]: the closure tests the
    [isSupported] it captured and suspends on the permission probe. *)
Definition startListening (onSpeechEnd : option Callback) : M unit :=
  env <- gets (fun w => startListeningEnv (rt w)) ;;
  if negb (cap_isSupported env) then skip
  else
    updRt (fun r =>
      with_probes (probes r ++ [mkProbe (nextProbe r) onSpeechEnd env])
        (S (nextProbe r)) r).

Definition restartListening (onSpeechEnd : Callback) : M unit :=
  t <- gets (fun w => timeoutRef (hook w)) ;;
  whenSome t clearTimeout ;;
  s <- gets (fun w => silenceTimeoutRef (hook w)) ;;
  whenSome s clearTimeout ;;
  isProcessingRef_set false ;;
  lastProcessedTextRef_set [] ;;
  id <- setTimeout (TaRestart onSpeechEnd) 1500 ;;
  timeoutRef_set (Some id).

(** The timer body of [restartListening]. *)
Definition restartTimer (onSpeechEnd : Callback) : M unit :=
  v <- gets (fun w => isVoiceModeRef (hook w)) ;;
  when v (startListening (Some onSpeechEnd)).

(** The body of [silenceTimeoutRef]'s timers. *)
Definition silenceTimer (fullText : JsString) : M unit :=
  p <- gets (fun w => isProcessingRef (hook w)) ;;
  when (negb p) (processVoiceResult fullText).

(** The timer body of [onend] and [onerror]. *)
Definition resetProcessingTimer : M unit := isProcessingRef_set false.

(** The timer body of the no-speech branch of [onerror]. *)
Definition noSpeechRestartTimer : M unit :=
  h <- gets hook ;;
  match onSpeechEndRef h with
  | Some cb => when (isVoiceModeRef h) (startListening (Some cb))
  | None => skip
  end.

(** The timer body of [onstart]: [isListening] is the variable of the
    enclosing [startListening] closure, not the current state cell. *)
Definition autoStopTimer (r : RecId) : M unit :=
  ref <- gets (fun w => recognitionRef (hook w)) ;;
  x <- gets (fun w => lookupRec r (recognizers (rt w))) ;;
  match x with
  | Some recognition =>
      when (isSome ref && cap_isListening (rec_env recognition))
           (recognition_stop r)
  | None => skip
  end.

(** [if (autoStopTimeout) { clearTimeout(autoStopTimeout); autoStopTimeout = null; }] *)
Definition clearAutoStop (r : RecId) : M unit :=
  x <- gets (fun w => lookupRec r (recognizers (rt w))) ;;
  match x with
  | Some recognition =>
      whenSome (autoStopTimeout recognition) (fun id =>
        clearTimeout id ;; updRec r (with_autoStopTimeout None))
  | None => skip
  end.

(** The [for] loop of [onresult]; the accumulator is
    [(interimTranscript, finalTranscript, hasNewFinal)]. *)
Fixpoint resultLoop (rs : list SpeechResult) (acc : JsString * JsString * bool)
    : M (JsString * JsString * bool) :=
  match rs with
  | [] => ret acc
  | result :: rest =>
      let '(interimTranscript, finalTranscript, hasNewFinal) := acc in
      let transcript := trim (res_transcript result) in
      if isFinal result && truthy transcript then
        f <- gets (fun w => finalTranscriptRef (hook w)) ;;
        finalTranscriptRef_set (f ++ transcript) ;;
        resultLoop rest (interimTranscript, finalTranscript ++ transcript, true)
      else if truthy transcript then
        resultLoop rest (interimTranscript ++ transcript, finalTranscript, hasNewFinal)
      else resultLoop rest acc
  end.

Section Hook.

Variable B : Browser.

(** [startListening] after its [await]. *)
Definition startListening_resume (onSpeechEnd : option Callback)
    (env : Captured) (hasPermission startThrows : bool) : M unit :=
  if negb hasPermission then alert micDeniedAlert
  else if negb (hasSpeechRecognition B) then skip
  else
    cleanup ;;
    isVoiceModeRef_set (isSome onSpeechEnd) ;;
    onSpeechEndRef_set onSpeechEnd ;;
    finalTranscriptRef_set [] ;;
    isProcessingRef_set false ;;
    lastProcessedTextRef_set [] ;;
    recognition <- newSpeechRecognition env ;;
    recognitionRef_set (Some recognition) ;;
    updRec recognition (with_settings (negb (isMobile B)) true (lit "tr-TR")) ;;
    if startThrows then
      setIsListening false ;;
      recognitionRef_set None ;;
      isProcessingRef_set false
    else recognition_start recognition.

Definition onstart (r : RecId) : M unit :=
  setIsListening true ;;
  setTranscript [] ;;
  v <- gets (fun w => isVoiceModeRef (hook w)) ;;
  when (isMobile B && v)
    (id <- setTimeout (TaAutoStop r) 10000 ;;
     updRec r (with_autoStopTimeout (Some id))).

(** [onresult] after its [for] loop: the transcript display is updated;
    in voice mode a new final result is processed after a silence window;
    on mobile an interim result that looks complete is processed too. *)
Definition onresult_afterLoop (acc : JsString * JsString * bool) : M unit :=
  let '(interimTranscript, _, hasNewFinal) := acc in
  f <- gets (fun w => finalTranscriptRef (hook w)) ;;
  let currentTranscript := f ++ interimTranscript in
  when (truthy currentTranscript) (setTranscript currentTranscript) ;;
  h <- gets hook ;;
  when (hasNewFinal && isVoiceModeRef h && negb (isProcessingRef h))
    (let fullText := trim (finalTranscriptRef h) in
     when (truthy fullText && (1 <? len fullText))
       (whenSome (silenceTimeoutRef h) clearTimeout ;;
        id <- setTimeout (TaSilence fullText) (if isMobile B then 500 else 300) ;;
        silenceTimeoutRef_set (Some id))) ;;
  h <- gets hook ;;
  when (isMobile B && isVoiceModeRef h && negb (isProcessingRef h)
        && truthy interimTranscript)
    (let fullText := trim (finalTranscriptRef h ++ interimTranscript) in
     when ((3 <? len fullText)
           && (endsWith fullText (lit ".") || endsWith fullText (lit "?")
               || endsWith fullText (lit "!") || (10 <? len fullText)))
       (whenSome (silenceTimeoutRef h) clearTimeout ;;
        id <- setTimeout (TaSilence fullText) 800 ;;
        silenceTimeoutRef_set (Some id))).

Definition onresult (r : RecId) (event : SpeechRecognitionEvent) : M unit :=
  clearAutoStop r ;;
  acc <- resultLoop (skipn (resultIndex event) (results event)) ([], [], false) ;;
  onresult_afterLoop acc.

Definition onend (r : RecId) : M unit :=
  setIsListening false ;;
  recognitionRef_set None ;;
  clearAutoStop r ;;
  h <- gets hook ;;
  when (negb (isVoiceModeRef h) && truthy (finalTranscriptRef h))
    (setTranscript (finalTranscriptRef h)) ;;
  setTimeout TaResetProcessing 1000 ;;
  skip.

Definition onerror (r : RecId) (error : RecError) : M unit :=
  clearAutoStop r ;;
  match error with
  | ErrAborted => skip
  | ErrNotAllowed => alert micDeniedAlert
  | ErrNoSpeech =>
      h <- gets hook ;;
      when (isMobile B && isVoiceModeRef h && negb (isProcessingRef h))
        (setTimeout TaNoSpeechRestart 1000 ;; skip)
  | ErrOther => skip
  end ;;
  setIsListening false ;;
  recognitionRef_set None ;;
  setTimeout TaResetProcessing 1000 ;;
  skip.

(** The mount effect of the hook. *)
Definition hookMountEffect : M unit :=
  when (hasSpeechRecognition B) (setIsSupported true).

End Hook.

(* ------------------------------------------------------------------ *)
(** ** The component (App) *)
(* ------------------------------------------------------------------ *)

Definition chatMode : JsString := lit "chat".
Definition sessionId : JsString := lit "user-session-1".

Definition getNow : M Z := gets (fun w => now (rt w)).

(** The [catch] clauses compute the text of the bot message this way. *)
Definition errorMessageOf (error : CallError) : JsString :=
  match error with
  | ChatApiError message => message
  | OtherError => fallbackErrorMessage
  end.

(** [handleVoiceConversation] up to its [await]. *)
Definition handleVoiceConversation (spokenText : JsString) : M unit :=
  p <- gets (fun w => isProcessingVoiceRef (app w)) ;;
  if p then skip
  else if negb (truthy (trim spokenText)) || (len (trim spokenText) <? 2) then
    v <- gets (fun w => voiceModeRef (app w)) ;;
    when v (restartListening HandleVoiceConversation)
  else
    isProcessingVoiceRef_set true ;;
    resetTranscript ;;
    setCurrentUserSpeech [] ;;
    t <- getNow ;;
    let userMessage := mkMessage (toString t) user spokenText t None in
    setMessages (fun prev => prev ++ [userMessage]) ;;
    setIsLoading true ;;
    stopSpeaking ;;
    sendChatMessage spokenText chatMode sessionId None None KVoice.

(** The three timers of the voice turn (500, 1000 and 2000 ms) share this
    body. *)
Definition voiceRestartTimer : M unit :=
  a <- gets app ;;
  when (voiceModeRef a && negb (isProcessingVoiceRef a))
    (restartListening HandleVoiceConversation).

(** The completion callback handed to [speak] by the voice turn. *)
Definition voiceTurnSpoken : M unit :=
  setCurrentBotSpeech [] ;;
  isProcessingVoiceRef_set false ;;
  v <- gets (fun w => voiceModeRef (app w)) ;;
  when v (setTimeout TaVoiceRestart 500 ;; skip).

(** [handleVoiceConversation] after its [await], the [try] branch followed
    by [finally]. *)
Definition handleVoiceConversation_resolved (data : ChatResponse) : M unit :=
  t <- getNow ;;
  let botMessage :=
    mkMessage (orElse (resp_id data) (toString t)) bot (textResponse data) t None in
  setMessages (fun prev => prev ++ [botMessage]) ;;
  v <- gets (fun w => voiceModeRef (app w)) ;;
  (if truthy (textResponse data) && v then
     setCurrentBotSpeech (textResponse data) ;;
     speak (textResponse data) (Some VoiceTurnSpoken)
   else if v then
     isProcessingVoiceRef_set false ;;
     setTimeout TaVoiceRestart 1000 ;; skip
   else isProcessingVoiceRef_set false) ;;
  setIsLoading false.

(** [handleVoiceConversation] after its [await], the [catch] branch
    followed by [finally]. *)
Definition handleVoiceConversation_rejected (error : CallError) : M unit :=
  let errorMessage := errorMessageOf error in
  t <- getNow ;;
  let botMessage := mkMessage (toString t) bot errorMessage t None in
  setMessages (fun prev => prev ++ [botMessage]) ;;
  isProcessingVoiceRef_set false ;;
  v <- gets (fun w => voiceModeRef (app w)) ;;
  when v (setTimeout TaVoiceRestart 2000 ;; skip) ;;
  setIsLoading false.

(** [handleResetChat] up to its [await]; what follows the [await] does
    nothing on success and only writes to the console on failure. *)
Definition handleResetChat : M unit :=
  l <- gets (fun w => isLoading (app w)) ;;
  if l then skip
  else
    setMessages (fun _ => []) ;;
    setIsVoiceMode false ;;
    voiceModeRef_set false ;;
    isProcessingVoiceRef_set false ;;
    setCurrentUserSpeech [] ;;
    setCurrentBotSpeech [] ;;
    stopSpeaking ;;
    stopListening ;;
    resetTranscript ;;
    sendChatMessage [] chatMode sessionId None (Some true) KReset.

Definition handleResetChat_resolved (data : ChatResponse) : M unit := skip.
Definition handleResetChat_rejected (error : CallError) : M unit := skip.

(** [handleSendMessage] up to its [await].  Clearing the value of the
    file input element is a change of the page, not of this state. *)
Definition handleSendMessage : M unit :=
  a <- gets app ;;
  if negb (truthy (trim (input a))) && negb (isSome (attachment a)) then skip
  else
    t <- getNow ;;
    let userMessage := mkMessage (toString t) user (input a) t (attachment a) in
    setMessages (fun prev => prev ++ [userMessage]) ;;
    setInput (fun _ => []) ;;
    setAttachment None ;;
    setIsLoading true ;;
    stopSpeaking ;;
    resetTranscript ;;
    sendChatMessage (input a) chatMode sessionId
      (match attachment a with Some x => Some [x] | None => None end)
      None (KSend (autoSpeak a)).

Definition handleSendMessage_resolved (autoSpeak : bool) (data : ChatResponse)
    : M unit :=
  t <- getNow ;;
  let botMessage :=
    mkMessage (orElse (resp_id data) (toString t)) bot (textResponse data) t None in
  setMessages (fun prev => prev ++ [botMessage]) ;;
  when (autoSpeak && truthy (textResponse data))
    (setTimeout (TaAutoSpeak (textResponse data)) 500 ;; skip) ;;
  setIsLoading false.

Definition handleSendMessage_rejected (error : CallError) : M unit :=
  let errorMessage := errorMessageOf error in
  t <- getNow ;;
  let botMessage := mkMessage (toString t) bot errorMessage t None in
  setMessages (fun prev => prev ++ [botMessage]) ;;
  setIsLoading false.

Definition handleVoiceToggle : M unit :=
  v <- gets (fun w => isVoiceMode (app w)) ;;
  if v then
    setIsVoiceMode false ;;
    voiceModeRef_set false ;;
    isProcessingVoiceRef_set false ;;
    setCurrentUserSpeech [] ;;
    setCurrentBotSpeech [] ;;
    stopListening ;;
    stopSpeaking
  else
    setIsVoiceMode true ;;
    voiceModeRef_set true ;;
    isProcessingVoiceRef_set false ;;
    setCurrentUserSpeech [] ;;
    setCurrentBotSpeech [] ;;
    resetTranscript ;;
    startListening (Some HandleVoiceConversation).

Definition handleSpeakMessage (message : JsString) : M unit :=
  s <- gets isSpeaking ;;
  if s then stopSpeaking else speak message None.

Definition handleManualVoiceInput : M unit :=
  l <- gets (fun w => isListening (hook w)) ;;
  if l then stopListening
  else resetTranscript ;; startListening None.

(** [s.startsWith(prefix)] *)
Definition startsWith (s prefix : JsString) : bool :=
  str_eqb (firstn (List.length prefix) s) prefix.

(** The file chosen in the picker: its name, its MIME type and the data
    URI the reader produces for it. *)
Record PickedFile := mkFile {
  file_name : JsString;
  file_type : JsString;
  file_dataUrl : JsString }.

(** [handleFileChange], with the reader's [onload] run at once. *)
Definition handleFileChange (file : option PickedFile) : M unit :=
  match file with
  | None => skip
  | Some f =>
      if negb (startsWith (file_type f) (lit "image/")) then alert notImageAlert
      else setAttachment
             (Some (mkAttachment (file_name f) (file_type f) (file_dataUrl f)))
  end.

Inductive VoiceState := loading | speaking | listening | idle.

Definition getCurrentVoiceState (w : World) : VoiceState :=
  if isLoading (app w) || isProcessingVoiceRef (app w) then loading
  else if isSpeaking w then speaking
  else if isListening (hook w) then listening
  else idle.

(** *** Effects and rendering *)

(** The three effects of the component, each reading the values of the
    render it belongs to. *)
Definition effect_voiceModeRef (d : Deps) : M unit :=
  voiceModeRef_set (dep_isVoiceMode d).

Definition effect_currentUserSpeech (d : Deps) : M unit :=
  if dep_isVoiceMode d && truthy (dep_transcript d) then
    setCurrentUserSpeech (dep_transcript d)
  else if negb (dep_isVoiceMode d) then setCurrentUserSpeech []
  else skip.

(** Manual microphone: write the transcript to the input when listening
    stops. *)
Definition effect_manualMicrophone (d : Deps) : M unit :=
  when (truthy (dep_transcript d) && negb (dep_isVoiceMode d)
        && negb (dep_isListening d))
    (setInput (fun prev => prev ++ dep_transcript d) ;;
     resetTranscript).

Definition currentDeps (w : World) : Deps :=
  mkDeps (transcript (hook w)) (isVoiceMode (app w)) (isListening (hook w)).

(** One render: [useCallback] rebuilds [startListening] when [isSupported]
    differs from the one its closure holds, and each effect runs when one
    of its dependencies differs from the previous render. *)
Definition renderPass : M unit :=
  d <- gets currentDeps ;;
  seen <- gets (fun w => depsSeen (rt w)) ;;
  env <- gets (fun w => startListeningEnv (rt w)) ;;
  sup <- gets (fun w => isSupported (hook w)) ;;
  when (negb (Bool.eqb (cap_isSupported env) sup))
    (updRt (with_startListeningEnv (mkCaptured sup (dep_isListening d)))) ;;
  let c_transcript := negb (str_eqb (dep_transcript d) (dep_transcript seen)) in
  let c_isVoiceMode := negb (Bool.eqb (dep_isVoiceMode d) (dep_isVoiceMode seen)) in
  let c_isListening := negb (Bool.eqb (dep_isListening d) (dep_isListening seen)) in
  when c_isVoiceMode (effect_voiceModeRef d) ;;
  when (c_transcript || c_isVoiceMode) (effect_currentUserSpeech d) ;;
  when (c_transcript || c_isVoiceMode || c_isListening) (effect_manualMicrophone d) ;;
  updRt (with_depsSeen d).

(** An effect that sets state causes one more render; the manual
    microphone effect is the only one that changes a dependency, and it
    cannot fire twice in a row, so two passes reach the fixed point
    ([render_reaches_fixed_point] below). *)
Definition render : M unit := renderPass ;; renderPass.

(** The page before its first render. *)
Definition blank (t0 : Z) : World :=
  mkWorld
    (mkApp [] [] false None true false [] [] false false)
    (mkHook false [] false None None [] false None false [] None)
    (mkRuntime t0 [] 1%nat [] 0%nat [] 0%nat [] 0%nat None [] []
       (mkCaptured false false) (mkDeps [] false false)).

(* ------------------------------------------------------------------ *)
(** ** The event loop *)
(* ------------------------------------------------------------------ *)

(** What can happen to the page: time passes, a due timer runs, a promise
    settles, the recognizer or the speaker raises an event, the user acts
    on a control. *)
Inductive Event :=
| EvAdvance (ms : Z)
| EvTimer (id : TimerId)
| EvProbe (p : ProbeId) (answer : MicProbe) (startThrows : bool)
| EvRecStart (r : RecId)
| EvRecResult (r : RecId) (event : SpeechRecognitionEvent)
| EvRecEnd (r : RecId)
| EvRecError (r : RecId) (error : RecError)
| EvResolve (c : CallId) (data : ChatResponse)
| EvReject (c : CallId) (error : CallError)
| EvSpoken
| EvVoiceToggle
| EvResetChat
| EvSendMessage
| EvManualVoiceInput
| EvInput (value : JsString)
| EvFile (file : option PickedFile)
| EvRemoveAttachment
| EvAutoSpeakToggle
| EvSpeakMessage (message : JsString).

Definition runCallback (cb : Callback) (text : JsString) : M unit :=
  match cb with HandleVoiceConversation => handleVoiceConversation text end.

Definition runSpeakDone (cb : option SpeakDone) : M unit :=
  match cb with
  | Some VoiceTurnSpoken => voiceTurnSpoken
  | None => skip
  end.

(** Modelled from the spec: the completion of a playback in the synthesis
    adapter, which is not part of the sources.  The utterance is over and
    its completion callback, if it has one, runs. *)
Definition playbackEnded (cb : option SpeakDone) : M unit :=
  stopSpeaking ;; runSpeakDone cb.

Definition runTimer (a : TimerAction) : M unit :=
  match a with
  | TaCallback cb text => runCallback cb text
  | TaSilence fullText => silenceTimer fullText
  | TaAutoStop r => autoStopTimer r
  | TaResetProcessing => resetProcessingTimer
  | TaNoSpeechRestart => noSpeechRestartTimer
  | TaRestart cb => restartTimer cb
  | TaVoiceRestart => voiceRestartTimer
  | TaAutoSpeak text => speak text None
  end.

Definition runResolved (k : Continuation) (data : ChatResponse) : M unit :=
  match k with
  | KVoice => handleVoiceConversation_resolved data
  | KSend a => handleSendMessage_resolved a data
  | KReset => handleResetChat_resolved data
  end.

Definition runRejected (k : Continuation) (error : CallError) : M unit :=
  match k with
  | KVoice => handleVoiceConversation_rejected error
  | KSend _ => handleSendMessage_rejected error
  | KReset => handleResetChat_rejected error
  end.

Definition findTimer (id : TimerId) (w : World) : option Timer :=
  find (fun t => (t_id t =? id)%nat) (timers (rt w)).
Definition findCall (c : CallId) (w : World) : option PendingCall :=
  find (fun x => (call_id x =? c)%nat) (calls (rt w)).
Definition findProbe (p : ProbeId) (w : World) : option PendingProbe :=
  find (fun x => (probe_id x =? p)%nat) (probes (rt w)).

Definition dropCall (c : CallId) : M unit :=
  updRt (fun r =>
    with_calls (filter (fun x => negb (call_id x =? c)%nat) (calls r)) (nextCall r) r).
Definition dropProbe (p : ProbeId) : M unit :=
  updRt (fun r =>
    with_probes (filter (fun x => negb (probe_id x =? p)%nat) (probes r))
      (nextProbe r) r).

(** Which recognizer events the browser may still deliver to an object:
    none before [start()] or after [end]; no result after [abort()].
    After [stop()] the recognizer still returns what it recognises in the
    audio it has captured, so results are delivered until [end]. *)
Definition recDelivers (s : RecStatus) (result : bool) : bool :=
  match s with
  | RsStarted | RsStopRequested => true
  | RsAborted => negb result
  | RsNew | RsEnded => false
  end.

Section Page.

Variable B : Browser.

(** The controls the current screen offers.  The voice screen shows only
    the close button; on the chat screen the voice, reset, microphone,
    file and send controls and the text input are disabled while
    [isLoading]. *)
Definition offered (w : World) (e : Event) : bool :=
  let a := app w in
  let chat := negb (isVoiceMode a) in
  match e with
  | EvVoiceToggle =>
      isVoiceMode a
      || (isSupported (hook w) && speechSynthesisSupported B && negb (isLoading a))
  | EvResetChat | EvSendMessage | EvInput _ | EvFile _ =>
      chat && negb (isLoading a)
  | EvManualVoiceInput => chat && isSupported (hook w) && negb (isLoading a)
  | EvRemoveAttachment => chat && isSome (attachment a)
  | EvAutoSpeakToggle => chat && speechSynthesisSupported B
  | EvSpeakMessage m =>
      chat && speechSynthesisSupported B
      && existsb (fun x => match msg_type x with
                           | bot => str_eqb (msg_message x) m
                           | user => false
                           end) (messages a)
  | _ => true
  end.

(** The handler an event runs, if the event can occur in this world: a
    timer runs once it is due and leaves the pending ones; a promise
    settles once; a recognizer delivers events between [start()] and its
    [end] event. *)
Definition handlerOf (w : World) (e : Event) : option (M unit) :=
  match e with
  | EvAdvance ms =>
      if 0 <=? ms then Some (updRt (fun r => with_now (now r + ms) r)) else None
  | EvTimer id =>
      match findTimer id w with
      | Some t =>
          if t_due t <=? now (rt w)
          then Some (clearTimeout id ;; runTimer (t_action t))
          else None
      | None => None
      end
  | EvProbe p answer startThrows =>
      match findProbe p w with
      | Some x =>
          Some (dropProbe p ;;
                startListening_resume B (probe_onSpeechEnd x) (probe_env x)
                  (checkMicrophonePermission answer) startThrows)
      | None => None
      end
  | EvRecStart r =>
      match lookupRec r (recognizers (rt w)) with
      | Some x => if recDelivers (rec_status x) false then Some (onstart B r) else None
      | None => None
      end
  | EvRecResult r event =>
      match lookupRec r (recognizers (rt w)) with
      | Some x =>
          if recDelivers (rec_status x) true then Some (onresult B r event) else None
      | None => None
      end
  | EvRecEnd r =>
      match lookupRec r (recognizers (rt w)) with
      | Some x =>
          if recDelivers (rec_status x) false
          then Some (updRec r (with_status RsEnded) ;; onend r)
          else None
      | None => None
      end
  | EvRecError r error =>
      match lookupRec r (recognizers (rt w)) with
      | Some x =>
          if recDelivers (rec_status x) false then Some (onerror B r error) else None
      | None => None
      end
  | EvResolve c data =>
      match findCall c w with
      | Some x => Some (dropCall c ;; runResolved (call_k x) data)
      | None => None
      end
  | EvReject c error =>
      match findCall c w with
      | Some x => Some (dropCall c ;; runRejected (call_k x) error)
      | None => None
      end
  | EvSpoken =>
      match utterance (rt w) with
      | Some (_, cb) => Some (playbackEnded cb)
      | None => None
      end
  | EvVoiceToggle => Some handleVoiceToggle
  | EvResetChat => Some handleResetChat
  | EvSendMessage => Some handleSendMessage
  | EvManualVoiceInput => Some handleManualVoiceInput
  | EvInput value => Some (setInput (fun _ => value))
  | EvFile file => Some (handleFileChange file)
  | EvRemoveAttachment => Some (setAttachment None)
  | EvAutoSpeakToggle =>
      Some (a <- gets (fun w => autoSpeak (app w)) ;; setAutoSpeak (negb a))
  | EvSpeakMessage m => Some (handleSpeakMessage m)
  end.

(** One turn of the event loop: the handler, then the renders it causes
    (React has rendered, and run the effects, before the next event is
    handled). *)
Definition step (e : Event) (w : World) : option World :=
  if offered w e then
    match handlerOf w e with
    | Some h => Some (exec (h ;; render) w)
    | None => None
    end
  else None.

Fixpoint run (es : list Event) (w : World) : option World :=
  match es with
  | [] => Some w
  | e :: es' =>
      match step e w with
      | Some w' => run es' w'
      | None => None
      end
  end.

(** The page after mounting: the hook's mount effect has probed the
    platform and the component has rendered. *)
Definition mounted (t0 : Z) : World :=
  exec (hookMountEffect B ;; render) (blank t0).

Definition reachable (t0 : Z) (w : World) : Prop :=
  exists es, run es (mounted t0) = Some w.

End Page.

(* ------------------------------------------------------------------ *)
(** ** Concrete scenarios *)
(* ------------------------------------------------------------------ *)

Definition desktop : Browser := mkBrowser false true true.
Definition phone : Browser := mkBrowser true true true.

(** The microphone probe answers that access is granted. *)
Definition micGranted : MicProbe := mkMicProbe (QueryState false) true.

(** A result event carrying one final segment. *)
Definition finalResult (s : string) : SpeechRecognitionEvent :=
  mkResultEvent [mkResult true (lit s)] 0.

(** The world a page mounted at time 0 is in after the events [es]. *)
Definition after (B : Browser) (es : list Event) : World :=
  match run B es (mounted B 0) with
  | Some w => w
  | None => blank 0
  end.

(** The events [es] can happen, one after the other, on a page mounted at
    time 0: each is offered by the screen it occurs on, each timer is due
    when it runs, each promise and recognizer event has its object. *)
Definition happens (B : Browser) (es : list Event) : Prop :=
  run B es (mounted B 0) = Some (after B es).

(** Voice mode is switched on, the recognizer starts and reports the final
    segment "hello"; 300 ms later the silence timer accepts it. *)
Definition heardHello : list Event :=
  [EvVoiceToggle; EvProbe 0%nat micGranted false; EvRecStart 0%nat;
   EvRecResult 0%nat (finalResult "hello"); EvAdvance 300; EvTimer 1%nat].

(** 100 ms after that the accepted text reaches the component, which
    issues the remote call of the turn. *)
Definition turnInFlight : list Event :=
  heardHello ++ [EvAdvance 100; EvTimer 2%nat].

(** A text message was sent from the chat screen and awaits its answer. *)
Definition textInFlight : list Event :=
  [EvInput (lit "hi"); EvSendMessage].

Definition picture : PickedFile :=
  mkFile (lit "cat.png") (lit "image/png") (lit "data:image/png;base64,AAAA").

(* ------------------------------------------------------------------ *)
(** ** Vocabulary of the statements *)
(* ------------------------------------------------------------------ *)

(** The request an outgoing text message produces. *)
Definition messageRequest (a : AppState) : ChatRequest :=
  mkRequest (input a) chatMode sessionId
    (match attachment a with Some x => Some [x] | None => None end) None.

(** [handleSendMessage] accepted the message: the user message is appended
    to the transcript and exactly one remote call, carrying the text and
    the attachment, is added to the outstanding ones. *)
Definition submitted (w w' : World) : Prop :=
  messages (app w')
  = messages (app w)
    ++ [mkMessage (toString (now (rt w))) user (input (app w)) (now (rt w))
          (attachment (app w))]
  /\ calls (rt w')
     = calls (rt w)
       ++ [mkCall (nextCall (rt w)) (messageRequest (app w))
             (KSend (autoSpeak (app w)))].

(** The request of the reset operation: empty text and the reset flag. *)
Definition resetRequest : ChatRequest :=
  mkRequest [] chatMode sessionId None (Some true).

(** The statements of [handleResetChat] between its guard and its remote
    call. *)
Definition clearLocalState : M unit :=
  setMessages (fun _ => []) ;;
  setIsVoiceMode false ;;
  voiceModeRef_set false ;;
  isProcessingVoiceRef_set false ;;
  setCurrentUserSpeech [] ;;
  setCurrentBotSpeech [] ;;
  stopSpeaking ;;
  stopListening ;;
  resetTranscript.

(** Message list, voice mode and turn state are all cleared. *)
Definition localStateCleared (w : World) : Prop :=
  messages (app w) = [] /\ isVoiceMode (app w) = false
  /\ voiceModeRef (app w) = false /\ isProcessingVoiceRef (app w) = false
  /\ currentUserSpeech (app w) = [] /\ currentBotSpeech (app w) = []
  /\ utterance (rt w) = None /\ isListening (hook w) = false
  /\ recognitionRef (hook w) = None /\ isVoiceModeRef (hook w) = false
  /\ transcript (hook w) = [] /\ finalTranscriptRef (hook w) = []
  /\ isProcessingRef (hook w) = false.

(** A text with only an attachment, a text without attachment and an
    empty form, each on a freshly mounted page. *)
Definition onlyAttachment : World :=
  after desktop [EvFile (Some picture); EvInput (lit "  ")].
Definition onlyText : World := after desktop [EvInput (lit "hi")].
Definition blankForm : World := after desktop [EvInput (lit "   ")].

(** The world has been rendered: the effects have seen the current values
    of their dependencies. *)
Definition settled (w : World) : Prop := depsSeen (rt w) = currentDeps w.

(** The transcript the recognizer's [onend] leaves in the state cell: in
    manual mode the accumulated final text when there is one, else what
    was displayed last. *)
Definition transcriptAtEnd (w : World) : JsString :=
  if negb (isVoiceModeRef (hook w)) && truthy (finalTranscriptRef (hook w))
  then finalTranscriptRef (hook w)
  else transcript (hook w).

(** Manual microphone: the user typed "note: ", pressed the microphone
    button, and the recognizer reported the final segment "buy milk". *)
Definition dictating : list Event :=
  [EvInput (lit "note: "); EvManualVoiceInput; EvProbe 0%nat micGranted false;
   EvRecStart 0%nat; EvRecResult 0%nat (finalResult "buy milk")].

(** Nothing was asked of the recognizer: no permission probe is pending
    that was not before, no recognizer object was created or touched, and
    the listening flag is as it was. *)
Definition recognitionUntouched (w w' : World) : Prop :=
  probes (rt w') = probes (rt w)
  /\ recognizers (rt w') = recognizers (rt w)
  /\ recognitionRef (hook w') = recognitionRef (hook w)
  /\ isListening (hook w') = isListening (hook w)
  /\ playbacks (rt w') = playbacks (rt w).

(** One more timer is pending: [body], due [delay] ms from now. *)
Definition armed (delay : Z) (body : TimerAction) (w w' : World) : Prop :=
  timers (rt w')
  = timers (rt w) ++ [mkTimer (nextTimer (rt w)) delay (now (rt w) + delay) body].

(** [restartListening] has armed its 1500 ms timer and keeps it in
    [timeoutRef]. *)
Definition restartHelperArmed (w w' : World) : Prop :=
  In (mkTimer (nextTimer (rt w)) 1500 (now (rt w) + 1500)
        (TaRestart HandleVoiceConversation))
     (timers (rt w'))
  /\ timeoutRef (hook w') = Some (nextTimer (rt w)).

(** [startListening] was called for the voice loop and is suspended on its
    permission probe. *)
Definition startRequested (w w' : World) : Prop :=
  probes (rt w')
  = probes (rt w)
    ++ [mkProbe (nextProbe (rt w)) (Some HandleVoiceConversation)
          (startListeningEnv (rt w))].

(** The two stages between a voice-turn timer and the recognizer.  When
    the timer of the turn runs with voice mode on and no turn in progress
    it calls [restartListening], which does not touch the recognizer but
    arms a further 1500 ms timer; otherwise it does nothing.  When that
    second timer runs with the hook still in voice mode it calls
    [startListening]; otherwise it does nothing. *)
Definition twoStageRestart (v : World) : Prop :=
  (voiceModeRef (app v) = true -> isProcessingVoiceRef (app v) = false ->
   recognitionUntouched v (exec voiceRestartTimer v)
   /\ restartHelperArmed v (exec voiceRestartTimer v))
  /\ (voiceModeRef (app v) = false \/ isProcessingVoiceRef (app v) = true ->
      exec voiceRestartTimer v = v)
  /\ (isVoiceModeRef (hook v) = true ->
      cap_isSupported (startListeningEnv (rt v)) = true ->
      startRequested v (exec (restartTimer HandleVoiceConversation) v))
  /\ (isVoiceModeRef (hook v) = false ->
      exec (restartTimer HandleVoiceConversation) v = v).

(** The recognizer has ended while the remote call of the turn is still
    outstanding. *)
Definition awaitingReply : list Event :=
  turnInFlight ++ [EvRecEnd 0%nat; EvAdvance 800].

(** The call fails with the service's own error. *)
Definition replyFailed : list Event :=
  awaitingReply ++ [EvReject 0%nat (ChatApiError (lit "HTTP 500"))].

(** The call succeeds, the reply is played, and playback completes two
    seconds later. *)
Definition replySpoken : list Event :=
  awaitingReply
  ++ [EvResolve 0%nat (mkResponse None (lit "hi there")); EvAdvance 2000;
      EvTimer 3%nat; EvSpoken].

(** The hook's latch is set and component, pending timers and
    outstanding calls are the given ones. *)
Definition latchedWith (A : AppState) (T : list Timer) (C : list PendingCall)
    (v : World) : Prop :=
  isProcessingRef (hook v) = true /\ app v = A
  /\ timers (rt v) = T /\ calls (rt v) = C.

(** A handler keeps a property of the world. *)
Definition keeps {A} (P : World -> Prop) (c : M A) : Prop :=
  forall w, P w -> P (snd (c w)).

(** Every [startListening] closure there is, the current one, the ones
    suspended on a permission probe and the ones the recognizer callbacks
    live in, was built by a render in which [isListening] was false, and
    the current one is up to date with [isSupported]. *)
Definition closuresSawNoListening (w : World) : Prop :=
  cap_isListening (startListeningEnv (rt w)) = false
  /\ cap_isSupported (startListeningEnv (rt w)) = isSupported (hook w)
  /\ Forall (fun p => cap_isListening (probe_env p) = false) (probes (rt w))
  /\ Forall (fun x => cap_isListening (rec_env (snd x)) = false)
       (recognizers (rt w)).

(** On a phone, voice mode is switched on and the recognizer starts; no
    result arrives. *)
Definition phoneListening : list Event :=
  [EvVoiceToggle; EvProbe 0%nat micGranted false; EvRecStart 0%nat].

(** The outstanding remote calls that belong to voice turns. *)
Definition isVoiceCall (c : PendingCall) : bool :=
  match call_k c with KVoice => true | _ => false end.

Definition voiceCalls (w : World) : list PendingCall :=
  filter isVoiceCall (calls (rt w)).

(** A reply is being played whose completion callback will release the
    processing guard. *)
Definition completionPending (w : World) : bool :=
  match utterance (rt w) with
  | Some (_, Some _) => true
  | _ => false
  end.

(** At most one voice turn is in flight: at most one voice call is
    outstanding, and while one is, the processing guard is set and no
    completion callback is waiting to release it. *)
Definition oneTurnInFlight (w : World) : Prop :=
  (List.length (voiceCalls w) <= 1)%nat
  /\ (voiceCalls w <> [] ->
      isProcessingVoiceRef (app w) = true /\ completionPending w = false).

(** The user controls that release the processing guard whatever is in
    flight. *)
Definition releasesGuard (e : Event) : bool :=
  match e with
  | EvVoiceToggle | EvResetChat => true
  | _ => false
  end.

(** The request of a voice turn. *)
Definition voiceRequest (spokenText : JsString) : ChatRequest :=
  mkRequest spokenText chatMode sessionId None None.

(** The user leaves voice mode right after "hello" was accepted, before
    the accepted text has reached the component. *)
Definition exitedAfterHello : list Event := heardHello ++ [EvVoiceToggle].

(** After the turn's call was issued, the stopping recognizer still
    delivers the final segment "world", which the hook accepts 300 ms
    later; the user then leaves voice mode, and 100 ms later the accepted
    text reaches the component.  The first call is answered, the user
    waits two seconds, enters voice mode again and says "again". *)
Definition lateSegmentAccepted : list Event :=
  turnInFlight
  ++ [EvRecResult 0%nat (finalResult "world"); EvAdvance 300; EvTimer 3%nat].

Definition secondCallAfterExit : list Event :=
  lateSegmentAccepted ++ [EvVoiceToggle; EvAdvance 100; EvTimer 4%nat].

Definition twoTurnsInVoiceMode : list Event :=
  secondCallAfterExit
  ++ [EvResolve 0%nat (mkResponse None (lit "hi")); EvAdvance 2000;
      EvVoiceToggle; EvProbe 1%nat micGranted false; EvRecStart 1%nat;
      EvRecResult 1%nat (finalResult "again"); EvAdvance 300; EvTimer 5%nat;
      EvAdvance 100; EvTimer 6%nat].

(** On a phone in voice mode the recognizer reports the one-letter final
    segment "a" and then ends, as a non-continuous recognizer does; one
    second later the timer of [onend] runs. *)
Definition shortResultOnPhone : list Event :=
  [EvVoiceToggle; EvProbe 0%nat micGranted false; EvRecStart 0%nat;
   EvRecResult 0%nat (finalResult "a"); EvRecEnd 0%nat;
   EvAdvance 1000; EvTimer 2%nat].

(* ------------------------------------------------------------------ *)
(** ** Vocabulary of the invariants of the page *)
(* ------------------------------------------------------------------ *)

(** The reference cell the callbacks read agrees with the state the
    screen is drawn from. *)
Definition voiceModeMirrored (w : World) : Prop :=
  voiceModeRef (app w) = isVoiceMode (app w).

(** The two captions of the voice screen are empty on the chat screen. *)
Definition captionsOnlyInVoiceMode (w : World) : Prop :=
  isVoiceMode (app w) = false ->
  currentUserSpeech (app w) = [] /\ currentBotSpeech (app w) = [].

Definition voiceDisplayConsistent (w : World) : Prop :=
  voiceModeMirrored w /\ captionsOnlyInVoiceMode w.

(** The test of [handleFileChange] on the MIME type. *)
Definition isImage (a : ChatAttachment) : bool :=
  startsWith (att_mime a) (lit "image/").

Definition imageOrNone (o : option ChatAttachment) : bool :=
  match o with Some a => isImage a | None => true end.

(** The attachment list of a request is absent or holds one image. *)
Definition singleImage (o : option (list ChatAttachment)) : bool :=
  match o with
  | None => true
  | Some [a] => isImage a
  | Some _ => false
  end.

(** Whatever is attached, shown in the transcript or on its way to the
    remote endpoint is an image, one per request at most. *)
Definition onlyImages (w : World) : Prop :=
  imageOrNone (attachment (app w)) = true
  /\ Forall (fun m => imageOrNone (msg_attachment m) = true) (messages (app w))
  /\ Forall (fun c => singleImage (req_attachments (call_request c)) = true)
       (calls (rt w)).

(** The timers the hook keeps in a reference cell: the silence timers of
    [onresult] in [silenceTimeoutRef], the timer of [restartListening] in
    [timeoutRef]. *)
Definition isSilenceTimer (t : Timer) : bool :=
  match t_action t with TaSilence _ => true | _ => false end.
Definition isRestartTimer (t : Timer) : bool :=
  match t_action t with TaRestart _ => true | _ => false end.

Definition trackedBy (h : HookState) (t : Timer) : Prop :=
  match t_action t with
  | TaSilence _ => silenceTimeoutRef h = Some (t_id t)
  | TaRestart _ => timeoutRef h = Some (t_id t)
  | _ => True
  end.

(** Pending timers have distinct identifiers, all handed out already, and
    every pending silence or restart timer is the one its reference cell
    holds. *)
Definition timersTracked (w : World) : Prop :=
  Forall (fun t => (t_id t < nextTimer (rt w))%nat) (timers (rt w))
  /\ NoDup (List.map t_id (timers (rt w)))
  /\ Forall (trackedBy (hook w)) (timers (rt w)).

(** The page runs where the platform has no recognizer: the hook reports
    no support, nothing listens and voice mode is off. *)
Definition recognitionUnavailable (w : World) : Prop :=
  isSupported (hook w) = false
  /\ cap_isSupported (startListeningEnv (rt w)) = false
  /\ probes (rt w) = [] /\ recognizers (rt w) = []
  /\ isListening (hook w) = false /\ recognitionRef (hook w) = None
  /\ isVoiceMode (app w) = false.

(** The calls of the two senders, as opposed to the reset notification. *)
Definition isChatCall (c : PendingCall) : bool :=
  match call_k c with KReset => false | _ => true end.

(** Outstanding calls have distinct identifiers, all handed out
    already. *)
Definition callsFresh (w : World) : Prop :=
  Forall (fun c => (call_id c < nextCall (rt w))%nat) (calls (rt w))
  /\ NoDup (List.map call_id (calls (rt w))).

(** While the loading flag is set, a call of one of the senders is
    outstanding. *)
Definition loadingHasCall (w : World) : Prop :=
  callsFresh w
  /\ (isLoading (app w) = true -> existsb isChatCall (calls (rt w)) = true).

(** Recognizer objects have identifiers that were handed out already,
    and so has the one [recognitionRef] holds. *)
Definition recognizersFresh (w : World) : Prop :=
  Forall (fun x => (fst x < nextRec (rt w))%nat) (recognizers (rt w))
  /\ (forall r, recognitionRef (hook w) = Some r -> (r < nextRec (rt w))%nat).

(** The hook knows what the platform offers, and so does the current
    [startListening] closure. *)
Definition supportKnown (B : Browser) (w : World) : Prop :=
  isSupported (hook w) = hasSpeechRecognition B
  /\ cap_isSupported (startListeningEnv (rt w)) = hasSpeechRecognition B.

(** The answers to the permission probe that [checkMicrophonePermission]
    turns into a refusal. *)
Definition refused (p : MicProbe) : Prop :=
  permissionQuery p = QueryThrows \/ permissionQuery p = QueryState true
  \/ getUserMediaOk p = false.

(** The recognizer object [startListening] leaves behind when [start()]
    has the status [s]. *)
Definition configuredRecognizer (B : Browser) (env : Captured) (s : RecStatus)
    : Recognizer :=
  mkRecognizer (negb (isMobile B)) true (lit "tr-TR") s None env.

(** The bot message a continuation appends for the text [text], with the
    identifier [id]. *)
Definition botMessage (id : JsString) (text : JsString) (t : Z) : ChatMessage :=
  mkMessage id bot text t None.

(** The events whose handler calls [sendChatMessage]: the two buttons and
    the hand-over timer of [processVoiceResult]. *)
Definition issuesCall (w : World) (e : Event) : bool :=
  match e with
  | EvSendMessage | EvResetChat => true
  | EvTimer id =>
      match findTimer id w with
      | Some t => match t_action t with TaCallback _ _ => true | _ => false end
      | None => false
      end
  | _ => false
  end.

(** No call was issued since the calls [C] were outstanding and [n] was
    the next identifier. *)
Definition noNewCall (C : list PendingCall) (n : CallId) (w : World) : Prop :=
  incl (calls (rt w)) C /\ nextCall (rt w) = n.

(** The transcript starts with the messages [M]. *)
Definition messagesExtend (M : list ChatMessage) (w : World) : Prop :=
  exists l, messages (app w) = M ++ l.

(** What the loop of [onresult] collects from the results it visits: the
    trimmed final segments, the trimmed interim segments, and whether a
    non-empty final segment was among them. *)
Definition finalText (rs : list SpeechResult) : JsString :=
  List.concat (List.map (fun r => trim (res_transcript r)) (filter isFinal rs)).
Definition interimText (rs : list SpeechResult) : JsString :=
  List.concat (List.map (fun r => trim (res_transcript r))
            (filter (fun r => negb (isFinal r)) rs)).
Definition hasFinal (rs : list SpeechResult) : bool :=
  existsb (fun r => isFinal r && truthy (trim (res_transcript r))) rs.

(** The results an event hands to the loop. *)
Definition newResults (event : SpeechRecognitionEvent) : list SpeechResult :=
  skipn (resultIndex event) (results event).

(** The mobile heuristic of [onresult] for an interim text that looks
    complete. *)
Definition looksComplete (fullText : JsString) : bool :=
  (3 <? len fullText)
  && (endsWith fullText (lit ".") || endsWith fullText (lit "?")
      || endsWith fullText (lit "!") || (10 <? len fullText)).

(** A reference cell that holds a timer identifier holds one that was
    handed out already, and a pending timer with that identifier is of
    the kind the cell is for. *)
Definition refOwns (ref : option TimerId) (kind : Timer -> bool) (w : World)
    : Prop :=
  forall r, ref = Some r ->
    (r < nextTimer (rt w))%nat
    /\ Forall (fun t => t_id t = r -> kind t = true) (timers (rt w)).

(** [silenceTimeoutRef] and [timeoutRef] hold the pending silence and
    restart timers and no other pending timer. *)
Definition timersOwned (w : World) : Prop :=
  timersTracked w
  /\ refOwns (silenceTimeoutRef (hook w)) isSilenceTimer w
  /\ refOwns (timeoutRef (hook w)) isRestartTimer w.

(** The timers [cleanup] cannot clear: all but the silence and restart
    timers. *)
Definition isUntracked (t : Timer) : bool :=
  negb (isSilenceTimer t || isRestartTimer t).
(* ------------------------------------------------------------------ *)
(** ** Vocabulary of the manual microphone and of the stalled loop *)
(* ------------------------------------------------------------------ *)

(** The transcript the manual-microphone effect finds after the step of
    [e] has stopped the hook outside voice mode: [onend] leaves the
    accumulated final text, [handleResetChat] empties the transcript
    before the effect runs, and every other handler that stops the hook
    leaves the transcript as it was. *)
Definition shownWhenStopped (w : World) (e : Event) : JsString :=
  match e with
  | EvRecEnd _ => transcriptAtEnd w
  | EvResetChat => []
  | _ => transcript (hook w)
  end.

(** The hook has stopped during the handler of [e], run from [w] outside
    voice mode: it does not listen, the page is still outside voice mode,
    the effects have seen no new render, the text input is as it was and
    the transcript is the one of [shownWhenStopped]. *)
Definition stoppedWith (w : World) (e : Event) (w1 : World) : Prop :=
  isListening (hook w1) = false /\ isVoiceMode (app w1) = false
  /\ depsSeen (rt w1) = depsSeen (rt w)
  /\ input (app w1) = input (app w)
  /\ transcript (hook w1) = shownWhenStopped w e.

(** The user resets the chat while dictating. *)
Definition resetWhileDictating : list Event := dictating ++ [EvResetChat].

(** A text message was sent and answered. *)
Definition textAnswered : list Event :=
  textInFlight ++ [EvResolve 0%nat (mkResponse None (lit "hello"))].

(** On a phone in voice mode the recognizer has reported the one-letter
    final segment "a". *)
Definition shortResultHeard : list Event :=
  [EvVoiceToggle; EvProbe 0%nat micGranted false; EvRecStart 0%nat;
   EvRecResult 0%nat (finalResult "a")].

Definition isVoiceToggle (e : Event) : bool :=
  match e with
  | EvVoiceToggle => true
  | _ => false
  end.

(** The voice loop has stopped for good: the page is in voice mode, the
    hook does not listen, and nothing is pending that could make it
    listen again: no timer, no permission probe, no remote call, no
    playback, no recognizer that can still deliver an event. *)
Definition voiceLoopStalled (w : World) : Prop :=
  isVoiceMode (app w) = true /\ isListening (hook w) = false
  /\ timers (rt w) = [] /\ probes (rt w) = [] /\ calls (rt w) = []
  /\ utterance (rt w) = None
  /\ Forall (fun x => rec_status (snd x) = RsEnded) (recognizers (rt w)).

(** Every pending hand-over timer of [processVoiceResult] carries a text
    that [handleVoiceConversation] finds long enough. *)
Definition handoversLongEnough (w : World) : Prop :=
  Forall (fun t => match t_action t with
                   | TaCallback _ text =>
                       negb (truthy (trim text)) || (len (trim text) <? 2) = false
                   | _ => True
                   end) (timers (rt w)).

(** A string with no white space in front. *)
Definition noLeadingSpace (s : JsString) : Prop :=
  match s with
  | [] => True
  | c :: _ => isWhiteSpace c = false
  end.
(* ------------------------------------------------------------------ *)
(** ** Proof tools *)
(* ------------------------------------------------------------------ *)

Unset Implicit Arguments.

(** Symbolic execution of a handler.  A world is first split into its
    cells, so that every projection of an updated world reduces at once;
    then the handlers and the state-transformer combinators are unfolded,
    splitting on each test the handler makes.  The string functions stay
    folded. *)
Ltac unfold_handlers :=
  cbv beta iota zeta delta
    [exec bind ret gets modify skip when whenSome getNow isSome
     updApp updHook updRt
     setMessages setInput setIsLoading setAttachment setAutoSpeak setIsVoiceMode
     setCurrentUserSpeech setCurrentBotSpeech voiceModeRef_set isProcessingVoiceRef_set
     setIsListening setTranscript setIsSupported recognitionRef_set onSpeechEndRef_set
     finalTranscriptRef_set isVoiceModeRef_set timeoutRef_set isProcessingRef_set
     lastProcessedTextRef_set silenceTimeoutRef_set
     with_now with_timers with_recognizers with_calls with_probes with_speaker
     with_alerts with_startListeningEnv with_depsSeen
     setTimeout clearTimeout updRec newSpeechRecognition recognition_start
     recognition_stop recognition_abort alert speak stopSpeaking sendChatMessage
     cleanup processVoiceResult stopListening resetTranscript startListening
     restartListening restartTimer silenceTimer resetProcessingTimer
     noSpeechRestartTimer autoStopTimer clearAutoStop
     startListening_resume onstart onresult_afterLoop onend onerror hookMountEffect
     handleVoiceConversation voiceRestartTimer voiceTurnSpoken
     handleVoiceConversation_resolved handleVoiceConversation_rejected
     handleResetChat handleResetChat_resolved handleResetChat_rejected
     clearLocalState
     handleSendMessage handleSendMessage_resolved handleSendMessage_rejected
     handleVoiceToggle handleSpeakMessage handleManualVoiceInput handleFileChange
     effect_voiceModeRef effect_currentUserSpeech effect_manualMicrophone
     currentDeps renderPass render runCallback runSpeakDone runTimer runResolved
     runRejected playbackEnded dropCall dropProbe isSpeaking
     fst snd app hook rt
     messages input isLoading attachment autoSpeak isVoiceMode currentUserSpeech
     currentBotSpeech voiceModeRef isProcessingVoiceRef
     isListening transcript isSupported recognitionRef onSpeechEndRef
     finalTranscriptRef isVoiceModeRef timeoutRef isProcessingRef
     lastProcessedTextRef silenceTimeoutRef
     now timers nextTimer recognizers nextRec calls nextCall probes nextProbe
     utterance playbacks alerts startListeningEnv depsSeen
     dep_transcript dep_isVoiceMode dep_isListening
     cap_isSupported cap_isListening].

Ltac fields_in_all :=
  cbn [app hook rt
       messages input isLoading attachment autoSpeak isVoiceMode currentUserSpeech
       currentBotSpeech voiceModeRef isProcessingVoiceRef
       isListening transcript isSupported recognitionRef onSpeechEndRef
       finalTranscriptRef isVoiceModeRef timeoutRef isProcessingRef
       lastProcessedTextRef silenceTimeoutRef
       now timers nextTimer recognizers nextRec calls nextCall probes nextProbe
       utterance playbacks alerts startListeningEnv depsSeen
       dep_transcript dep_isVoiceMode dep_isListening
       cap_isSupported cap_isListening] in *.

Ltac break_worlds :=
  repeat match goal with
         | w : World |- _ => destruct w as [[] [] []]
         end;
  repeat match goal with
         | d : Deps |- _ => destruct d
         | c : Captured |- _ => destruct c
         end;
  fields_in_all; subst.

Ltac case_step :=
  match goal with
  | |- context [match ?x with _ => _ end] => is_var x; destruct x eqn:?
  | |- context [match ?x with _ => _ end] =>
      lazymatch x with
      | context [match _ with _ => _ end] => fail
      | _ => destruct x eqn:?
      end
  end.

Ltac handler_cases :=
  break_worlds; unfold_handlers; repeat (case_step; unfold_handlers).

(** A branch that the hypotheses exclude: one of the recorded tests
    contradicts them. *)
Ltac excluded :=
  match goal with
  | H : _ = _ |- _ =>
      solve [ discriminate H
            | cbn in H;
              rewrite ?andb_false_r, ?andb_true_r, ?orb_true_r, ?orb_false_r in H;
              cbn in H; first [discriminate H | congruence | lia] ]
  end.

(** Symbolic execution, keeping only the branches that can be taken. *)
Ltac handler := handler_cases; try excluded.

(** Facts about one concrete world are settled by evaluation. *)
Ltac concrete :=
  repeat match goal with |- _ /\ _ => split end;
  vm_compute;
  first [ reflexivity | discriminate | congruence
        | repeat constructor; fail ].

Example trim_example : trim (lit "  buy milk ") = lit "buy milk".
Proof. reflexivity. Qed.

Example trim_blank_example : trim ([9; 32; 160; 10]%N) = [].
Proof. reflexivity. Qed.

Example length_counts_code_units : len (trim ([32; 252]%N)) = 1.
Proof. reflexivity. Qed.

Example endsWith_example :
  endsWith (lit "is it?") (lit "?") = true /\ endsWith (lit "is it") (lit "?") = false.
Proof. split; reflexivity. Qed.

Example toString_example : toString 1700 = lit "1700".
Proof. reflexivity. Qed.

Lemma str_eqb_refl (s : JsString) : str_eqb s s = true.
Proof.
  induction s as [|c s IH]; cbn; [reflexivity|].
  now rewrite N.eqb_refl, IH.
Qed.

Lemma truthy_true (s : JsString) : s <> [] -> truthy s = true.
Proof. destruct s; [congruence | reflexivity]. Qed.

(* ------------------------------------------------------------------ *)
(** ** Sending a text message *)
(* ------------------------------------------------------------------ *)

(** C7. [handleSendMessage] accepts a message that has an attachment,
    whatever its text (empty and blank included), accepts a message
    without attachment whose text is not blank, and rejects a message
    with neither: then nothing at all changes, so no message is appended
    and no remote call is made. *)
Theorem handleSendMessage_acceptance (w : World) :
  (forall x, attachment (app w) = Some x ->
             submitted w (exec handleSendMessage w))
  /\ (attachment (app w) = None -> trim (input (app w)) <> [] ->
      submitted w (exec handleSendMessage w))
  /\ (attachment (app w) = None -> trim (input (app w)) = [] ->
      exec handleSendMessage w = w).
Proof.
  unfold submitted, messageRequest. split; [|split].
  - intros x Hx. handler. split; reflexivity.
  - intros Ha Ht. apply truthy_true in Ht.
    handler; try (split; reflexivity); rewrite Ht in *; excluded.
  - intros Ha Ht. handler; try reflexivity; rewrite Ht in *; excluded.
Qed.

Lemma handleSendMessage_acceptance_witness :
  submitted onlyAttachment (exec handleSendMessage onlyAttachment)
  /\ submitted onlyText (exec handleSendMessage onlyText)
  /\ exec handleSendMessage blankForm = blankForm.
Proof.
  destruct (handleSendMessage_acceptance onlyAttachment) as [HA _].
  destruct (handleSendMessage_acceptance onlyText) as [_ [HT _]].
  destruct (handleSendMessage_acceptance blankForm) as [_ [_ HB]].
  split; [|split].
  - apply (HA (mkAttachment (lit "cat.png") (lit "image/png")
                 (lit "data:image/png;base64,AAAA"))). vm_compute. reflexivity.
  - apply HT; [vm_compute; reflexivity | vm_compute; discriminate].
  - apply HB; vm_compute; reflexivity.
Defined.

(* ------------------------------------------------------------------ *)
(** ** Resetting the chat *)
(* ------------------------------------------------------------------ *)

Lemma clearLocalState_clears (w : World) :
  localStateCleared (exec clearLocalState w)
  /\ calls (rt (exec clearLocalState w)) = calls (rt w)
  /\ nextCall (rt (exec clearLocalState w)) = nextCall (rt w).
Proof.
  unfold localStateCleared. handler; repeat split; reflexivity.
Qed.

Lemma handleResetChat_idle (w : World) :
  isLoading (app w) = false ->
  exec handleResetChat w
  = exec (sendChatMessage [] chatMode sessionId None (Some true) KReset)
      (exec clearLocalState w).
Proof. intros H. handler; reflexivity. Qed.

Lemma handleResetChat_cleared (w : World) :
  isLoading (app w) = false -> localStateCleared (exec handleResetChat w).
Proof.
  intros H. unfold localStateCleared. handler; repeat split; reflexivity.
Qed.

Lemma handleResetChat_busy (w : World) :
  isLoading (app w) = true -> exec handleResetChat w = w.
Proof. intros H. handler; reflexivity. Qed.

(** What the handler does when the loading flag is clear: it empties the
    message list and adds to the outstanding calls one request to the
    remote endpoint whose reset flag is true. *)
Lemma handleResetChat_clears_and_notifies (w : World) :
  isLoading (app w) = false ->
  messages (app (exec handleResetChat w)) = []
  /\ calls (rt (exec handleResetChat w))
     = calls (rt w) ++ [mkCall (nextCall (rt w)) resetRequest KReset]
  /\ req_reset resetRequest = Some true.
Proof.
  intros H. unfold resetRequest. handler; repeat split; reflexivity.
Qed.

(** C10. The reset operation is gated on the loading flag and is not
    atomic with the remote endpoint.  While loading it changes nothing
    and sends nothing.  Otherwise it first clears the local state
    (message list, voice mode, turn state), with no call issued yet, and
    then issues the reset request from the cleared state.  When that
    request fails, the continuation changes neither the component nor the
    hook, raises no alert and starts no timer: only the outstanding call
    is gone. *)
Theorem handleResetChat_gated_not_atomic (w : World) :
  (isLoading (app w) = true -> exec handleResetChat w = w)
  /\ (isLoading (app w) = false ->
      let cleared := exec clearLocalState w in
      localStateCleared cleared
      /\ calls (rt cleared) = calls (rt w)
      /\ exec handleResetChat w
         = exec (sendChatMessage [] chatMode sessionId None (Some true) KReset)
             cleared
      /\ localStateCleared (exec handleResetChat w))
  /\ (forall c error,
      let w' := exec (dropCall c ;; runRejected KReset error) w in
      app w' = app w /\ hook w' = hook w
      /\ alerts (rt w') = alerts (rt w) /\ timers (rt w') = timers (rt w)
      /\ utterance (rt w') = utterance (rt w)
      /\ calls (rt w')
         = filter (fun x => negb (call_id x =? c)%nat) (calls (rt w))).
Proof.
  split; [apply handleResetChat_busy|]. split.
  - intros H. cbv zeta.
    destruct (clearLocalState_clears w) as [Hc [Hcalls _]].
    split; [exact Hc|]. split; [exact Hcalls|].
    split; [now apply handleResetChat_idle|].
    now apply handleResetChat_cleared.
  - intros c error. cbv zeta. handler; repeat split; reflexivity.
Qed.

Lemma handleResetChat_gated_not_atomic_witness :
  exec handleResetChat (after desktop textInFlight) = after desktop textInFlight
  /\ localStateCleared (exec handleResetChat (after desktop heardHello)).
Proof.
  split.
  - apply (proj1 (handleResetChat_gated_not_atomic (after desktop textInFlight))).
    vm_compute. reflexivity.
  - apply (proj1 (proj2 (handleResetChat_gated_not_atomic (after desktop heardHello)))).
    vm_compute. reflexivity.
Defined.

(* ------------------------------------------------------------------ *)
(** ** Transcripts that are too short *)
(* ------------------------------------------------------------------ *)

Lemma handleVoiceConversation_latched (w : World) (text : JsString) :
  isProcessingVoiceRef (app w) = true ->
  exec (handleVoiceConversation text) w = w.
Proof. intros H. handler; reflexivity. Qed.

Lemma short_guard (text : JsString) :
  len (trim text) < 2 ->
  negb (truthy (trim text)) || (len (trim text) <? 2) = true.
Proof. intros H. apply orb_true_iff. right. now apply Z.ltb_lt. Qed.

(** A result event whose accumulated text is too short arms no processing
    timer and issues no call. *)
Lemma onresult_afterLoop_short (B : Browser) (w : World)
    (interim final : JsString) (hasNewFinal : bool) :
  len (trim (finalTranscriptRef (hook w))) < 2 ->
  len (trim (finalTranscriptRef (hook w) ++ interim)) < 2 ->
  let w' := exec (onresult_afterLoop B (interim, final, hasNewFinal)) w in
  timers (rt w') = timers (rt w) /\ calls (rt w') = calls (rt w).
Proof.
  intros H1 H2. cbv zeta. break_worlds.
  assert (G1 : (1 <? len (trim finalTranscriptRef0)) = false)
    by (apply Z.ltb_ge; lia).
  assert (G2 : (3 <? len (trim (finalTranscriptRef0 ++ interim))) = false)
    by (apply Z.ltb_ge; lia).
  unfold onresult_afterLoop. unfold_handlers.
  repeat (case_step; unfold_handlers; rewrite ?G1, ?G2, ?andb_false_r in *);
    try (split; reflexivity); discriminate.
Qed.

(** A transcript whose trimmed text has fewer than 2 code units never
    reaches the remote endpoint: the result handler arms no processing
    timer for it, [processVoiceResult] leaves the world untouched, and
    [handleVoiceConversation] adds neither a call nor a message.  The
    test of [handleVoiceConversation] on the length restarts listening,
    through [restartListening], when no turn is being processed and voice
    mode is on. *)
Lemma short_transcript_not_submitted (w : World) (text : JsString) :
  len (trim text) < 2 ->
  exec (processVoiceResult text) w = w
  /\ calls (rt (exec (handleVoiceConversation text) w)) = calls (rt w)
  /\ messages (app (exec (handleVoiceConversation text) w)) = messages (app w)
  /\ (isProcessingVoiceRef (app w) = false -> voiceModeRef (app w) = true ->
      exec (handleVoiceConversation text) w
      = exec (restartListening HandleVoiceConversation) w)
  /\ (isProcessingVoiceRef (app w) = true \/ voiceModeRef (app w) = false ->
      exec (handleVoiceConversation text) w = w)
  /\ (forall B interim final hasNewFinal,
      finalTranscriptRef (hook w) ++ interim = text ->
      len (trim (finalTranscriptRef (hook w))) < 2 ->
      let w' := exec (onresult_afterLoop B (interim, final, hasNewFinal)) w in
      timers (rt w') = timers (rt w) /\ calls (rt w') = calls (rt w)).
Proof.
  intros Hshort. pose proof (short_guard text Hshort) as Hguard.
  split; [|split; [|split; [|split; [|split]]]].
  - handler; try reflexivity; lia.
  - handler; try reflexivity; rewrite Hguard in *; discriminate.
  - handler; try reflexivity; rewrite Hguard in *; discriminate.
  - intros Hp Hv. handler; try reflexivity; rewrite Hguard in *; discriminate.
  - intros [Hp | Hv].
    + now apply handleVoiceConversation_latched.
    + handler; try reflexivity; rewrite Hguard in *; discriminate.
  - intros B interim final hasNewFinal Htext Hfinal.
    apply onresult_afterLoop_short; [exact Hfinal|]. now rewrite Htext.
Qed.

(* ------------------------------------------------------------------ *)
(** ** Manual microphone *)
(* ------------------------------------------------------------------ *)

(** One render when listening has just stopped outside voice mode with a
    transcript: the manual-microphone effect fires. *)
Lemma renderPass_manualMicrophone (w : World) :
  dep_isListening (depsSeen (rt w)) = true ->
  isListening (hook w) = false ->
  isVoiceMode (app w) = false ->
  transcript (hook w) <> [] ->
  let w1 := exec renderPass w in
  input (app w1) = input (app w) ++ transcript (hook w)
  /\ transcript (hook w1) = []
  /\ finalTranscriptRef (hook w1) = [].
Proof.
  intros Hseen Hl Hv Ht. apply truthy_true in Ht. cbv zeta.
  break_worlds.
  unfold renderPass. unfold_handlers.
  repeat (case_step; unfold_handlers; rewrite ?Ht;
          cbn [Bool.eqb negb andb orb]; rewrite ?orb_true_r);
    repeat split; reflexivity.
Qed.

(** A render with an empty transcript leaves input and transcript alone. *)
Lemma renderPass_quiet (w : World) :
  transcript (hook w) = [] ->
  let w1 := exec renderPass w in
  input (app w1) = input (app w)
  /\ transcript (hook w1) = []
  /\ finalTranscriptRef (hook w1) = finalTranscriptRef (hook w).
Proof.
  intros Ht. cbv zeta. break_worlds.
  unfold renderPass. unfold_handlers.
  repeat (case_step; unfold_handlers; cbn [truthy andb]);
    repeat split; reflexivity.
Qed.

Lemma exec_bind {A} (c : M A) (k : M unit) (w : World) :
  exec (c ;; k) w = exec k (exec c w).
Proof. unfold exec, bind. destruct (c w); reflexivity. Qed.

(** What rendering does when listening has just stopped outside voice mode
    with a transcript: the manual-microphone effect fires once. *)
Lemma render_manualMicrophone (w : World) :
  dep_isListening (depsSeen (rt w)) = true ->
  isListening (hook w) = false ->
  isVoiceMode (app w) = false ->
  transcript (hook w) <> [] ->
  input (app (exec render w)) = input (app w) ++ transcript (hook w)
  /\ transcript (hook (exec render w)) = []
  /\ finalTranscriptRef (hook (exec render w)) = [].
Proof.
  intros Hseen Hl Hv Ht. unfold render. rewrite exec_bind.
  destruct (renderPass_manualMicrophone w Hseen Hl Hv Ht) as [Hi [Hnil Hf]].
  destruct (renderPass_quiet (exec renderPass w) Hnil) as [Hi2 [Hnil2 Hf2]].
  rewrite Hi2, Hf2, Hi, Hf. repeat split; [exact Hnil2].
Qed.

Lemma onend_effect (w : World) (r : RecId) :
  let w1 := exec (updRec r (with_status RsEnded) ;; onend r) w in
  app w1 = app w /\ isListening (hook w1) = false
  /\ depsSeen (rt w1) = depsSeen (rt w)
  /\ transcript (hook w1) = transcriptAtEnd w.
Proof.
  cbv zeta. unfold transcriptAtEnd. handler; repeat split; reflexivity.
Qed.

Lemma stopListening_effect (w : World) :
  let w1 := exec stopListening w in
  app w1 = app w /\ isListening (hook w1) = false
  /\ depsSeen (rt w1) = depsSeen (rt w)
  /\ transcript (hook w1) = transcript (hook w).
Proof. cbv zeta. handler; repeat split; reflexivity. Qed.

Lemma handleManualVoiceInput_stops (w : World) :
  isListening (hook w) = true ->
  exec handleManualVoiceInput w = exec stopListening w.
Proof. intros H. handler; reflexivity. Qed.

(* ------------------------------------------------------------------ *)
(** ** The restart chain of the voice loop *)
(* ------------------------------------------------------------------ *)

Lemma in_app_last {A} (l : list A) (x : A) : In x (l ++ [x]).
Proof. apply in_or_app. right. now left. Qed.

Lemma twoStageRestart_holds (v : World) : twoStageRestart v.
Proof.
  unfold twoStageRestart, recognitionUntouched, restartHelperArmed, startRequested.
  split; [|split; [|split]].
  - intros Hv Hp. handler; try excluded;
      repeat match goal with |- _ /\ _ => split end;
      try reflexivity; apply in_app_last.
  - intros [Hv | Hp]; handler; try reflexivity; excluded.
  - intros Hv Hs. handler; reflexivity.
  - intros Hv. handler; reflexivity.
Qed.


(* ------------------------------------------------------------------ *)
(** ** A voice turn whose remote call fails *)
(* ------------------------------------------------------------------ *)

(** C4, as the code has it.  When the remote call of a voice turn fails,
    the rejection is handled: a bot message is appended whose text is the
    error's own message for a [ChatApiError] and the fixed fallback text
    for any other error; the processing guard and the loading flag are
    released; the recognizer is not touched; and, if voice mode is on, a
    2000 ms timer is armed.  That timer restarts listening in two stages:
    if voice mode is still on and no turn is in progress it calls the
    restart helper, which arms a further 1500 ms timer, and only that
    timer calls [startListening], if the hook is still in voice mode. *)
Theorem voice_call_failure_recovers (w : World) (error : CallError) :
  let w' := exec (handleVoiceConversation_rejected error) w in
  messages (app w')
  = messages (app w)
    ++ [mkMessage (toString (now (rt w))) bot (errorMessageOf error)
          (now (rt w)) None]
  /\ errorMessageOf OtherError = fallbackErrorMessage
  /\ (forall m, errorMessageOf (ChatApiError m) = m)
  /\ isProcessingVoiceRef (app w') = false
  /\ isLoading (app w') = false
  /\ recognitionUntouched w w'
  /\ (voiceModeRef (app w) = true -> armed 2000 TaVoiceRestart w w')
  /\ (voiceModeRef (app w) = false -> timers (rt w') = timers (rt w))
  /\ (forall v, twoStageRestart v).
Proof.
  cbv zeta. unfold recognitionUntouched, armed.
  repeat match goal with |- _ /\ _ => split end;
    try apply twoStageRestart_holds; try reflexivity;
    try (intros; handler; first [reflexivity | discriminate]).
Qed.

Lemma voice_call_failure_recovers_witness :
  let w := after desktop awaitingReply in
  let w' := exec (handleVoiceConversation_rejected OtherError) w in
  voiceModeRef (app w) = true
  /\ armed 2000 TaVoiceRestart w w'
  /\ isProcessingVoiceRef (app w') = false.
Proof.
  cbv zeta.
  pose proof (voice_call_failure_recovers (after desktop awaitingReply) OtherError)
    as H.
  cbv zeta in H. destruct H as [_ [_ [_ [Hp [_ [_ [Ha _]]]]]]].
  assert (Hv : voiceModeRef (app (after desktop awaitingReply)) = true)
    by (vm_compute; reflexivity).
  split; [exact Hv|]. split; [exact (Ha Hv) | exact Hp].
Defined.

(** C4 as stated fails on two points.  The service's own error message
    ("HTTP 500") is what the bot message shows, not the localized fallback
    text.  And 2000 ms after the failure listening has not restarted: no
    recognizer is running and none has been requested; only the 1500 ms
    timer of the restart helper is pending, and [startListening] is called
    3500 ms after the failure. *)
Lemma voice_call_failure_api_message_and_late_restart :
  let failed := after desktop replyFailed in
  let at2000 := after desktop (replyFailed ++ [EvAdvance 2000; EvTimer 4%nat]) in
  let at3500 :=
    after desktop (replyFailed ++ [EvAdvance 2000; EvTimer 4%nat;
                                   EvAdvance 1500; EvTimer 5%nat]) in
  happens desktop (replyFailed ++ [EvAdvance 2000; EvTimer 4%nat;
                                   EvAdvance 1500; EvTimer 5%nat])
  /\ List.map msg_message (messages (app failed)) = [lit "hello"; lit "HTTP 500"]
  /\ lit "HTTP 500" <> fallbackErrorMessage
  /\ isVoiceMode (app at2000) = true
  /\ now (rt at2000) = now (rt failed) + 2000
  /\ probes (rt at2000) = []
  /\ recognitionRef (hook at2000) = None
  /\ isListening (hook at2000) = false
  /\ List.map (fun x => rec_status (snd x)) (recognizers (rt at2000)) = [RsEnded]
  /\ List.map t_action (timers (rt at2000))
     = [TaResetProcessing; TaRestart HandleVoiceConversation]
  /\ now (rt at3500) = now (rt failed) + 3500
  /\ List.map probe_onSpeechEnd (probes (rt at3500)) = [Some HandleVoiceConversation].
Proof. cbv zeta. concrete. Qed.

(* ------------------------------------------------------------------ *)
(** ** A voice turn whose reply is spoken *)
(* ------------------------------------------------------------------ *)




(* ------------------------------------------------------------------ *)
(** ** Properties kept by handlers *)
(* ------------------------------------------------------------------ *)

Section Keeps.

Variable P : World -> Prop.

Lemma keeps_ret {A} (a : A) : keeps P (ret a).
Proof. intros w H. exact H. Qed.

Lemma keeps_gets {A} (f : World -> A) : keeps P (gets f).
Proof. intros w H. exact H. Qed.

Lemma keeps_bind {A B} (c : M A) (k : A -> M B) :
  keeps P c -> (forall a, keeps P (k a)) -> keeps P (bind c k).
Proof.
  intros Hc Hk w H. unfold bind. specialize (Hc w H).
  destruct (c w) as [a w1]. exact (Hk a w1 Hc).
Qed.

Lemma keeps_when (b : bool) (c : M unit) : keeps P c -> keeps P (when b c).
Proof. intros Hc. destruct b; [exact Hc | apply keeps_ret]. Qed.

Lemma keeps_whenSome {A} (o : option A) (c : A -> M unit) :
  (forall a, keeps P (c a)) -> keeps P (whenSome o c).
Proof. intros Hc. destruct o; [apply Hc | apply keeps_ret]. Qed.

Lemma keeps_exec {A} (c : M A) (w : World) : keeps P c -> P w -> P (exec c w).
Proof. intros Hc H. exact (Hc w H). Qed.

End Keeps.

(** Bring a lemma into the context, split into its conjuncts. *)
Ltac facts L :=
  let H := fresh "K" in
  pose proof L as H;
  repeat match type of H with
         | _ /\ _ => let H1 := fresh "K" in destruct H as [H1 H]
         end.

(** Decompose a handler along its structure; what is left are the
    primitive updates, closed by the facts at hand or because the
    property does not read the cell they write. *)
Ltac keeps_step :=
  lazymatch goal with
  | |- keeps _ (bind _ _) => apply keeps_bind; [| intro]
  | |- keeps _ (ret _) => apply keeps_ret
  | |- keeps _ skip => apply keeps_ret
  | |- keeps _ (gets _) => apply keeps_gets
  | |- keeps _ getNow => apply keeps_gets
  | |- keeps _ (when _ _) => apply keeps_when
  | |- keeps _ (whenSome _ _) => apply keeps_whenSome; intro
  | |- keeps _ (if ?b then _ else _) => destruct b
  | |- keeps _ (match ?x with _ => _ end) => destruct x
  end.

Ltac keeps_frame :=
  solve [ auto
        | let w := fresh "w" in let H := fresh "H" in
          intros w H; destruct w as [[] [] []]; exact H ].

Ltac keeps_auto := repeat keeps_step; try keeps_frame.

(* ------------------------------------------------------------------ *)
(** ** The closures of [startListening] never see [isListening] true *)
(* ------------------------------------------------------------------ *)

Lemma Forall_updateRec (Q : Recognizer -> Prop) (r : RecId)
    (f : Recognizer -> Recognizer) (l : list (RecId * Recognizer)) :
  (forall x, Q x -> Q (f x)) ->
  Forall (fun x => Q (snd x)) l -> Forall (fun x => Q (snd x)) (updateRec r f l).
Proof.
  intros Hf. induction 1 as [|[k v] l Hv Hl IH]; cbn; [constructor|].
  destruct (k =? r)%nat; constructor; cbn; auto.
Qed.

Lemma Forall_filter {A} (Q : A -> Prop) (g : A -> bool) (l : list A) :
  Forall Q l -> Forall Q (filter g l).
Proof.
  induction 1 as [|x l Hx Hl IH]; cbn; [constructor|].
  destruct (g x); [constructor|]; assumption.
Qed.

Lemma closures_updRec (r : RecId) (f : Recognizer -> Recognizer) :
  (forall x, rec_env (f x) = rec_env x) ->
  keeps closuresSawNoListening (updRec r f).
Proof.
  intros Hf w [H1 [H2 [H3 H4]]]. destruct w as [a h []]. cbn in *.
  repeat split; try assumption.
  apply (Forall_updateRec (fun x => cap_isListening (rec_env x) = false));
    [|assumption].
  intros x Hx. now rewrite Hf.
Qed.

Lemma closures_recognition_start (r : RecId) :
  keeps closuresSawNoListening (recognition_start r).
Proof. apply closures_updRec. intros x. now destruct (rec_status x). Qed.

Lemma closures_recognition_stop (r : RecId) :
  keeps closuresSawNoListening (recognition_stop r).
Proof. apply closures_updRec. intros x. now destruct (rec_status x). Qed.

Lemma closures_recognition_abort (r : RecId) :
  keeps closuresSawNoListening (recognition_abort r).
Proof. apply closures_updRec. intros x. now destruct (rec_status x). Qed.

Lemma closures_with_autoStopTimeout (r : RecId) (t : option TimerId) :
  keeps closuresSawNoListening (updRec r (with_autoStopTimeout t)).
Proof. apply closures_updRec. reflexivity. Qed.

Lemma closures_with_status (r : RecId) (s : RecStatus) :
  keeps closuresSawNoListening (updRec r (with_status s)).
Proof. apply closures_updRec. reflexivity. Qed.

Lemma closures_with_settings (r : RecId) (c i : bool) (l : JsString) :
  keeps closuresSawNoListening (updRec r (with_settings c i l)).
Proof. apply closures_updRec. reflexivity. Qed.

Lemma closures_newSpeechRecognition (env : Captured) :
  cap_isListening env = false ->
  keeps closuresSawNoListening (newSpeechRecognition env).
Proof.
  intros He w [H1 [H2 [H3 H4]]]. destruct w as [a h []]. cbn in *.
  repeat split; try assumption.
  apply Forall_app. split; [assumption|]. repeat constructor. exact He.
Qed.

Lemma closures_dropProbe (p : ProbeId) :
  keeps closuresSawNoListening (dropProbe p).
Proof.
  intros w [H1 [H2 [H3 H4]]]. destruct w as [a h []]. cbn in *.
  repeat split; try assumption. now apply Forall_filter.
Qed.

Lemma closures_startListening (cb : option Callback) :
  keeps closuresSawNoListening (startListening cb).
Proof.
  intros w [H1 [H2 [H3 H4]]]. destruct w as [a h []]. cbn in *.
  destruct (negb (cap_isSupported startListeningEnv0)); cbn;
    repeat split; try assumption.
  apply Forall_app. split; [assumption|]. repeat constructor. exact H1.
Qed.

(** The updates of recognizer objects and probes keep the property. *)
Lemma closures_primitives :
  (forall r, keeps closuresSawNoListening (recognition_start r))
  /\ (forall r, keeps closuresSawNoListening (recognition_stop r))
  /\ (forall r, keeps closuresSawNoListening (recognition_abort r))
  /\ (forall r t, keeps closuresSawNoListening (updRec r (with_autoStopTimeout t)))
  /\ (forall r s, keeps closuresSawNoListening (updRec r (with_status s)))
  /\ (forall r c i l, keeps closuresSawNoListening (updRec r (with_settings c i l)))
  /\ (forall p, keeps closuresSawNoListening (dropProbe p))
  /\ (forall cb, keeps closuresSawNoListening (startListening cb)).
Proof.
  repeat match goal with |- _ /\ _ => split end.
  - exact closures_recognition_start.
  - exact closures_recognition_stop.
  - exact closures_recognition_abort.
  - exact closures_with_autoStopTimeout.
  - exact closures_with_status.
  - exact closures_with_settings.
  - exact closures_dropProbe.
  - exact closures_startListening.
Qed.

Lemma closures_cleanup : keeps closuresSawNoListening cleanup.
Proof. facts closures_primitives. unfold cleanup. keeps_auto. Qed.

Lemma closures_resultLoop (rs : list SpeechResult) (acc : JsString * JsString * bool) :
  keeps closuresSawNoListening (resultLoop rs acc).
Proof.
  revert acc. induction rs as [|result rest IH]; intros [[i f] n]; cbn [resultLoop].
  - apply keeps_ret.
  - keeps_auto; apply IH.
Qed.

(** So do the helpers of the hook. *)
Lemma closures_helpers :
  keeps closuresSawNoListening cleanup
  /\ (forall text, keeps closuresSawNoListening (processVoiceResult text))
  /\ keeps closuresSawNoListening stopListening
  /\ keeps closuresSawNoListening resetTranscript
  /\ (forall cb, keeps closuresSawNoListening (restartListening cb))
  /\ (forall r, keeps closuresSawNoListening (clearAutoStop r))
  /\ (forall rs acc, keeps closuresSawNoListening (resultLoop rs acc)).
Proof.
  facts closures_primitives. pose proof closures_cleanup.
  repeat match goal with |- _ /\ _ => split end;
    try (lazymatch goal with |- forall _, _ => intros end);
    try apply closures_resultLoop;
    unfold processVoiceResult, stopListening, resetTranscript, restartListening,
      clearAutoStop;
    keeps_auto.
Qed.

Lemma closures_timers (a : TimerAction) :
  keeps closuresSawNoListening (runTimer a).
Proof.
  facts closures_primitives. facts closures_helpers.
  destruct a; cbn [runTimer].
  - destruct cb. cbn [runCallback]. unfold handleVoiceConversation. keeps_auto.
  - unfold silenceTimer. keeps_auto.
  - unfold autoStopTimer. keeps_auto.
  - unfold resetProcessingTimer. keeps_auto.
  - unfold noSpeechRestartTimer. keeps_auto.
  - unfold restartTimer. keeps_auto.
  - unfold voiceRestartTimer. keeps_auto.
  - keeps_auto.
Qed.

Lemma closures_startListening_resume (B : Browser) (cb : option Callback)
    (env : Captured) (granted throws : bool) :
  cap_isListening env = false ->
  keeps closuresSawNoListening (startListening_resume B cb env granted throws).
Proof.
  intros He. unfold startListening_resume.
  facts closures_primitives. facts closures_helpers.
  pose proof (closures_newSpeechRecognition env He). keeps_auto.
Qed.

Lemma closures_recognizer_events (B : Browser) (r : RecId) :
  keeps closuresSawNoListening (onstart B r)
  /\ (forall event, keeps closuresSawNoListening (onresult B r event))
  /\ keeps closuresSawNoListening (onend r)
  /\ (forall error, keeps closuresSawNoListening (onerror B r error)).
Proof.
  facts closures_primitives. facts closures_helpers.
  split; [|split; [|split]].
  - unfold onstart. keeps_auto.
  - intros event. unfold onresult, onresult_afterLoop. keeps_auto.
  - unfold onend. keeps_auto.
  - intros error. unfold onerror. keeps_auto.
Qed.

Lemma closures_settled_calls (k : Continuation) :
  (forall data, keeps closuresSawNoListening (runResolved k data))
  /\ (forall error, keeps closuresSawNoListening (runRejected k error)).
Proof.
  facts closures_primitives. facts closures_helpers.
  split; intros x; destruct k; cbn [runResolved runRejected];
    unfold handleVoiceConversation_resolved, handleVoiceConversation_rejected,
      handleSendMessage_resolved, handleSendMessage_rejected,
      handleResetChat_resolved, handleResetChat_rejected, voiceTurnSpoken;
    keeps_auto.
Qed.

Lemma closures_controls :
  keeps closuresSawNoListening handleVoiceToggle
  /\ keeps closuresSawNoListening handleResetChat
  /\ keeps closuresSawNoListening handleSendMessage
  /\ keeps closuresSawNoListening handleManualVoiceInput
  /\ (forall m, keeps closuresSawNoListening (handleSpeakMessage m))
  /\ (forall f, keeps closuresSawNoListening (handleFileChange f)).
Proof.
  facts closures_primitives. facts closures_helpers.
  repeat match goal with |- _ /\ _ => split end;
    try (lazymatch goal with |- forall _, _ => intro end);
    unfold handleVoiceToggle, handleResetChat, handleSendMessage,
      handleManualVoiceInput, handleSpeakMessage, handleFileChange;
    keeps_auto.
Qed.

(** Rendering rebuilds the closure only when [isSupported] changed, which
    it has not. *)
Lemma closures_renderPass : keeps closuresSawNoListening renderPass.
Proof.
  intros w [H1 [H2 [H3 H4]]]. unfold closuresSawNoListening.
  break_worlds. unfold renderPass. unfold_handlers.
  rewrite Bool.eqb_reflx. cbn [negb].
  repeat (case_step; unfold_handlers); repeat split; assumption.
Qed.

Lemma closures_render : keeps closuresSawNoListening render.
Proof. unfold render. apply keeps_bind; intros; apply closures_renderPass. Qed.

Lemma find_In {A} (g : A -> bool) (l : list A) (x : A) :
  find g l = Some x -> In x l.
Proof. intros H. now apply find_some in H. Qed.

Lemma closures_handlerOf (B : Browser) (w : World) (e : Event) (h : M unit) :
  closuresSawNoListening w -> handlerOf B w e = Some h ->
  keeps closuresSawNoListening h.
Proof.
  intros J He.
  facts closures_primitives. facts closures_helpers.
  destruct (closures_controls) as [C1 [C2 [C3 [C4 [C5 C6]]]]].
  destruct e; cbn [handlerOf] in He.
  - destruct (0 <=? ms); [|discriminate]. injection He as <-. keeps_auto.
  - destruct (findTimer id w) as [t|]; [|discriminate].
    destruct (t_due t <=? now (rt w)); [|discriminate]. injection He as <-.
    pose proof (closures_timers (t_action t)). keeps_auto.
  - destruct (findProbe p w) as [x|] eqn:Hf; [|discriminate]. injection He as <-.
    assert (Hx : cap_isListening (probe_env x) = false).
    { destruct J as [_ [_ [J3 _]]]. rewrite Forall_forall in J3.
      apply J3. exact (find_In _ _ _ Hf). }
    pose proof (closures_startListening_resume B (probe_onSpeechEnd x)
                  (probe_env x) (checkMicrophonePermission answer) startThrows Hx).
    keeps_auto.
  - destruct (lookupRec r (recognizers (rt w))) as [x|]; [|discriminate].
    destruct (recDelivers (rec_status x) false); [|discriminate].
    injection He as <-. apply (closures_recognizer_events B r).
  - destruct (lookupRec r (recognizers (rt w))) as [x|]; [|discriminate].
    destruct (recDelivers (rec_status x) true); [|discriminate].
    injection He as <-. apply (closures_recognizer_events B r).
  - destruct (lookupRec r (recognizers (rt w))) as [x|]; [|discriminate].
    destruct (recDelivers (rec_status x) false); [|discriminate].
    injection He as <-.
    pose proof (proj1 (proj2 (proj2 (closures_recognizer_events B r)))).
    keeps_auto.
  - destruct (lookupRec r (recognizers (rt w))) as [x|]; [|discriminate].
    destruct (recDelivers (rec_status x) false); [|discriminate].
    injection He as <-. apply (closures_recognizer_events B r).
  - destruct (findCall c w) as [x|]; [|discriminate]. injection He as <-.
    pose proof (proj1 (closures_settled_calls (call_k x)) data). keeps_auto.
  - destruct (findCall c w) as [x|]; [|discriminate]. injection He as <-.
    pose proof (proj2 (closures_settled_calls (call_k x)) error). keeps_auto.
  - destruct (utterance (rt w)) as [[t cb]|]; [|discriminate]. injection He as <-.
    unfold playbackEnded.
    destruct cb as [[]|]; cbn [runSpeakDone]; unfold voiceTurnSpoken; keeps_auto.
  - injection He as <-. exact C1.
  - injection He as <-. exact C2.
  - injection He as <-. exact C3.
  - injection He as <-. exact C4.
  - injection He as <-. keeps_auto.
  - injection He as <-. apply C6.
  - injection He as <-. keeps_auto.
  - injection He as <-. keeps_auto.
  - injection He as <-. apply C5.
Qed.

Lemma closures_step (B : Browser) (e : Event) (w w' : World) :
  closuresSawNoListening w -> step B e w = Some w' -> closuresSawNoListening w'.
Proof.
  intros J Hs. unfold step in Hs.
  destruct (offered B w e); [|discriminate].
  destruct (handlerOf B w e) as [h|] eqn:Hh; [|discriminate].
  injection Hs as <-. rewrite exec_bind.
  apply (keeps_exec _ _ _ closures_render).
  exact (keeps_exec _ _ _ (closures_handlerOf B w e h J Hh) J).
Qed.

Lemma closures_run (B : Browser) (es : list Event) (w w' : World) :
  closuresSawNoListening w -> run B es w = Some w' -> closuresSawNoListening w'.
Proof.
  revert w. induction es as [|e es IH]; cbn [run]; intros w J Hr.
  - now injection Hr as <-.
  - destruct (step B e w) as [w1|] eqn:Hs; [|discriminate].
    exact (IH w1 (closures_step B e w w1 J Hs) Hr).
Qed.

Lemma closures_mounted (B : Browser) (t0 : Z) :
  closuresSawNoListening (mounted B t0).
Proof.
  unfold closuresSawNoListening, mounted. destruct B as [m [] s]; vm_compute;
    repeat split; constructor.
Qed.

Lemma closures_reachable (B : Browser) (t0 : Z) (w : World) :
  reachable B t0 w -> closuresSawNoListening w.
Proof. intros [es Hr]. exact (closures_run B es _ w (closures_mounted B t0) Hr). Qed.

(* ------------------------------------------------------------------ *)
(** ** The auto-stop timer on mobile *)
(* ------------------------------------------------------------------ *)

(** C6. The auto-stop timer that [onstart] arms on a phone in voice mode
    tests [recognitionRef.current && isListening], where [isListening] is
    the variable of the [startListening] closure.  In every world the page
    can reach, that variable is false for every recognizer, so when the
    timer runs it changes nothing: the recognizer is not stopped. *)
Theorem autoStop_timer_never_stops
    (B : Browser) (t0 : Z) (w : World) (r : RecId) :
  reachable B t0 w ->
  (forall x, lookupRec r (recognizers (rt w)) = Some x ->
             cap_isListening (rec_env x) = false)
  /\ exec (autoStopTimer r) w = w.
Proof.
  intros Hr. apply closures_reachable in Hr. destruct Hr as [_ [_ [_ H4]]].
  assert (Hx : forall x, lookupRec r (recognizers (rt w)) = Some x ->
                         cap_isListening (rec_env x) = false).
  { intros x Hl. rewrite Forall_forall in H4.
    assert (Hin : exists k, In (k, x) (recognizers (rt w))).
    { clear H4. induction (recognizers (rt w)) as [|[k v] l IH]; cbn in Hl;
        [discriminate|].
      destruct (k =? r)%nat.
      - injection Hl as ->. exists k. now left.
      - destruct (IH Hl) as [k' Hk']. exists k'. now right. }
    destruct Hin as [k Hk]. exact (H4 (k, x) Hk). }
  split; [exact Hx|].
  unfold exec, autoStopTimer, bind, gets.
  destruct (lookupRec r (recognizers (rt w))) as [x|] eqn:Hl; [|reflexivity].
  rewrite (Hx x eq_refl), andb_false_r. reflexivity.
Qed.

(** On a phone in voice mode the recognizer starts with continuous capture
    off and the 10 s timer armed; when that timer runs with no result
    received, the recognizer is still started and the page still
    listening. *)
Lemma autoStop_timer_never_stops_witness :
  let w := after phone phoneListening in
  let w' := after phone (phoneListening ++ [EvAdvance 10000; EvTimer 1%nat]) in
  reachable phone 0 w
  /\ happens phone (phoneListening ++ [EvAdvance 10000; EvTimer 1%nat])
  /\ exec (autoStopTimer 0%nat) w = w
  /\ isVoiceMode (app w) = true /\ isListening (hook w) = true
  /\ List.map (fun x => rec_continuous (snd x)) (recognizers (rt w)) = [false]
  /\ List.map (fun t => (t_delay t, t_action t)) (timers (rt w))
     = [(10000, TaAutoStop 0%nat)]
  /\ now (rt w') = now (rt w) + 10000
  /\ timers (rt w') = []
  /\ List.map (fun x => rec_status (snd x)) (recognizers (rt w')) = [RsStarted]
  /\ isListening (hook w') = true.
Proof.
  cbv zeta.
  assert (Hr : reachable phone 0 (after phone phoneListening))
    by (exists phoneListening; vm_compute; reflexivity).
  split; [exact Hr|]. split; [vm_compute; reflexivity|].
  split; [exact (proj2 (autoStop_timer_never_stops phone 0 _ 0%nat Hr))|].
  concrete.
Defined.

(* ------------------------------------------------------------------ *)
(** ** Leaving voice mode *)
(* ------------------------------------------------------------------ *)

(** What the exit branch of [handleVoiceToggle] does at once: recognition
    is aborted, playback stopped and the turn state cleared; no call is
    issued or withdrawn. *)
Lemma handleVoiceToggle_exit (w : World) :
  isVoiceMode (app w) = true ->
  let w' := exec handleVoiceToggle w in
  isVoiceMode (app w') = false /\ voiceModeRef (app w') = false
  /\ isProcessingVoiceRef (app w') = false
  /\ currentUserSpeech (app w') = [] /\ currentBotSpeech (app w') = []
  /\ isListening (hook w') = false /\ recognitionRef (hook w') = None
  /\ isVoiceModeRef (hook w') = false /\ onSpeechEndRef (hook w') = None
  /\ utterance (rt w') = None
  /\ calls (rt w') = calls (rt w).
Proof.
  intros Hv. cbv zeta. handler; repeat split; reflexivity.
Qed.

(** Once the guard is clear and the text is long enough,
    [handleVoiceConversation] issues the call of the turn; it does not
    look at the voice-mode flag. *)
Lemma handleVoiceConversation_submits (w : World) (text : JsString) :
  isProcessingVoiceRef (app w) = false -> 2 <= len (trim text) ->
  let w' := exec (handleVoiceConversation text) w in
  isProcessingVoiceRef (app w') = true
  /\ utterance (rt w') = None
  /\ calls (rt w')
     = calls (rt w) ++ [mkCall (nextCall (rt w)) (voiceRequest text) KVoice].
Proof.
  intros Hp Hl. cbv zeta. unfold voiceRequest.
  assert (Hg : negb (truthy (trim text)) || (len (trim text) <? 2) = false).
  { apply orb_false_iff. split.
    - destruct (trim text); [cbn in Hl; lia | reflexivity].
    - apply Z.ltb_ge. exact Hl. }
  handler; try (rewrite Hg in *; discriminate); repeat split; reflexivity.
Qed.

(** Whatever the state of the loop, right after the exit the hand-over of
    an accepted text passes the guard and issues a call, with voice mode
    off. *)
Lemma handover_after_exit_submits (w : World) (text : JsString) :
  isVoiceMode (app w) = true -> 2 <= len (trim text) ->
  let exited := exec handleVoiceToggle w in
  let w' := exec (handleVoiceConversation text) exited in
  voiceModeRef (app w') = false
  /\ calls (rt w')
     = calls (rt w)
       ++ [mkCall (nextCall (rt w)) (voiceRequest text) KVoice].
Proof.
  intros Hv Hl. cbv zeta. unfold voiceRequest.
  assert (Hg : negb (truthy (trim text)) || (len (trim text) <? 2) = false).
  { apply orb_false_iff. split.
    - destruct (trim text); [cbn in Hl; lia | reflexivity].
    - apply Z.ltb_ge. exact Hl. }
  handler; try (rewrite Hg in *; discriminate); split; reflexivity.
Qed.

(** C2. The failing run.  "hello" has been accepted by the hook and its
    100 ms hand-over timer is pending when the user leaves voice mode.
    The exit aborts the recognizer and clears the turn state, but the
    hand-over timer is not one of the timers [cleanup] clears: it is still
    pending after the exit, and when it runs, with voice mode off, the
    component appends the user message and issues the remote call of the
    turn. *)
Theorem accepted_turn_survives_voice_exit :
  let heard := after desktop heardHello in
  let exited := after desktop exitedAfterHello in
  let later := after desktop (exitedAfterHello ++ [EvAdvance 100; EvTimer 2%nat]) in
  happens desktop (exitedAfterHello ++ [EvAdvance 100; EvTimer 2%nat])
  /\ isVoiceMode (app heard) = true /\ calls (rt heard) = []
  /\ isVoiceMode (app exited) = false /\ voiceModeRef (app exited) = false
  /\ isListening (hook exited) = false /\ recognitionRef (hook exited) = None
  /\ List.map (fun x => rec_status (snd x)) (recognizers (rt exited)) = [RsAborted]
  /\ utterance (rt exited) = None
  /\ currentUserSpeech (app exited) = [] /\ currentBotSpeech (app exited) = []
  /\ calls (rt exited) = []
  /\ List.map (fun t => (t_delay t, t_action t)) (timers (rt exited))
     = [(100, TaCallback HandleVoiceConversation (lit "hello"))]
  /\ isVoiceMode (app later) = false /\ voiceModeRef (app later) = false
  /\ List.map (fun c => (call_request c, call_k c)) (calls (rt later))
     = [(voiceRequest (lit "hello"), KVoice)]
  /\ List.map (fun m => (msg_type m, msg_message m)) (messages (app later))
     = [(user, lit "hello")]
  /\ isLoading (app later) = true.
Proof. cbv zeta. concrete. Qed.

(* ------------------------------------------------------------------ *)
(** ** One voice turn in flight *)
(* ------------------------------------------------------------------ *)

Lemma filter_comm {A} (f g : A -> bool) (l : list A) :
  filter f (filter g l) = filter g (filter f l).
Proof.
  induction l as [|x l IH]; cbn; [reflexivity|].
  destruct (f x) eqn:Hf, (g x) eqn:Hg; cbn; rewrite ?Hf, ?Hg, IH; reflexivity.
Qed.

Lemma filter_length_le {A} (f : A -> bool) (l : list A) :
  (List.length (filter f l) <= List.length l)%nat.
Proof.
  induction l as [|x l IH]; cbn; [lia|]. destruct (f x); cbn; lia.
Qed.

Lemma filter_nonempty {A} (f : A -> bool) (l : list A) :
  filter f l <> [] -> l <> [].
Proof. destruct l; cbn; congruence. Qed.

Lemma noVoiceCalls_oneTurn (w : World) : voiceCalls w = [] -> oneTurnInFlight w.
Proof.
  intros H. unfold oneTurnInFlight. rewrite H. split; [cbn; lia | congruence].
Qed.

Lemma oneTurn_guard_clear (w : World) :
  oneTurnInFlight w -> isProcessingVoiceRef (app w) = false -> voiceCalls w = [].
Proof.
  intros [_ H] Hp. destruct (voiceCalls w) as [|c l]; [reflexivity|].
  destruct H as [H _]; congruence.
Qed.

Lemma oneTurn_completion_pending (w : World) :
  oneTurnInFlight w -> completionPending w = true -> voiceCalls w = [].
Proof.
  intros [_ H] Hp. destruct (voiceCalls w) as [|c l]; [reflexivity|].
  destruct H as [_ H]; congruence.
Qed.

(** The primitive updates that read or write what the property is about. *)
Lemma oneTurn_stopSpeaking : keeps oneTurnInFlight stopSpeaking.
Proof.
  intros w [H1 H2]. destruct w as [a h []]. unfold oneTurnInFlight in *.
  cbn in *. split; [exact H1|]. intros Hn. split; [apply (H2 Hn) | reflexivity].
Qed.

Lemma oneTurn_speak_plain (text : JsString) :
  keeps oneTurnInFlight (speak text None).
Proof.
  intros w [H1 H2]. destruct w as [a h []]. unfold oneTurnInFlight in *.
  cbn in *. split; [exact H1|]. intros Hn. split; [apply (H2 Hn) | reflexivity].
Qed.

Lemma oneTurn_guard_set : keeps oneTurnInFlight (isProcessingVoiceRef_set true).
Proof.
  intros w [H1 H2]. destruct w as [[] h r]. unfold oneTurnInFlight in *.
  cbn in *. split; [exact H1|]. intros Hn. split; [reflexivity | apply (H2 Hn)].
Qed.

Lemma oneTurn_dropCall (c : CallId) : keeps oneTurnInFlight (dropCall c).
Proof.
  intros w [H1 H2]. destruct w as [a h []].
  unfold oneTurnInFlight, voiceCalls, completionPending in *. cbn in *.
  rewrite filter_comm. split.
  - etransitivity; [apply filter_length_le | exact H1].
  - intros Hn. apply H2. exact (filter_nonempty _ _ Hn).
Qed.

Lemma oneTurn_send_other (m mode sid : JsString)
    (atts : option (list ChatAttachment)) (reset : option bool)
    (k : Continuation) :
  k <> KVoice ->
  keeps oneTurnInFlight (sendChatMessage m mode sid atts reset k).
Proof.
  intros Hk w H. destruct w as [a h []].
  unfold oneTurnInFlight, voiceCalls, completionPending in *. cbn in *.
  rewrite !filter_app.
  destruct k; try congruence; cbn [filter isVoiceCall call_k];
    rewrite !app_nil_r; exact H.
Qed.

Lemma oneTurn_primitives :
  keeps oneTurnInFlight stopSpeaking
  /\ (forall text, keeps oneTurnInFlight (speak text None))
  /\ keeps oneTurnInFlight (isProcessingVoiceRef_set true)
  /\ (forall c, keeps oneTurnInFlight (dropCall c)).
Proof.
  repeat match goal with |- _ /\ _ => split end.
  - exact oneTurn_stopSpeaking.
  - exact oneTurn_speak_plain.
  - exact oneTurn_guard_set.
  - exact oneTurn_dropCall.
Qed.

Lemma oneTurn_resultLoop (rs : list SpeechResult) (acc : JsString * JsString * bool) :
  keeps oneTurnInFlight (resultLoop rs acc).
Proof.
  revert acc. induction rs as [|result rest IH]; intros [[i f] n]; cbn [resultLoop].
  - apply keeps_ret.
  - keeps_auto; apply IH.
Qed.

(** The hook never touches the guard, the calls or the speaker. *)
Lemma oneTurn_hook_helpers :
  keeps oneTurnInFlight cleanup
  /\ keeps oneTurnInFlight stopListening
  /\ keeps oneTurnInFlight resetTranscript
  /\ (forall text, keeps oneTurnInFlight (processVoiceResult text))
  /\ (forall cb, keeps oneTurnInFlight (startListening cb))
  /\ (forall cb, keeps oneTurnInFlight (restartListening cb))
  /\ (forall r, keeps oneTurnInFlight (clearAutoStop r))
  /\ (forall rs acc, keeps oneTurnInFlight (resultLoop rs acc)).
Proof.
  repeat match goal with |- _ /\ _ => split end;
    try (lazymatch goal with |- forall _, _ => intros end);
    try apply oneTurn_resultLoop;
    unfold stopListening, cleanup, resetTranscript, processVoiceResult,
      startListening, restartListening, clearAutoStop;
    keeps_auto.
Qed.


Lemma oneTurn_recognizer_events (B : Browser) (r : RecId) :
  keeps oneTurnInFlight (onstart B r)
  /\ (forall event, keeps oneTurnInFlight (onresult B r event))
  /\ keeps oneTurnInFlight (onend r)
  /\ (forall error, keeps oneTurnInFlight (onerror B r error))
  /\ (forall cb env granted throws,
      keeps oneTurnInFlight (startListening_resume B cb env granted throws)).
Proof.
  facts oneTurn_hook_helpers.
  repeat match goal with |- _ /\ _ => split end; intros;
    unfold onstart, onresult, onresult_afterLoop, onend, onerror,
      startListening_resume;
    keeps_auto.
Qed.

(** The component's entry point of a turn keeps the property: it passes
    its guard only when no voice call is outstanding, and then sets the
    guard, silences the speaker and issues exactly one call. *)
Lemma oneTurn_handleVoiceConversation (text : JsString) :
  keeps oneTurnInFlight (handleVoiceConversation text).
Proof.
  intros w H.
  destruct (isProcessingVoiceRef (app w)) eqn:Hp.
  - change (oneTurnInFlight (exec (handleVoiceConversation text) w)).
    now rewrite handleVoiceConversation_latched.
  - destruct (negb (truthy (trim text)) || (len (trim text) <? 2)) eqn:Hg.
    + assert (Hsame : snd (handleVoiceConversation text w)
                      = snd ((v <- gets (fun w => voiceModeRef (app w)) ;;
                              when v (restartListening HandleVoiceConversation)) w)).
      { unfold handleVoiceConversation, bind at 1, gets at 1.
        rewrite Hp, Hg. reflexivity. }
      rewrite Hsame.
      assert (Hk : keeps oneTurnInFlight
                     (v <- gets (fun w => voiceModeRef (app w)) ;;
                      when v (restartListening HandleVoiceConversation)))
        by (facts oneTurn_hook_helpers; keeps_auto).
      exact (Hk w H).
    + apply orb_false_iff in Hg. destruct Hg as [_ Hl]. apply Z.ltb_ge in Hl.
      pose proof (oneTurn_guard_clear w H Hp) as Hnone.
      destruct (handleVoiceConversation_submits w text Hp Hl) as [H1 [H2 H3]].
      change (oneTurnInFlight (exec (handleVoiceConversation text) w)).
      unfold oneTurnInFlight, voiceCalls, completionPending in *.
      rewrite H1, H2, H3, filter_app, Hnone. cbn. split; [lia | auto].
Qed.

Lemma oneTurn_timers (a : TimerAction) : keeps oneTurnInFlight (runTimer a).
Proof.
  facts oneTurn_primitives. facts oneTurn_hook_helpers.
  destruct a; cbn [runTimer].
  - destruct cb. cbn [runCallback]. apply oneTurn_handleVoiceConversation.
  - unfold silenceTimer. keeps_auto.
  - unfold autoStopTimer. keeps_auto.
  - unfold resetProcessingTimer. keeps_auto.
  - unfold noSpeechRestartTimer. keeps_auto.
  - unfold restartTimer. keeps_auto.
  - unfold voiceRestartTimer. keeps_auto.
  - keeps_auto.
Qed.

(** With no voice call outstanding, none appears when a voice call
    settles or when the playback of a reply completes. *)
Lemma noVoiceCalls_settled :
  (forall data, keeps (fun w => voiceCalls w = [])
                  (handleVoiceConversation_resolved data))
  /\ (forall error, keeps (fun w => voiceCalls w = [])
                      (handleVoiceConversation_rejected error))
  /\ keeps (fun w => voiceCalls w = []) voiceTurnSpoken
  /\ keeps (fun w => voiceCalls w = []) stopSpeaking.
Proof.
  repeat match goal with |- _ /\ _ => split end; intros;
    unfold handleVoiceConversation_resolved, handleVoiceConversation_rejected,
      voiceTurnSpoken;
    keeps_auto.
Qed.

Lemma oneTurn_other_calls (k : Continuation) :
  k <> KVoice ->
  (forall data, keeps oneTurnInFlight (runResolved k data))
  /\ (forall error, keeps oneTurnInFlight (runRejected k error)).
Proof.
  intros Hk. facts oneTurn_primitives.
  split; intros x; destruct k; try congruence;
    cbn [runResolved runRejected];
    unfold handleSendMessage_resolved, handleSendMessage_rejected,
      handleResetChat_resolved, handleResetChat_rejected;
    keeps_auto.
Qed.

Lemma oneTurn_controls :
  keeps oneTurnInFlight handleSendMessage
  /\ keeps oneTurnInFlight handleManualVoiceInput
  /\ (forall m, keeps oneTurnInFlight (handleSpeakMessage m))
  /\ (forall f, keeps oneTurnInFlight (handleFileChange f)).
Proof.
  assert (Hs : forall m mode sid atts reset a,
             keeps oneTurnInFlight (sendChatMessage m mode sid atts reset (KSend a))).
  { intros. apply oneTurn_send_other. discriminate. }
  facts oneTurn_primitives. facts oneTurn_hook_helpers.
  repeat match goal with |- _ /\ _ => split end;
    try (lazymatch goal with |- forall _, _ => intro end);
    unfold handleSendMessage, handleManualVoiceInput, handleSpeakMessage,
      handleFileChange;
    keeps_auto; apply Hs.
Qed.

Lemma oneTurn_render : keeps oneTurnInFlight render.
Proof.
  facts oneTurn_hook_helpers.
  unfold render, renderPass, effect_voiceModeRef, effect_currentUserSpeech,
    effect_manualMicrophone.
  keeps_auto.
Qed.

(** Dropping the settled voice call leaves no voice call outstanding. *)
Lemma voice_call_settled (w : World) (c : CallId) (x : PendingCall) :
  oneTurnInFlight w -> findCall c w = Some x -> call_k x = KVoice ->
  voiceCalls (exec (dropCall c) w) = [].
Proof.
  intros [Hlen _] Hf Hk. unfold findCall in Hf.
  apply find_some in Hf. destruct Hf as [Hin Hid].
  assert (Hv : In x (voiceCalls w)).
  { unfold voiceCalls. apply filter_In. split; [exact Hin|].
    unfold isVoiceCall. now rewrite Hk. }
  destruct w as [a h []]. unfold voiceCalls in *. cbn in *.
  rewrite filter_comm.
  destruct (filter isVoiceCall calls0) as [|y l]; [reflexivity|].
  destruct l; [|cbn in Hlen; lia].
  destruct Hv as [-> | []]. cbn. now rewrite Hid.
Qed.

Lemma oneTurn_handlerOf (B : Browser) (w : World) (e : Event) (h : M unit) :
  oneTurnInFlight w -> releasesGuard e = false -> handlerOf B w e = Some h ->
  oneTurnInFlight (exec h w).
Proof.
  intros J Hrel He.
  facts oneTurn_primitives. facts oneTurn_hook_helpers.
  destruct (oneTurn_controls) as [C1 [C2 [C3 C4]]].
  destruct (oneTurn_recognizer_events B 0%nat) as [_ [_ [_ [_ R5]]]].
  destruct e; cbn [handlerOf] in He; try discriminate Hrel.
  - destruct (0 <=? ms); [|discriminate]. injection He as <-.
    revert w J. change (keeps oneTurnInFlight
                          (updRt (fun r => with_now (now r + ms) r))).
    keeps_auto.
  - destruct (findTimer id w) as [t|]; [|discriminate].
    destruct (t_due t <=? now (rt w)); [|discriminate]. injection He as <-.
    pose proof (oneTurn_timers (t_action t)).
    revert w J. change (keeps oneTurnInFlight
                          (clearTimeout id ;; runTimer (t_action t))).
    keeps_auto.
  - destruct (findProbe p w) as [x|]; [|discriminate]. injection He as <-.
    pose proof (R5 (probe_onSpeechEnd x) (probe_env x)
                  (checkMicrophonePermission answer) startThrows).
    revert w J.
    change (keeps oneTurnInFlight
              (dropProbe p ;;
               startListening_resume B (probe_onSpeechEnd x) (probe_env x)
                 (checkMicrophonePermission answer) startThrows)).
    keeps_auto.
  - destruct (lookupRec r (recognizers (rt w))) as [x|]; [|discriminate].
    destruct (recDelivers (rec_status x) false); [|discriminate].
    injection He as <-. now apply (oneTurn_recognizer_events B r).
  - destruct (lookupRec r (recognizers (rt w))) as [x|]; [|discriminate].
    destruct (recDelivers (rec_status x) true); [|discriminate].
    injection He as <-. now apply (oneTurn_recognizer_events B r).
  - destruct (lookupRec r (recognizers (rt w))) as [x|]; [|discriminate].
    destruct (recDelivers (rec_status x) false); [|discriminate].
    injection He as <-.
    pose proof (proj1 (proj2 (proj2 (oneTurn_recognizer_events B r)))).
    revert w J.
    change (keeps oneTurnInFlight (updRec r (with_status RsEnded) ;; onend r)).
    keeps_auto.
  - destruct (lookupRec r (recognizers (rt w))) as [x|]; [|discriminate].
    destruct (recDelivers (rec_status x) false); [|discriminate].
    injection He as <-. now apply (oneTurn_recognizer_events B r).
  - destruct (findCall c w) as [x|] eqn:Hf; [|discriminate]. injection He as <-.
    rewrite exec_bind.
    destruct (call_k x) eqn:Hk.
    + apply noVoiceCalls_oneTurn. cbn [runResolved].
      apply (keeps_exec _ _ _ (proj1 noVoiceCalls_settled data)).
      exact (voice_call_settled w c x J Hf Hk).
    + apply (keeps_exec _ _ _
               (proj1 (oneTurn_other_calls (KSend autoSpeak0) ltac:(discriminate))
                  data)).
      exact (oneTurn_dropCall c w J).
    + apply (keeps_exec _ _ _
               (proj1 (oneTurn_other_calls KReset ltac:(discriminate)) data)).
      exact (oneTurn_dropCall c w J).
  - destruct (findCall c w) as [x|] eqn:Hf; [|discriminate]. injection He as <-.
    rewrite exec_bind.
    destruct (call_k x) eqn:Hk.
    + apply noVoiceCalls_oneTurn. cbn [runRejected].
      apply (keeps_exec _ _ _ (proj1 (proj2 noVoiceCalls_settled) error)).
      exact (voice_call_settled w c x J Hf Hk).
    + apply (keeps_exec _ _ _
               (proj2 (oneTurn_other_calls (KSend autoSpeak0) ltac:(discriminate))
                  error)).
      exact (oneTurn_dropCall c w J).
    + apply (keeps_exec _ _ _
               (proj2 (oneTurn_other_calls KReset ltac:(discriminate)) error)).
      exact (oneTurn_dropCall c w J).
  - destruct (utterance (rt w)) as [[t cb]|] eqn:Hu; [|discriminate].
    injection He as <-. unfold playbackEnded. rewrite exec_bind.
    destruct cb as [[]|]; cbn [runSpeakDone].
    + apply noVoiceCalls_oneTurn.
      apply (keeps_exec _ _ _ (proj1 (proj2 (proj2 noVoiceCalls_settled)))).
      apply (keeps_exec _ _ _ (proj2 (proj2 (proj2 noVoiceCalls_settled)))).
      apply (oneTurn_completion_pending w J).
      unfold completionPending. now rewrite Hu.
    + exact (oneTurn_stopSpeaking w J).
  - injection He as <-. exact (C1 w J).
  - injection He as <-. exact (C2 w J).
  - injection He as <-. revert w J.
    change (keeps oneTurnInFlight (setInput (fun _ => value))). keeps_auto.
  - injection He as <-. exact (C4 file w J).
  - injection He as <-. revert w J.
    change (keeps oneTurnInFlight (setAttachment None)). keeps_auto.
  - injection He as <-. revert w J.
    change (keeps oneTurnInFlight
              (a <- gets (fun w => autoSpeak (app w)) ;; setAutoSpeak (negb a))).
    keeps_auto.
  - injection He as <-. exact (C3 message w J).
Qed.

Lemma oneTurn_step (B : Browser) (e : Event) (w w' : World) :
  oneTurnInFlight w -> releasesGuard e = false -> step B e w = Some w' ->
  oneTurnInFlight w'.
Proof.
  intros J Hrel Hs. unfold step in Hs.
  destruct (offered B w e); [|discriminate].
  destruct (handlerOf B w e) as [h|] eqn:Hh; [|discriminate].
  injection Hs as <-. rewrite exec_bind.
  apply (keeps_exec _ _ _ oneTurn_render).
  exact (oneTurn_handlerOf B w e h J Hrel Hh).
Qed.

Lemma oneTurn_run (B : Browser) (es : list Event) (w w' : World) :
  oneTurnInFlight w -> existsb releasesGuard es = false ->
  run B es w = Some w' -> oneTurnInFlight w'.
Proof.
  revert w. induction es as [|e es IH]; cbn [run existsb]; intros w J Hrel Hr.
  - now injection Hr as <-.
  - apply orb_false_iff in Hrel. destruct Hrel as [He Hes].
    destruct (step B e w) as [w1|] eqn:Hs; [|discriminate].
    exact (IH w1 (oneTurn_step B e w w1 J He Hs) Hes Hr).
Qed.

(** *** The latch of the recognition hook *)

Lemma processVoiceResult_latched (w : World) (text : JsString) :
  isProcessingRef (hook w) = true ->
  exec (processVoiceResult text) w = w /\ exec (silenceTimer text) w = w.
Proof. intros H. split; handler; reflexivity. Qed.

Lemma clearAutoStop_frame (w : World) (r : RecId) :
  let w' := exec (clearAutoStop r) w in
  app w' = app w /\ hook w' = hook w /\ calls (rt w') = calls (rt w).
Proof. cbv zeta. handler; repeat split; reflexivity. Qed.

Lemma latchedWith_resultLoop (A : AppState) (T : list Timer)
    (C : list PendingCall) (rs : list SpeechResult)
    (acc : JsString * JsString * bool) :
  keeps (latchedWith A T C) (resultLoop rs acc).
Proof.
  revert acc. induction rs as [|result rest IH]; intros [[i f] n]; cbn [resultLoop].
  - apply keeps_ret.
  - keeps_auto; apply IH.
Qed.

Lemma latchedWith_afterLoop (A : AppState) (T : list Timer)
    (C : list PendingCall) (B : Browser) (acc : JsString * JsString * bool) :
  keeps (latchedWith A T C) (onresult_afterLoop B acc).
Proof.
  intros v [Hp [Ha [Ht Hc]]]. destruct acc as [[i f] n].
  unfold latchedWith. destruct v as [a [] []]. cbn in Hp, Ha, Ht, Hc. subst.
  unfold onresult_afterLoop. unfold_handlers.
  repeat (case_step; unfold_handlers); try excluded; repeat split; reflexivity.
Qed.

(** While the hook's latch is set, a result event arms no timer and
    issues no call: apart from disarming the auto-stop timer it only
    updates the displayed transcript. *)
Lemma onresult_latched (B : Browser) (w : World) (r : RecId)
    (event : SpeechRecognitionEvent) :
  isProcessingRef (hook w) = true ->
  let w' := exec (onresult B r event) w in
  timers (rt w') = timers (rt (exec (clearAutoStop r) w))
  /\ calls (rt w') = calls (rt w)
  /\ app w' = app w.
Proof.
  intros Hp. cbv zeta.
  destruct (clearAutoStop_frame w r) as [Ha [Hh Hc]].
  set (w0 := exec (clearAutoStop r) w) in *.
  assert (H0 : latchedWith (app w) (timers (rt w0)) (calls (rt w)) w0).
  { unfold latchedWith. rewrite Hh. auto. }
  assert (Hk : keeps (latchedWith (app w) (timers (rt w0)) (calls (rt w)))
                 (acc <- resultLoop (skipn (resultIndex event) (results event))
                           ([], [], false) ;;
                  onresult_afterLoop B acc)).
  { apply keeps_bind; [apply latchedWith_resultLoop|].
    intros acc. apply latchedWith_afterLoop. }
  unfold onresult. rewrite exec_bind. fold w0.
  destruct (Hk w0 H0) as [_ [Ha' [Ht' Hc']]].
  unfold exec. rewrite Ha', Ht', Hc'. auto.
Qed.

(** What the two latches do.  [handleVoiceConversation] checks the
    component's processing guard first: while it is set every transcript
    handed to it is dropped and the world does not change; when it is
    clear and the text is long enough, the guard is set before exactly one
    call is issued.  The hook has a latch of its own: while it is set,
    [processVoiceResult] and the silence timer drop their transcript, and
    a result event arms no timer and issues no call.  From a world with
    at most one voice turn in flight, a run without a voice toggle and
    without a reset keeps it so. *)
Lemma guard_allows_one_turn (B : Browser) (w : World) :
  (forall text, isProcessingVoiceRef (app w) = true ->
                exec (handleVoiceConversation text) w = w)
  /\ (forall text,
      isProcessingVoiceRef (app w) = false -> 2 <= len (trim text) ->
      let w' := exec (handleVoiceConversation text) w in
      isProcessingVoiceRef (app w') = true
      /\ calls (rt w')
         = calls (rt w) ++ [mkCall (nextCall (rt w)) (voiceRequest text) KVoice])
  /\ (isProcessingRef (hook w) = true ->
      (forall text, exec (processVoiceResult text) w = w
                    /\ exec (silenceTimer text) w = w)
      /\ (forall r event,
          let w' := exec (onresult B r event) w in
          timers (rt w') = timers (rt (exec (clearAutoStop r) w))
          /\ calls (rt w') = calls (rt w)))
  /\ (forall es w',
      oneTurnInFlight w -> existsb releasesGuard es = false ->
      run B es w = Some w' ->
      (List.length (voiceCalls w') <= 1)%nat
      /\ (voiceCalls w' <> [] -> isProcessingVoiceRef (app w') = true)).
Proof.
  split; [|split; [|split]].
  - intros text Hp. now apply handleVoiceConversation_latched.
  - intros text Hp Hl. cbv zeta.
    destruct (handleVoiceConversation_submits w text Hp Hl) as [H1 [_ H3]].
    split; assumption.
  - intros Hp. split.
    + intros text. now apply processVoiceResult_latched.
    + intros r event. cbv zeta.
      destruct (onresult_latched B w r event Hp) as [H1 [H2 _]].
      split; assumption.
  - intros es w' J Hrel Hr.
    destruct (oneTurn_run B es w w' J Hrel Hr) as [H1 H2].
    split; [exact H1|]. intros Hn. apply (H2 Hn).
Qed.

(** C1. The failing run.  While the call of the turn "hello" is
    outstanding and the component's guard is set, the hook, whose own
    latch was released when the component took "hello", accepts a late
    final segment, "world", and arms its hand-over timer.  The user
    leaves voice mode: [handleVoiceToggle] clears the guard although the
    first call is still outstanding, and the hand-over timer, which
    nothing cancels, then issues a second voice call.  When the first
    call has been answered the user enters voice mode again, which
    clears the guard once more, and speaks: the guard is clear, so a
    third call is issued, and in voice mode two voice calls are
    outstanding at once. *)
Theorem two_voice_calls_outstanding :
  let accepted := after desktop lateSegmentAccepted in
  let exited := after desktop secondCallAfterExit in
  let w := after desktop twoTurnsInVoiceMode in
  happens desktop twoTurnsInVoiceMode
  /\ isProcessingVoiceRef (app accepted) = true
  /\ List.map call_request (voiceCalls accepted) = [voiceRequest (lit "hello")]
  /\ List.map t_action (timers (rt accepted))
     = [TaCallback HandleVoiceConversation (lit "world")]
  /\ isVoiceMode (app exited) = false
  /\ List.map call_request (voiceCalls exited)
     = [voiceRequest (lit "hello"); voiceRequest (lit "world")]
  /\ isVoiceMode (app w) = true /\ voiceModeRef (app w) = true
  /\ List.map call_request (voiceCalls w)
     = [voiceRequest (lit "world"); voiceRequest (lit "again")]
  /\ List.length (voiceCalls w) = 2%nat.
Proof. cbv zeta. concrete. Qed.

(* ------------------------------------------------------------------ *)
(** ** Rendering reaches its fixed point *)
(* ------------------------------------------------------------------ *)

Lemma renderPass_seen (w : World) :
  depsSeen (rt (exec renderPass w)) = currentDeps w.
Proof.
  break_worlds. unfold renderPass. unfold_handlers.
  repeat (case_step; unfold_handlers); reflexivity.
Qed.

(** A pass either leaves the dependencies as they are or empties the
    transcript. *)
Lemma renderPass_deps (w : World) :
  currentDeps (exec renderPass w) = currentDeps w
  \/ transcript (hook (exec renderPass w)) = [].
Proof.
  break_worlds. unfold renderPass. unfold_handlers.
  repeat (case_step; unfold_handlers); auto.
Qed.

(** A pass that starts with an empty transcript, or right after a pass
    that changed no dependency, changes no dependency. *)
Lemma renderPass_quiet_deps (w : World) :
  transcript (hook w) = [] \/ depsSeen (rt w) = currentDeps w ->
  currentDeps (exec renderPass w) = currentDeps w.
Proof.
  intros [Ht | Hs].
  - break_worlds. unfold renderPass. unfold_handlers.
    repeat (case_step; unfold_handlers); try reflexivity; excluded.
  - destruct w as [[] [] []]. unfold currentDeps in Hs. cbn in Hs. subst.
    unfold renderPass. unfold_handlers.
    rewrite str_eqb_refl, !Bool.eqb_reflx. cbn [negb orb].
    repeat (case_step; unfold_handlers); reflexivity.
Qed.

(** After the two passes of [render] the effects have seen the current
    values of their dependencies: a further pass would run none of
    them. *)
Lemma render_reaches_fixed_point (w : World) : settled (exec render w).
Proof.
  unfold settled, render. rewrite exec_bind.
  rewrite renderPass_seen. symmetry. apply renderPass_quiet_deps.
  destruct (renderPass_deps w) as [Hd | Ht]; [right | left; exact Ht].
  rewrite renderPass_seen. symmetry. exact Hd.
Qed.
(* ------------------------------------------------------------------ *)
(** ** Invariants of the event loop *)
(* ------------------------------------------------------------------ *)

(** A property that every handler keeps, when it runs in a world that has
    the property and on an event the page offers, and that rendering
    keeps, holds in every world the page can reach. *)
Section Invariant.

Variable B : Browser.
Variable P : World -> Prop.

Hypothesis P_handler : forall w e h,
  P w -> offered B w e = true -> handlerOf B w e = Some h -> P (exec h w).
Hypothesis P_render : keeps P renderPass.

Lemma invariant_step (e : Event) (w w' : World) :
  P w -> step B e w = Some w' -> P w'.
Proof.
  intros J Hs. unfold step in Hs.
  destruct (offered B w e) eqn:Ho; [|discriminate].
  destruct (handlerOf B w e) as [h|] eqn:Hh; [|discriminate].
  injection Hs as <-. rewrite exec_bind. unfold render. rewrite exec_bind.
  apply P_render. apply P_render. exact (P_handler w e h J Ho Hh).
Qed.

Lemma invariant_run (es : list Event) (w w' : World) :
  P w -> run B es w = Some w' -> P w'.
Proof.
  revert w. induction es as [|e es IH]; cbn [run]; intros w J Hr.
  - now injection Hr as <-.
  - destruct (step B e w) as [w1|] eqn:Hs; [|discriminate].
    exact (IH w1 (invariant_step e w w1 J Hs) Hr).
Qed.

Lemma invariant_reachable (t0 : Z) (w : World) :
  P (mounted B t0) -> reachable B t0 w -> P w.
Proof. intros J [es Hr]. exact (invariant_run es _ w J Hr). Qed.

End Invariant.

(** The loop of [onresult] writes one cell only. *)
Lemma keeps_resultLoop (P : World -> Prop) :
  (forall v, keeps P (finalTranscriptRef_set v)) ->
  forall rs acc, keeps P (resultLoop rs acc).
Proof.
  intros Hf rs. induction rs as [|result rest IH]; intros [[i f] n];
    cbn [resultLoop].
  - apply keeps_ret.
  - keeps_auto; apply IH.
Qed.

(** The handler an event runs, read off [handlerOf]. *)
Ltac handlerOf_inv He :=
  cbn [handlerOf] in He;
  repeat match type of He with
         | Some _ = Some _ => injection He as <-
         | None = Some _ => discriminate He
         | (if ?b then _ else _) = Some _ => destruct b eqn:?
         | match ?x with _ => _ end = Some _ => destruct x eqn:?
         end.

(** The handlers, as opposed to the updates of single cells. *)
Ltac is_composite h :=
  lazymatch h with
  | cleanup => idtac
  | processVoiceResult => idtac
  | stopListening => idtac
  | resetTranscript => idtac
  | startListening => idtac
  | restartListening => idtac
  | restartTimer => idtac
  | silenceTimer => idtac
  | resetProcessingTimer => idtac
  | noSpeechRestartTimer => idtac
  | autoStopTimer => idtac
  | clearAutoStop => idtac
  | startListening_resume => idtac
  | onstart => idtac
  | onresult => idtac
  | onresult_afterLoop => idtac
  | onend => idtac
  | onerror => idtac
  | hookMountEffect => idtac
  | handleVoiceConversation => idtac
  | voiceRestartTimer => idtac
  | voiceTurnSpoken => idtac
  | handleVoiceConversation_resolved => idtac
  | handleVoiceConversation_rejected => idtac
  | handleResetChat => idtac
  | handleResetChat_resolved => idtac
  | handleResetChat_rejected => idtac
  | handleSendMessage => idtac
  | handleSendMessage_resolved => idtac
  | handleSendMessage_rejected => idtac
  | handleVoiceToggle => idtac
  | handleSpeakMessage => idtac
  | handleManualVoiceInput => idtac
  | handleFileChange => idtac
  | effect_voiceModeRef => idtac
  | effect_currentUserSpeech => idtac
  | effect_manualMicrophone => idtac
  | renderPass => idtac
  | render => idtac
  | runCallback => idtac
  | runSpeakDone => idtac
  | runTimer => idtac
  | runResolved => idtac
  | runRejected => idtac
  | playbackEnded => idtac
  | recognition_start => idtac
  | recognition_stop => idtac
  | recognition_abort => idtac
  end.

Ltac head_of c :=
  lazymatch c with
  | ?f _ => head_of f
  | _ => c
  end.

(** Unfold the handler a computation starts with. *)
Ltac unfold_head :=
  lazymatch goal with
  | |- keeps _ ?c =>
      let h := head_of c in
      is_composite h; unfold h; cbv beta zeta
  end.

(** A handler keeps a property when the facts at hand say so, or when
    each of its parts does; an update of a cell the property does not
    read keeps it. *)
Ltac kept_step :=
  first
    [ solve [auto]
    | lazymatch goal with
      | |- keeps _ (bind _ _) => apply keeps_bind; [| intro]
      | |- keeps _ (ret _) => apply keeps_ret
      | |- keeps _ skip => apply keeps_ret
      | |- keeps _ (gets _) => apply keeps_gets
      | |- keeps _ getNow => apply keeps_gets
      | |- keeps _ (when _ _) => apply keeps_when
      | |- keeps _ (whenSome _ _) => apply keeps_whenSome; intro
      | |- keeps _ (resultLoop _ _) => apply keeps_resultLoop; intro
      | |- keeps _ (if ?b then _ else _) => destruct b
      | |- keeps _ (match ?x with _ => _ end) => destruct x
      end
    | unfold_head
    | let w := fresh "w" in let H := fresh "H" in
      intros w H; destruct w as [[] [] []]; exact H ].

Ltac kept := repeat kept_step.

(* ------------------------------------------------------------------ *)
(** ** The voice-mode flag and the captions of the voice screen *)
(* ------------------------------------------------------------------ *)

Ltac display_open :=
  unfold voiceDisplayConsistent, voiceModeMirrored, captionsOnlyInVoiceMode in *.

Ltac display_close :=
  cbn in *;
  first
    [ solve [intuition congruence]
    | split;
      [ congruence
      | let Hv := fresh "Hv" in
        intros Hv; try discriminate Hv; subst; cbn in *;
        repeat match goal with
               | H : ?x = _ , K : context [?x] |- _ => rewrite H in K; cbn in K
               end;
        try discriminate; try (split; congruence) ] ].

Lemma display_clear_captions :
  keeps voiceDisplayConsistent (setCurrentUserSpeech [])
  /\ keeps voiceDisplayConsistent (setCurrentBotSpeech []).
Proof.
  split; intros w H; display_open; destruct w as [[] [] []]; cbn in *;
    intuition congruence.
Qed.

Lemma display_handleVoiceToggle : keeps voiceDisplayConsistent handleVoiceToggle.
Proof.
  intros w H. display_open. destruct H as [H1 H2]. handler; display_close.
Qed.

Lemma display_handleResetChat : keeps voiceDisplayConsistent handleResetChat.
Proof.
  intros w H. display_open. destruct H as [H1 H2]. handler; display_close.
Qed.

(** The reply is captioned only when the voice-mode flag is set. *)
Lemma display_resolved (data : ChatResponse) :
  keeps voiceDisplayConsistent (handleVoiceConversation_resolved data).
Proof.
  intros w H. display_open. destruct H as [H1 H2]. handler; display_close.
Qed.

(** The effects write the flag of the render they belong to, and caption
    the transcript only in voice mode. *)
Lemma display_renderPass : keeps voiceDisplayConsistent renderPass.
Proof.
  intros w H. display_open. destruct H as [H1 H2]. handler; display_close.
Qed.

Lemma display_handlerOf (B : Browser) (w : World) (e : Event) (h : M unit) :
  handlerOf B w e = Some h -> keeps voiceDisplayConsistent h.
Proof.
  intros He. facts display_clear_captions.
  pose proof display_handleVoiceToggle. pose proof display_handleResetChat.
  pose proof display_resolved.
  destruct e; handlerOf_inv He; kept.
Qed.

Lemma display_reachable (B : Browser) (t0 : Z) (w : World) :
  reachable B t0 w -> voiceDisplayConsistent w.
Proof.
  apply invariant_reachable.
  - intros v e h J _ He. exact (display_handlerOf B v e h He v J).
  - exact display_renderPass.
  - display_open. destruct B as [m [] s]; vm_compute; split; auto.
Qed.

(** X1. At every turn of the event loop the reference cell
    [voiceModeRef], which the timers and the continuations of the voice
    turn read, holds the value of the state [isVoiceMode]: the handlers
    that change the state assign the cell in the same breath, and the
    effect on [isVoiceMode] assigns it the value of its render. *)
Theorem voiceModeRef_mirrors_isVoiceMode (B : Browser) (t0 : Z) (w : World) :
  reachable B t0 w -> voiceModeRef (app w) = isVoiceMode (app w).
Proof. intros Hr. exact (proj1 (display_reachable B t0 w Hr)). Qed.

Lemma voiceModeRef_mirrors_isVoiceMode_witness :
  reachable desktop 0 (after desktop heardHello)
  /\ isVoiceMode (app (after desktop heardHello)) = true
  /\ voiceModeRef (app (after desktop heardHello))
     = isVoiceMode (app (after desktop heardHello)).
Proof.
  assert (Hr : reachable desktop 0 (after desktop heardHello))
    by (exists heardHello; vm_compute; reflexivity).
  split; [exact Hr|]. split; [vm_compute; reflexivity|].
  exact (voiceModeRef_mirrors_isVoiceMode desktop 0 _ Hr).
Defined.

(** X2. On the chat screen both captions of the voice screen are empty:
    the transcript is captioned only by the effect of a render in voice
    mode, the reply only when the voice-mode flag is set, and leaving
    voice mode or resetting the chat clears both. *)
Theorem chat_screen_has_no_captions (B : Browser) (t0 : Z) (w : World) :
  reachable B t0 w -> isVoiceMode (app w) = false ->
  currentUserSpeech (app w) = [] /\ currentBotSpeech (app w) = [].
Proof. intros Hr. exact (proj2 (display_reachable B t0 w Hr)). Qed.

Lemma chat_screen_has_no_captions_witness :
  let voice := after desktop [EvVoiceToggle; EvProbe 0%nat micGranted false;
                              EvRecStart 0%nat;
                              EvRecResult 0%nat (finalResult "hello")] in
  let w := after desktop [EvVoiceToggle; EvProbe 0%nat micGranted false;
                          EvRecStart 0%nat;
                          EvRecResult 0%nat (finalResult "hello");
                          EvVoiceToggle] in
  currentUserSpeech (app voice) = lit "hello"
  /\ reachable desktop 0 w /\ isVoiceMode (app w) = false
  /\ currentUserSpeech (app w) = [] /\ currentBotSpeech (app w) = [].
Proof.
  cbv zeta. split; [vm_compute; reflexivity|].
  match goal with |- reachable _ _ ?w /\ _ =>
    assert (Hr : reachable desktop 0 w)
      by (exists [EvVoiceToggle; EvProbe 0%nat micGranted false;
                  EvRecStart 0%nat; EvRecResult 0%nat (finalResult "hello");
                  EvVoiceToggle]; vm_compute; reflexivity);
    assert (Hv : isVoiceMode (app w) = false) by (vm_compute; reflexivity)
  end.
  split; [exact Hr|]. split; [exact Hv|].
  exact (chat_screen_has_no_captions desktop 0 _ Hr Hv).
Defined.

(* ------------------------------------------------------------------ *)
(** ** Attachments *)
(* ------------------------------------------------------------------ *)

Lemma images_append (m : ChatMessage) :
  imageOrNone (msg_attachment m) = true ->
  keeps onlyImages (setMessages (fun prev => prev ++ [m])).
Proof.
  intros Hm w [H1 [H2 H3]]. destruct w as [[] [] []]. cbn in *.
  repeat split; try assumption.
  apply Forall_app. split; [assumption|]. repeat constructor. exact Hm.
Qed.

Lemma images_clear : keeps onlyImages (setMessages (fun _ => [])).
Proof.
  intros w [H1 [H2 H3]]. destruct w as [[] [] []]. cbn in *.
  repeat split; try assumption. constructor.
Qed.

Lemma images_detach : keeps onlyImages (setAttachment None).
Proof.
  intros w [H1 [H2 H3]]. destruct w as [[] [] []]. cbn in *.
  repeat split; assumption.
Qed.

Lemma images_send (message mode sid : JsString)
    (attachments : option (list ChatAttachment)) (reset : option bool)
    (k : Continuation) :
  singleImage attachments = true ->
  keeps onlyImages (sendChatMessage message mode sid attachments reset k).
Proof.
  intros Ha w [H1 [H2 H3]]. destruct w as [[] [] []]. cbn in *.
  repeat split; try assumption.
  apply Forall_app. split; [assumption|]. repeat constructor. exact Ha.
Qed.

Lemma images_dropCall (c : CallId) : keeps onlyImages (dropCall c).
Proof.
  intros w [H1 [H2 H3]]. destruct w as [[] [] []]. cbn in *.
  repeat split; try assumption. now apply Forall_filter.
Qed.

(** The picker accepts a file only when its type starts with [image/]. *)
Lemma images_handleFileChange (file : option PickedFile) :
  keeps onlyImages (handleFileChange file).
Proof.
  intros w [H1 [H2 H3]]. unfold onlyImages in *.
  destruct file as [[n t d]|]; handler; cbn in *; repeat split; try assumption.
  unfold isImage. cbn.
  match goal with H : negb _ = false |- _ => apply negb_false_iff in H; exact H end.
Qed.

(** The message and the request carry the attachment of the form, which
    is an image if there is one. *)
Lemma images_handleSendMessage : keeps onlyImages handleSendMessage.
Proof.
  intros w [H1 [H2 H3]]. unfold onlyImages in *.
  handler; cbn in *; repeat split; try assumption;
    apply Forall_app; (split; [assumption|]); repeat constructor; cbn;
    assumption.
Qed.

Lemma images_handlerOf (B : Browser) (w : World) (e : Event) (h : M unit) :
  handlerOf B w e = Some h -> keeps onlyImages h.
Proof.
  intros He.
  pose proof images_append. pose proof images_clear. pose proof images_detach.
  pose proof images_send. pose proof images_dropCall.
  pose proof images_handleFileChange. pose proof images_handleSendMessage.
  destruct e; handlerOf_inv He; kept.
Qed.

(** X3. In every world the page can reach, the attachment of the form,
    the attachment of every message of the transcript and the attachments
    of every outstanding request passed the test of [handleFileChange] on
    the MIME type, and a request carries no attachment list or a list of
    exactly one. *)
Theorem attachments_are_single_images (B : Browser) (t0 : Z) (w : World) :
  reachable B t0 w -> onlyImages w.
Proof.
  apply invariant_reachable.
  - intros v e h J _ He. exact (images_handlerOf B v e h He v J).
  - kept.
  - destruct B as [m [] s]; vm_compute; repeat split; constructor.
Qed.

Lemma attachments_are_single_images_witness :
  let w := after desktop [EvFile (Some picture); EvSendMessage] in
  reachable desktop 0 w
  /\ List.map (fun c => req_attachments (call_request c)) (calls (rt w))
     = [Some [mkAttachment (lit "cat.png") (lit "image/png")
                (lit "data:image/png;base64,AAAA")]]
  /\ onlyImages w.
Proof.
  cbv zeta.
  assert (Hr : reachable desktop 0
                 (after desktop [EvFile (Some picture); EvSendMessage]))
    by (exists [EvFile (Some picture); EvSendMessage]; vm_compute; reflexivity).
  split; [exact Hr|]. split; [vm_compute; reflexivity|].
  exact (attachments_are_single_images desktop 0 _ Hr).
Defined.

(* ------------------------------------------------------------------ *)
(** ** The timers the hook keeps track of *)
(* ------------------------------------------------------------------ *)

Lemma NoDup_map_filter {A C} (f : A -> C) (g : A -> bool) (l : list A) :
  NoDup (List.map f l) -> NoDup (List.map f (filter g l)).
Proof.
  induction l as [|x l IH]; cbn; intros H; [constructor|].
  inversion H as [|? ? Hx Hl]; subst. destruct (g x); cbn; [|auto].
  constructor; [|auto]. intros Hin. apply Hx.
  apply in_map_iff in Hin. destruct Hin as [y [Hy Hin]].
  apply filter_In in Hin. apply in_map_iff. exists y. tauto.
Qed.

Lemma timers_fresh_filter (n : TimerId) (g : Timer -> bool) (l : list Timer) :
  Forall (fun t => (t_id t < n)%nat) l /\ NoDup (List.map t_id l) ->
  Forall (fun t => (t_id t < n)%nat) (filter g l)
  /\ NoDup (List.map t_id (filter g l)).
Proof.
  intros [Hb Hn]. split; [now apply Forall_filter | now apply NoDup_map_filter].
Qed.

Lemma timers_fresh_snoc (n : TimerId) (d due : Z) (a : TimerAction)
    (l : list Timer) :
  Forall (fun t => (t_id t < n)%nat) l /\ NoDup (List.map t_id l) ->
  Forall (fun t => (t_id t < S n)%nat) (l ++ [mkTimer n d due a])
  /\ NoDup (List.map t_id (l ++ [mkTimer n d due a])).
Proof.
  intros [Hb Hn]. split.
  - apply Forall_app. split.
    + eapply Forall_impl; [|exact Hb]. cbn. intros; lia.
    + repeat constructor.
  - rewrite map_app. cbn.
    apply NoDup_app; [exact Hn | repeat constructor; intros [] |].
    intros x Hx [<-|[]]. apply in_map_iff in Hx. destruct Hx as [t [Ht Hin]].
    rewrite Forall_forall in Hb. specialize (Hb t Hin). cbn in Ht. lia.
Qed.

Lemma timers_fresh_S (n : TimerId) (l : list Timer) :
  Forall (fun t => (t_id t < n)%nat) l /\ NoDup (List.map t_id l) ->
  Forall (fun t => (t_id t < S n)%nat) l /\ NoDup (List.map t_id l).
Proof.
  intros [Hb Hn]. split; [|exact Hn].
  eapply Forall_impl; [|exact Hb]. cbn. intros; lia.
Qed.

Lemma and_assoc3 (A B C : Prop) : A /\ B -> C -> A /\ B /\ C.
Proof. tauto. Qed.

(** Identifiers stay distinct and below the counter when timers are
    cleared and armed. *)
Ltac fresh_solve :=
  repeat first [ apply timers_fresh_snoc | apply timers_fresh_filter ];
  first [ split; assumption
        | apply timers_fresh_S;
          repeat apply timers_fresh_filter; split; assumption ].

Ltac in_cases Hin :=
  repeat match type of Hin with
         | In _ (_ ++ _) => apply in_app_or in Hin; destruct Hin as [Hin|Hin]
         | In _ (filter _ _) =>
             apply filter_In in Hin;
             let Hc := fresh "Hc" in destruct Hin as [Hin Hc]
         | In _ [_] => destruct Hin as [Hin|[]]; subst
         end.

(** A timer that is still pending is still the one its cell holds: a
    cleared identifier is not pending any more, and a new timer is put in
    its cell. *)
Ltac tracked_solve Ht :=
  let t := fresh "t" in
  let Hin := fresh "Hin" in
  apply Forall_forall; intros t Hin; in_cases Hin;
  try (rewrite Forall_forall in Ht; specialize (Ht t Hin));
  unfold trackedBy in *; cbn in *;
  rewrite ?Nat.eqb_refl in *; try discriminate;
  try (destruct (t_action t); try exact I; try congruence;
       injection Ht as Ht; subst; rewrite ?Nat.eqb_refl in *; discriminate);
  try reflexivity; try exact I.

Ltac tracked_close Hb Hn Ht :=
  apply and_assoc3; [fresh_solve | tracked_solve Ht].

Lemma filter_none {A} (g : A -> bool) (l : list A) :
  Forall (fun x => g x = false) l -> filter g l = [].
Proof.
  induction 1 as [|x l Hx Hl IH]; cbn; [reflexivity|]. now rewrite Hx.
Qed.

Lemma same_key_once {A} (f : A -> nat) (i : nat) (l : list A) :
  NoDup (List.map f l) -> Forall (fun x => f x = i) l -> (List.length l <= 1)%nat.
Proof.
  intros Hn Hf. destruct l as [|x [|y l]]; cbn; try lia.
  inversion Hf as [|? ? Hx Hf']; subst. inversion Hf' as [|? ? Hy _]; subst.
  inversion Hn as [|? ? Hnx _]; subst. exfalso. apply Hnx. left. congruence.
Qed.

(** The timers of one kind that are pending all sit in one cell. *)
Lemma tracked_kind_once (g : Timer -> bool) (ref : option TimerId)
    (l : list Timer) :
  NoDup (List.map t_id l) ->
  Forall (fun t => g t = true -> ref = Some (t_id t)) l ->
  (List.length (filter g l) <= 1)%nat.
Proof.
  intros Hn Hf. destruct ref as [i|].
  - apply (same_key_once t_id i); [now apply NoDup_map_filter|].
    apply Forall_forall. intros t Hin. apply filter_In in Hin.
    rewrite Forall_forall in Hf. destruct Hin as [Hin Hg].
    specialize (Hf t Hin Hg). congruence.
  - rewrite filter_none; [cbn; lia|].
    eapply Forall_impl; [|exact Hf]. cbn. intros t Ht.
    destruct (g t); [discriminate (Ht eq_refl) | reflexivity].
Qed.

Lemma handleVoiceToggle_exit_timers (w : World) :
  isVoiceMode (app w) = true ->
  timers (rt (exec handleVoiceToggle w)) = timers (rt (exec stopListening w)).
Proof. intros Hv. handler; reflexivity. Qed.

Lemma render_timers (T : list Timer) :
  keeps (fun w => timers (rt w) = T) render.
Proof. kept. Qed.

(* ------------------------------------------------------------------ *)
(** ** What stopping cancels, and what it does not *)
(* ------------------------------------------------------------------ *)

Ltac owned_open :=
  unfold timersOwned, timersTracked, refOwns in *.

(** A cell still owns its timer after timers were cleared and armed: a
    new timer has an identifier no cell held before. *)
Ltac owns_solve Hb :=
  let r0 := fresh "r0" in
  let Hr0 := fresh "Hr0" in
  intros r0 Hr0; try discriminate Hr0;
  try match goal with
      | Ho : forall r, ?ref = Some r -> _ |- _ =>
          match type of Hr0 with
          | ref = Some _ =>
              let Hlt := fresh "Hlt" in
              let Hall := fresh "Hall" in
              destruct (Ho r0 Hr0) as [Hlt Hall];
              rewrite Forall_forall in Hall
          end
      end;
  try (injection Hr0 as <-);
  (split; [lia|]);
  let t := fresh "t" in
  let Hin := fresh "Hin" in
  apply Forall_forall; intros t Hin; in_cases Hin; cbn;
  rewrite ?Nat.eqb_refl in *; try discriminate;
  first [ solve [auto]
        | intros; lia
        | reflexivity
        | rewrite Forall_forall in Hb; specialize (Hb t Hin); intros; lia ].

Ltac owned_close Hb Hn Ht :=
  split; [ tracked_close Hb Hn Ht | split; owns_solve Hb ].

Lemma owned_clearTimeout (id : TimerId) : keeps timersOwned (clearTimeout id).
Proof.
  intros w [[Hb [Hn Ht]] [Hs Hr]]. owned_open. handler.
  owned_close Hb Hn Ht.
Qed.

Lemma owned_setTimeout (a : TimerAction) (d : Z) :
  match a with TaSilence _ | TaRestart _ => False | _ => True end ->
  keeps timersOwned (setTimeout a d).
Proof.
  intros Ha w [[Hb [Hn Ht]] [Hs Hr]]. owned_open. handler.
  split; [|split; owns_solve Hb].
  tracked_close Hb Hn Ht. destruct a; try exact I; contradiction.
Qed.

Lemma owned_cleanup : keeps timersOwned cleanup.
Proof.
  intros w [[Hb [Hn Ht]] [Hs Hr]]. owned_open.
  handler; owned_close Hb Hn Ht.
Qed.

Lemma owned_restartListening (cb : Callback) :
  keeps timersOwned (restartListening cb).
Proof.
  intros w [[Hb [Hn Ht]] [Hs Hr]]. owned_open.
  handler; owned_close Hb Hn Ht.
Qed.

Lemma owned_onresult_afterLoop (B : Browser) (acc : JsString * JsString * bool) :
  keeps timersOwned (onresult_afterLoop B acc).
Proof.
  intros w [[Hb [Hn Ht]] [Hs Hr]]. owned_open. destruct acc as [[i f] n].
  handler; owned_close Hb Hn Ht.
Qed.

Lemma owned_handlerOf (B : Browser) (w : World) (e : Event) (h : M unit) :
  handlerOf B w e = Some h -> keeps timersOwned h.
Proof.
  intros He.
  pose proof owned_clearTimeout. pose proof owned_setTimeout.
  pose proof owned_cleanup. pose proof owned_restartListening.
  pose proof (owned_onresult_afterLoop B).
  destruct e; handlerOf_inv He; kept.
Qed.

Lemma owned_reachable (B : Browser) (t0 : Z) (w : World) :
  reachable B t0 w -> timersOwned w.
Proof.
  apply invariant_reachable.
  - intros v e h J _ He. exact (owned_handlerOf B v e h He v J).
  - kept.
  - destruct B as [m [] s]; vm_compute; repeat split; try constructor;
      discriminate.
Qed.

Lemma filter_twice {A} (f g h : A -> bool) (l : list A) :
  (forall x, In x l -> g x && f x = h x) ->
  filter f (filter g l) = filter h l.
Proof.
  induction l as [|x l IH]; cbn; intros H; [reflexivity|].
  rewrite <- (H x (or_introl eq_refl)).
  destruct (g x); cbn; [destruct (f x)|];
    rewrite IH by (intros y Hy; apply H; now right); reflexivity.
Qed.

Lemma filter_all {A} (h : A -> bool) (l : list A) :
  (forall x, In x l -> h x = true) -> l = filter h l.
Proof.
  induction l as [|x l IH]; cbn; intros H; [reflexivity|].
  rewrite (H x (or_introl eq_refl)). f_equal. apply IH.
  intros y Hy. apply H. now right.
Qed.

(** A pending timer is cleared by [cleanup] exactly when it is a silence
    or a restart timer. *)
Lemma cleared_iff_tracked (h : HookState) (T : list Timer) (n : TimerId)
    (t : Timer) :
  In t T -> Forall (trackedBy h) T ->
  (forall r, silenceTimeoutRef h = Some r ->
     (r < n)%nat /\ Forall (fun t => t_id t = r -> isSilenceTimer t = true) T) ->
  (forall r, timeoutRef h = Some r ->
     (r < n)%nat /\ Forall (fun t => t_id t = r -> isRestartTimer t = true) T) ->
  match timeoutRef h with Some a => negb (t_id t =? a)%nat | None => true end
  && match silenceTimeoutRef h with Some b => negb (t_id t =? b)%nat | None => true end
  = isUntracked t.
Proof.
  intros Hin Ht Hs Hr. rewrite Forall_forall in Ht. specialize (Ht t Hin).
  unfold isUntracked, trackedBy in *.
  assert (Ks : forall b, silenceTimeoutRef h = Some b -> t_id t = b ->
                 isSilenceTimer t = true).
  { intros b Hb Hid. destruct (Hs b Hb) as [_ Hall].
    rewrite Forall_forall in Hall. exact (Hall t Hin Hid). }
  assert (Kr : forall a, timeoutRef h = Some a -> t_id t = a ->
                 isRestartTimer t = true).
  { intros a Ha Hid. destruct (Hr a Ha) as [_ Hall].
    rewrite Forall_forall in Hall. exact (Hall t Hin Hid). }
  clear Hs Hr. unfold isSilenceTimer, isRestartTimer in *.
  destruct (timeoutRef h) as [a|], (silenceTimeoutRef h) as [b|];
    try specialize (Ks _ eq_refl); try specialize (Kr _ eq_refl);
    destruct (t_action t); cbn;
    repeat match goal with
           | |- context [(?x =? ?y)%nat] =>
               let E := fresh "E" in
               destruct (x =? y)%nat eqn:E;
               [apply Nat.eqb_eq in E | apply Nat.eqb_neq in E]
           end;
    cbn; try reflexivity; try discriminate; try congruence;
    try (discriminate (Ks ltac:(assumption)));
    try (discriminate (Kr ltac:(assumption))).
Qed.

Lemma stopListening_timers (w : World) :
  timersOwned w ->
  timers (rt (exec stopListening w)) = filter isUntracked (timers (rt w)).
Proof.
  intros [[Hb [Hn Ht]] [Hs Hr]]. owned_open.
  assert (K : forall t, In t (timers (rt w)) -> _)
    by exact (fun t Hin => cleared_iff_tracked (hook w) (timers (rt w))
                             (nextTimer (rt w)) t Hin Ht Hs Hr).
  clear Hb Hn Ht Hs Hr. revert K.
  handler; intros K.
  all: first [ apply filter_twice
             | apply filter_ext_in
             | apply filter_all ];
    (let x := fresh "x" in
     let Hx := fresh "Hx" in
     intros x Hx; specialize (K x Hx); cbn in K;
     rewrite ?andb_true_r in K; first [exact K | symmetry; exact K]).
Qed.

(** X4. [stopListening] cancels the pending silence timer and the
    pending restart timer, which the hook keeps in [silenceTimeoutRef]
    and [timeoutRef], and no other timer: in every world the page can
    reach, the timers pending after [stopListening], and after the user
    has left voice mode, are the ones that were pending before without
    the silence and restart timers.  The hand-over timer of
    [processVoiceResult], the timers of the voice turn, the auto-speak
    timer and the timers of [onstart], [onend] and [onerror] are kept in
    no cell and stay pending. *)
Theorem stopping_cancels_exactly_the_tracked_timers
    (B : Browser) (t0 : Z) (w : World) :
  reachable B t0 w ->
  timers (rt (exec stopListening w)) = filter isUntracked (timers (rt w))
  /\ (forall w', isVoiceMode (app w) = true ->
        step B EvVoiceToggle w = Some w' ->
        timers (rt w') = filter isUntracked (timers (rt w))).
Proof.
  intros Hr. apply owned_reachable in Hr.
  pose proof (stopListening_timers w Hr) as Hs.
  split; [exact Hs|]. intros w' Hv Hstep.
  unfold step in Hstep. destruct (offered B w EvVoiceToggle); [|discriminate].
  cbn [handlerOf] in Hstep. injection Hstep as <-. rewrite exec_bind.
  assert (Hrt : timers (rt (exec render (exec handleVoiceToggle w)))
                = timers (rt (exec handleVoiceToggle w)))
    by exact (render_timers _ _ eq_refl).
  rewrite Hrt. rewrite (handleVoiceToggle_exit_timers w Hv). exact Hs.
Qed.

Lemma stopping_cancels_exactly_the_tracked_timers_witness :
  let es := [EvVoiceToggle; EvProbe 0%nat micGranted false; EvRecStart 0%nat;
             EvRecError 0%nat ErrOther;
             EvRecResult 0%nat (finalResult "hello")] in
  let w := after desktop es in
  let w' := after desktop (es ++ [EvVoiceToggle]) in
  reachable desktop 0 w
  /\ List.map (fun t => (t_delay t, t_action t)) (timers (rt w))
     = [(1000, TaResetProcessing); (300, TaSilence (lit "hello"))]
  /\ List.map (fun t => (t_delay t, t_action t)) (timers (rt w'))
     = [(1000, TaResetProcessing)]
  /\ timers (rt w') = filter isUntracked (timers (rt w)).
Proof.
  cbv zeta.
  match goal with |- reachable _ _ ?w /\ _ /\ _ /\ timers (rt ?w') = _ =>
    assert (Hr : reachable desktop 0 w)
      by (exists [EvVoiceToggle; EvProbe 0%nat micGranted false; EvRecStart 0%nat;
                  EvRecError 0%nat ErrOther;
                  EvRecResult 0%nat (finalResult "hello")];
          vm_compute; reflexivity);
    assert (Hv : isVoiceMode (app w) = true) by (vm_compute; reflexivity);
    assert (Hs : step desktop EvVoiceToggle w = Some w')
      by (vm_compute; reflexivity)
  end.
  split; [exact Hr|]. split; [vm_compute; reflexivity|].
  split; [vm_compute; reflexivity|].
  exact (proj2 (stopping_cancels_exactly_the_tracked_timers desktop 0 _ Hr)
           _ Hv Hs).
Defined.

(** X5. Every new result replaces the silence timer of the one before,
    and [restartListening] replaces its own timer: in every world the page
    can reach, at most one silence timer and at most one restart timer are
    pending. *)
Theorem one_tracked_timer_of_each_kind (B : Browser) (t0 : Z) (w : World) :
  reachable B t0 w ->
  (List.length (filter isSilenceTimer (timers (rt w))) <= 1)%nat
  /\ (List.length (filter isRestartTimer (timers (rt w))) <= 1)%nat.
Proof.
  intros Hr. apply owned_reachable in Hr. destruct Hr as [[_ [Hn Ht]] _].
  split.
  - apply (tracked_kind_once _ (silenceTimeoutRef (hook w))); [exact Hn|].
    eapply Forall_impl; [|exact Ht]. intros t. unfold trackedBy, isSilenceTimer.
    destruct (t_action t); intros; try discriminate; assumption.
  - apply (tracked_kind_once _ (timeoutRef (hook w))); [exact Hn|].
    eapply Forall_impl; [|exact Ht]. intros t. unfold trackedBy, isRestartTimer.
    destruct (t_action t); intros; try discriminate; assumption.
Qed.

Lemma one_tracked_timer_of_each_kind_witness :
  let es := [EvVoiceToggle; EvProbe 0%nat micGranted false; EvRecStart 0%nat;
             EvRecResult 0%nat (finalResult "hello");
             EvRecResult 0%nat (finalResult " world")] in
  let w := after desktop es in
  reachable desktop 0 w
  /\ List.map (fun t => (t_id t, t_action t)) (timers (rt w))
     = [(2%nat, TaSilence (lit "helloworld"))]
  /\ (List.length (filter isSilenceTimer (timers (rt w))) <= 1)%nat
  /\ (List.length (filter isRestartTimer (timers (rt w))) <= 1)%nat.
Proof.
  cbv zeta.
  match goal with |- reachable _ _ ?w /\ _ =>
    assert (Hr : reachable desktop 0 w)
      by (exists [EvVoiceToggle; EvProbe 0%nat micGranted false; EvRecStart 0%nat;
                  EvRecResult 0%nat (finalResult "hello");
                  EvRecResult 0%nat (finalResult " world")];
          vm_compute; reflexivity)
  end.
  split; [exact Hr|]. split; [vm_compute; reflexivity|].
  exact (one_tracked_timer_of_each_kind desktop 0 _ Hr).
Defined.

(* ------------------------------------------------------------------ *)
(** ** A platform without speech recognition *)
(* ------------------------------------------------------------------ *)

Ltac unavailable_open :=
  unfold recognitionUnavailable in *;
  repeat match goal with H : _ /\ _ |- _ => destruct H end.

(** The closure holds [isSupported = false] and returns at once. *)
Lemma unavailable_startListening (cb : option Callback) :
  keeps recognitionUnavailable (startListening cb).
Proof.
  intros w H. unavailable_open. handler; cbn in *; repeat split; congruence.
Qed.

Lemma unavailable_updRec (r : RecId) (f : Recognizer -> Recognizer) :
  keeps recognitionUnavailable (updRec r f).
Proof.
  intros w H. unavailable_open. handler; cbn in *; repeat split; congruence.
Qed.

Lemma unavailable_cells :
  keeps recognitionUnavailable (setIsListening false)
  /\ keeps recognitionUnavailable (recognitionRef_set None)
  /\ keeps recognitionUnavailable (setIsVoiceMode false).
Proof.
  repeat match goal with |- _ /\ _ => split end;
    intros w H; unavailable_open; handler; cbn in *; repeat split; congruence.
Qed.

Lemma unavailable_renderPass : keeps recognitionUnavailable renderPass.
Proof.
  intros w H. unavailable_open. handler; cbn in *; repeat split; congruence.
Qed.

Lemma unavailable_handlerOf (B : Browser) (w : World) (e : Event) (h : M unit) :
  recognitionUnavailable w -> offered B w e = true ->
  handlerOf B w e = Some h -> recognitionUnavailable (exec h w).
Proof.
  intros J Ho He.
  pose proof unavailable_startListening. pose proof unavailable_updRec.
  facts unavailable_cells.
  assert (Hp : probes (rt w) = []) by apply J.
  assert (Hr : recognizers (rt w) = []) by apply J.
  assert (Hs : isSupported (hook w) = false) by apply J.
  assert (Hv : isVoiceMode (app w) = false) by apply J.
  destruct e; handlerOf_inv He;
    try solve [ exfalso; unfold findProbe in *; rewrite Hp in *; discriminate
              | exfalso; rewrite Hr in *; discriminate
              | exfalso; cbn in Ho; rewrite Hs, Hv in Ho; discriminate ];
    refine ((_ : keeps recognitionUnavailable _) w J); kept.
Qed.

(** X6. Where the platform has no recognizer, the hook never reports
    support and [startListening] returns at its first test: in every
    world the page can reach nothing listens, no permission was asked for,
    no recognizer was created, and the page is not in voice mode, whose
    button is not shown. *)
Theorem no_recognition_without_platform_support
    (B : Browser) (t0 : Z) (w : World) :
  hasSpeechRecognition B = false -> reachable B t0 w ->
  isSupported (hook w) = false /\ isListening (hook w) = false
  /\ probes (rt w) = [] /\ recognizers (rt w) = []
  /\ isVoiceMode (app w) = false
  /\ (forall cb, exec (startListening cb) w = w).
Proof.
  intros HB Hr.
  assert (J : recognitionUnavailable w).
  { revert Hr. apply invariant_reachable.
    - exact (unavailable_handlerOf B).
    - exact unavailable_renderPass.
    - destruct B as [m r s]. cbn in HB. subst r. vm_compute. tauto. }
  unavailable_open. repeat split; try assumption.
  intros cb. handler; cbn in *; congruence.
Qed.

Lemma no_recognition_without_platform_support_witness :
  let B := mkBrowser false false true in
  let w := after B [EvInput (lit "hi"); EvSendMessage] in
  hasSpeechRecognition B = false /\ reachable B 0 w
  /\ List.length (calls (rt w)) = 1%nat
  /\ isSupported (hook w) = false /\ isListening (hook w) = false
  /\ probes (rt w) = [] /\ recognizers (rt w) = []
  /\ isVoiceMode (app w) = false
  /\ (forall cb, exec (startListening cb) w = w).
Proof.
  cbv zeta.
  match goal with |- _ /\ reachable ?B _ ?w /\ _ =>
    assert (Hr : reachable B 0 w)
      by (exists [EvInput (lit "hi"); EvSendMessage]; vm_compute; reflexivity)
  end.
  split; [reflexivity|]. split; [exact Hr|]. split; [vm_compute; reflexivity|].
  exact (no_recognition_without_platform_support
           (mkBrowser false false true) 0 _ eq_refl Hr).
Defined.

(* ------------------------------------------------------------------ *)
(** ** The loading flag *)
(* ------------------------------------------------------------------ *)

Lemma calls_fresh_filter (n : CallId) (g : PendingCall -> bool)
    (l : list PendingCall) :
  Forall (fun c => (call_id c < n)%nat) l /\ NoDup (List.map call_id l) ->
  Forall (fun c => (call_id c < n)%nat) (filter g l)
  /\ NoDup (List.map call_id (filter g l)).
Proof.
  intros [Hb Hn]. split; [now apply Forall_filter | now apply NoDup_map_filter].
Qed.

Lemma calls_fresh_snoc (n : CallId) (q : ChatRequest) (k : Continuation)
    (l : list PendingCall) :
  Forall (fun c => (call_id c < n)%nat) l /\ NoDup (List.map call_id l) ->
  Forall (fun c => (call_id c < S n)%nat) (l ++ [mkCall n q k])
  /\ NoDup (List.map call_id (l ++ [mkCall n q k])).
Proof.
  intros [Hb Hn]. split.
  - apply Forall_app. split.
    + eapply Forall_impl; [|exact Hb]. cbn. intros; lia.
    + repeat constructor.
  - rewrite map_app. cbn.
    apply NoDup_app; [exact Hn | repeat constructor; intros [] |].
    intros x Hx [<-|[]]. apply in_map_iff in Hx. destruct Hx as [t [Ht Hin]].
    rewrite Forall_forall in Hb. specialize (Hb t Hin). cbn in Ht. lia.
Qed.

Ltac calls_solve :=
  repeat first [ apply calls_fresh_snoc | apply calls_fresh_filter ];
  split; assumption.

(** Removing a settled reset notification removes no call of a sender. *)
Lemma existsb_drop_other {A} (key : A -> nat) (g : A -> bool) (c : nat)
    (l : list A) (x : A) :
  NoDup (List.map key l) ->
  find (fun y => (key y =? c)%nat) l = Some x -> g x = false ->
  existsb g (filter (fun y => negb (key y =? c)%nat) l) = existsb g l.
Proof.
  induction l as [|y l IH]; cbn; intros Hn Hf Hg; [reflexivity|].
  inversion Hn as [|? ? Hy Hl]; subst.
  destruct (key y =? c)%nat eqn:E; cbn.
  - injection Hf as ->. rewrite Hg. cbn. f_equal.
    apply Nat.eqb_eq in E.
    assert (Hall : forall z, In z l -> negb (key z =? c)%nat = true).
    { intros z Hz. apply negb_true_iff. apply Nat.eqb_neq. intros Hk.
      apply Hy. apply in_map_iff. exists z. split; [congruence | exact Hz]. }
    clear -Hall. induction l as [|z l IH]; cbn; [reflexivity|].
    rewrite (Hall z (or_introl eq_refl)). cbn. f_equal.
    apply IH. intros z' Hz'. apply Hall. now right.
  - f_equal. exact (IH Hl Hf Hg).
Qed.

Ltac loading_open :=
  unfold loadingHasCall, callsFresh in *;
  repeat match goal with H : _ /\ _ |- _ => destruct H end.

Ltac loading_close :=
  cbn in *; split;
  [ calls_solve
  | try (intros; discriminate);
    try (intros; rewrite existsb_app; cbn; rewrite ?orb_true_r; reflexivity);
    try assumption ].

Lemma loading_clear : keeps loadingHasCall (setIsLoading false).
Proof. intros w H. loading_open. handler; loading_close. Qed.

Lemma loading_send (m mode sid : JsString)
    (attachments : option (list ChatAttachment)) (reset : option bool)
    (k : Continuation) :
  keeps loadingHasCall (sendChatMessage m mode sid attachments reset k).
Proof.
  intros w H. loading_open. handler. cbn in *. split; [calls_solve|].
  intros Hl. rewrite existsb_app. rewrite (H0 Hl). reflexivity.
Qed.

(** Both senders set the flag and issue their call in one run. *)
Lemma loading_handleVoiceConversation (text : JsString) :
  keeps loadingHasCall (handleVoiceConversation text).
Proof.
  intros w H. loading_open. handler; loading_close.
Qed.

Lemma loading_handleSendMessage : keeps loadingHasCall handleSendMessage.
Proof. intros w H. loading_open. handler; loading_close. Qed.

(** Both continuations of a sender end by clearing the flag. *)
Lemma loading_settled (w : World) (c : CallId) (x : PendingCall) :
  loadingHasCall w -> findCall c w = Some x ->
  (forall data,
     loadingHasCall (exec (dropCall c ;; runResolved (call_k x) data) w))
  /\ (forall error,
        loadingHasCall (exec (dropCall c ;; runRejected (call_k x) error) w)).
Proof.
  intros H Hf. loading_open. unfold findCall in Hf.
  assert (Hreset : call_k x = KReset ->
            existsb isChatCall
              (filter (fun y => negb (call_id y =? c)%nat) (calls (rt w)))
            = existsb isChatCall (calls (rt w))).
  { intros Hk. apply (existsb_drop_other call_id isChatCall c _ x);
      [assumption | exact Hf |]. unfold isChatCall. now rewrite Hk. }
  split; intros y; destruct (call_k x) eqn:Hk;
    try specialize (Hreset eq_refl); clear Hf;
    handler; cbn in *; (split; [calls_solve|]);
    try (intros; discriminate);
    intros Hl; rewrite Hreset; auto.
Qed.

Lemma loading_handlerOf (B : Browser) (w : World) (e : Event) (h : M unit) :
  loadingHasCall w -> offered B w e = true ->
  handlerOf B w e = Some h -> loadingHasCall (exec h w).
Proof.
  intros J _ He.
  pose proof loading_clear. pose proof loading_send.
  pose proof loading_handleVoiceConversation.
  pose proof loading_handleSendMessage.
  destruct e; handlerOf_inv He;
    try (match goal with
         | Hf : findCall _ _ = Some _ |- _ =>
             first [ exact (proj1 (loading_settled _ _ _ J Hf) _)
                   | exact (proj2 (loading_settled _ _ _ J Hf) _) ]
         end);
    refine ((_ : keeps loadingHasCall _) w J); kept.
Qed.

Lemma loading_reachable (B : Browser) (t0 : Z) (w : World) :
  reachable B t0 w -> loadingHasCall w.
Proof.
  apply invariant_reachable.
  - exact (loading_handlerOf B).
  - kept.
  - destruct B as [m [] s]; vm_compute; repeat split; try constructor;
      discriminate.
Qed.

(** X7. The loading flag, which disables the controls of the chat screen
    and shows the voice screen as busy, is set only while a call of one of
    the two senders is outstanding: each sender sets it in the run that
    issues its call, and each continuation, on success and on failure,
    ends by clearing it. *)
Theorem loading_only_while_call_outstanding (B : Browser) (t0 : Z) (w : World) :
  reachable B t0 w -> isLoading (app w) = true ->
  exists c, In c (calls (rt w)) /\ call_k c <> KReset.
Proof.
  intros Hr Hl. apply loading_reachable in Hr. destruct Hr as [_ Hc].
  specialize (Hc Hl). apply existsb_exists in Hc. destruct Hc as [c [Hin Hk]].
  exists c. split; [exact Hin|]. unfold isChatCall in Hk.
  destruct (call_k c); [discriminate | discriminate | discriminate Hk].
Qed.

Lemma loading_only_while_call_outstanding_witness :
  let w := after desktop textInFlight in
  reachable desktop 0 w /\ isLoading (app w) = true
  /\ exists c, In c (calls (rt w)) /\ call_k c <> KReset.
Proof.
  cbv zeta.
  assert (Hr : reachable desktop 0 (after desktop textInFlight))
    by (exists textInFlight; vm_compute; reflexivity).
  assert (Hl : isLoading (app (after desktop textInFlight)) = true)
    by (vm_compute; reflexivity).
  split; [exact Hr|]. split; [exact Hl|].
  exact (loading_only_while_call_outstanding desktop 0 _ Hr Hl).
Defined.

(* ------------------------------------------------------------------ *)
(** ** Where remote calls come from *)
(* ------------------------------------------------------------------ *)

Lemma noNewCall_dropCall (C : list PendingCall) (n : CallId) (c : CallId) :
  keeps (noNewCall C n) (dropCall c).
Proof.
  intros w [Hi Hn]. destruct w as [a h []]. unfold noNewCall in *. cbn in *.
  split; [|exact Hn]. intros x Hx. apply filter_In in Hx. apply Hi. tauto.
Qed.

Lemma noNewCall_handlerOf (B : Browser) (C : list PendingCall) (n : CallId)
    (w : World) (e : Event) (h : M unit) :
  issuesCall w e = false -> handlerOf B w e = Some h -> keeps (noNewCall C n) h.
Proof.
  intros Hi He. pose proof (noNewCall_dropCall C n).
  destruct e; try discriminate Hi; handlerOf_inv He;
    try (cbn [issuesCall] in Hi;
         match goal with
         | Hf : findTimer _ _ = Some ?t |- _ =>
             rewrite Hf in Hi; destruct (t_action t) eqn:Ea;
             try discriminate Hi
         end);
    kept.
Qed.

(** X8. A remote call is issued by three events only: the send button,
    the reset button and the hand-over timer of [processVoiceResult].
    Every other event (a recognizer event, a settled call, the end of a
    playback, any other timer, any other control) issues no call; it can
    only take a settled call off the outstanding ones. *)
Theorem remote_calls_have_three_sources
    (B : Browser) (e : Event) (w w' : World) :
  step B e w = Some w' -> issuesCall w e = false ->
  incl (calls (rt w')) (calls (rt w)) /\ nextCall (rt w') = nextCall (rt w).
Proof.
  intros Hs Hi. unfold step in Hs.
  destruct (offered B w e); [|discriminate].
  destruct (handlerOf B w e) as [h|] eqn:Hh; [|discriminate].
  injection Hs as <-. rewrite exec_bind.
  change (noNewCall (calls (rt w)) (nextCall (rt w)) (exec render (exec h w))).
  assert (Hr : keeps (noNewCall (calls (rt w)) (nextCall (rt w))) render)
    by kept.
  apply Hr. apply (noNewCall_handlerOf B _ _ w e h Hi Hh).
  split; [apply incl_refl | reflexivity].
Qed.

Lemma remote_calls_have_three_sources_witness :
  let w := after desktop turnInFlight in
  let e := EvRecResult 0%nat (finalResult "world") in
  let w' := after desktop (turnInFlight ++ [e]) in
  step desktop e w = Some w' /\ issuesCall w e = false
  /\ List.length (calls (rt w)) = 1%nat
  /\ incl (calls (rt w')) (calls (rt w))
  /\ nextCall (rt w') = nextCall (rt w).
Proof.
  cbv zeta.
  match goal with |- step _ ?e ?w = Some ?w' /\ _ =>
    assert (Hs : step desktop e w = Some w') by (vm_compute; reflexivity);
    assert (Hi : issuesCall w e = false) by reflexivity
  end.
  split; [exact Hs|]. split; [exact Hi|]. split; [vm_compute; reflexivity|].
  exact (remote_calls_have_three_sources desktop _ _ _ Hs Hi).
Defined.

(* ------------------------------------------------------------------ *)
(** ** The transcript *)
(* ------------------------------------------------------------------ *)

Lemma messagesExtend_append (L : list ChatMessage) (m : ChatMessage) :
  keeps (messagesExtend L) (setMessages (fun prev => prev ++ [m])).
Proof.
  intros w [l Hl]. destruct w as [[] h r]. unfold messagesExtend. cbn in *.
  exists (l ++ [m]). rewrite Hl. now rewrite app_assoc.
Qed.

Lemma messagesExtend_handlerOf (B : Browser) (L : list ChatMessage)
    (w : World) (e : Event) (h : M unit) :
  e <> EvResetChat -> handlerOf B w e = Some h -> keeps (messagesExtend L) h.
Proof.
  intros Hne He. pose proof (messagesExtend_append L).
  destruct e; try congruence; handlerOf_inv He; kept.
Qed.

(** X9. The transcript is append-only: whatever happens on the page,
    except a click on the reset button, the messages that were in the
    transcript are still there, in the same order, followed by the ones
    the event added. *)
Theorem transcript_only_grows (B : Browser) (e : Event) (w w' : World) :
  step B e w = Some w' -> e <> EvResetChat ->
  exists l, messages (app w') = messages (app w) ++ l.
Proof.
  intros Hs Hne. unfold step in Hs.
  destruct (offered B w e); [|discriminate].
  destruct (handlerOf B w e) as [h|] eqn:Hh; [|discriminate].
  injection Hs as <-. rewrite exec_bind.
  change (messagesExtend (messages (app w)) (exec render (exec h w))).
  assert (Hr : keeps (messagesExtend (messages (app w))) render) by kept.
  apply Hr. apply (messagesExtend_handlerOf B _ w e h Hne Hh).
  exists []. now rewrite app_nil_r.
Qed.

Lemma transcript_only_grows_witness :
  let w := after desktop turnInFlight in
  let e := EvResolve 0%nat (mkResponse None (lit "hi there")) in
  let w' := after desktop (turnInFlight ++ [e]) in
  step desktop e w = Some w' /\ e <> EvResetChat
  /\ List.map msg_message (messages (app w')) = [lit "hello"; lit "hi there"]
  /\ exists l, messages (app w') = messages (app w) ++ l.
Proof.
  cbv zeta.
  match goal with |- step _ ?e ?w = Some ?w' /\ _ =>
    assert (Hs : step desktop e w = Some w') by (vm_compute; reflexivity);
    assert (Hne : e <> EvResetChat) by discriminate
  end.
  split; [exact Hs|]. split; [exact Hne|]. split; [vm_compute; reflexivity|].
  exact (transcript_only_grows desktop _ _ _ Hs Hne).
Defined.

(* ------------------------------------------------------------------ *)
(** ** Result events *)
(* ------------------------------------------------------------------ *)

Lemma truthy_false (s : JsString) : truthy s = false -> s = [].
Proof. destruct s; [reflexivity | discriminate]. Qed.

(** The loop of [onresult] in closed form. *)
Lemma resultLoop_closed (rs : list SpeechResult) (i f : JsString) (n : bool)
    (w : World) :
  resultLoop rs (i, f, n) w
  = ((i ++ interimText rs, f ++ finalText rs, n || hasFinal rs),
     exec (finalTranscriptRef_set (finalTranscriptRef (hook w) ++ finalText rs)) w).
Proof.
  revert i f n w. induction rs as [|x rs IH]; intros i f n w.
  - destruct w as [a [] r]. cbn. now rewrite !app_nil_r, orb_false_r.
  - cbn [resultLoop]. unfold finalText, interimText, hasFinal.
    cbn [filter existsb]. fold (hasFinal rs).
    destruct (isFinal x) eqn:Ef; cbn [negb andb List.map List.concat].
    + destruct (truthy (trim (res_transcript x))) eqn:Et.
      * cbv beta iota delta [bind gets finalTranscriptRef_set updHook modify].
        rewrite IH. destruct w as [a [] r]. cbn. fold (finalText rs).
        now rewrite !app_assoc, orb_true_r.
      * rewrite IH. apply truthy_false in Et. rewrite Et. cbn.
        fold (finalText rs) (interimText rs). reflexivity.
    + destruct (truthy (trim (res_transcript x))) eqn:Et.
      * rewrite IH. fold (finalText rs) (interimText rs).
        now rewrite app_assoc.
      * rewrite IH. apply truthy_false in Et. rewrite Et. cbn.
        fold (finalText rs) (interimText rs). reflexivity.
Qed.

(** What the part of [onresult] after the loop shows and keeps. *)
Lemma onresult_afterLoop_display (B : Browser) (i f : JsString) (n : bool)
    (v : World) :
  let v' := exec (onresult_afterLoop B (i, f, n)) v in
  finalTranscriptRef (hook v') = finalTranscriptRef (hook v)
  /\ transcript (hook v')
     = (if truthy (finalTranscriptRef (hook v) ++ i)
        then finalTranscriptRef (hook v) ++ i else transcript (hook v))
  /\ app v' = app v /\ calls (rt v') = calls (rt v).
Proof. cbv zeta. handler; repeat split; reflexivity. Qed.

(** [onresult], cut after its loop. *)
Lemma onresult_unfold (B : Browser) (r : RecId) (event : SpeechRecognitionEvent)
    (w : World) :
  let w0 := exec (clearAutoStop r) w in
  let rs := newResults event in
  exec (onresult B r event) w
  = exec (onresult_afterLoop B (interimText rs, finalText rs, hasFinal rs))
      (exec (finalTranscriptRef_set (finalTranscriptRef (hook w) ++ finalText rs))
         w0).
Proof.
  cbv zeta. unfold onresult. rewrite exec_bind.
  destruct (clearAutoStop_frame w r) as [_ [Hh _]]. rewrite <- Hh.
  set (w0 := exec (clearAutoStop r) w). unfold exec at 1, bind.
  fold (newResults event). rewrite resultLoop_closed. reflexivity.
Qed.

(** X10. A result event adds to [finalTranscriptRef] the trimmed final
    segments of the results from [resultIndex] on, in their order, and
    shows that text followed by the trimmed interim segments of the same
    results; segments that are blank add nothing, and when there is
    nothing to show the displayed transcript stays.  The event touches no
    cell of the component and issues no call. *)
Theorem onresult_accumulates_transcript
    (B : Browser) (r : RecId) (event : SpeechRecognitionEvent) (w : World) :
  let w' := exec (onresult B r event) w in
  let rs := newResults event in
  let final := finalTranscriptRef (hook w) ++ finalText rs in
  finalTranscriptRef (hook w') = final
  /\ transcript (hook w')
     = (if truthy (final ++ interimText rs) then final ++ interimText rs
        else transcript (hook w))
  /\ app w' = app w /\ calls (rt w') = calls (rt w).
Proof.
  cbv zeta. rewrite onresult_unfold.
  destruct (clearAutoStop_frame w r) as [Ha [Hh Hc]].
  set (w0 := exec (clearAutoStop r) w) in *.
  set (rs := newResults event).
  set (v := exec (finalTranscriptRef_set _) w0).
  destruct (onresult_afterLoop_display B (interimText rs) (finalText rs)
              (hasFinal rs) v) as [H1 [H2 [H3 H4]]].
  rewrite H1, H2, H3, H4.
  assert (Hv : finalTranscriptRef (hook v) = finalTranscriptRef (hook w) ++ finalText rs
               /\ transcript (hook v) = transcript (hook w)
               /\ app v = app w /\ calls (rt v) = calls (rt w)).
  { subst v. rewrite <- Hh, <- Ha, <- Hc. destruct w0 as [a [] []].
    repeat split; reflexivity. }
  destruct Hv as [-> [-> [-> ->]]]. repeat split; reflexivity.
Qed.

Lemma clearAutoStop_timers (r : RecId) (w : World) :
  let w0 := exec (clearAutoStop r) w in
  incl (timers (rt w0)) (timers (rt w))
  /\ nextTimer (rt w0) = nextTimer (rt w) /\ now (rt w0) = now (rt w).
Proof.
  cbv zeta. handler; repeat split; try reflexivity; try apply incl_refl.
  apply incl_filter.
Qed.

Lemma hasFinal_false (rs : list SpeechResult) :
  hasFinal rs = false -> finalText rs = [].
Proof.
  unfold hasFinal, finalText. induction rs as [|x rs IH]; cbn; [reflexivity|].
  intros H. apply orb_false_iff in H. destruct H as [Hx Hrs].
  destruct (isFinal x); cbn in *; [|exact (IH Hrs)].
  apply truthy_false in Hx. now rewrite Hx, (IH Hrs).
Qed.

(** When the part after the loop arms nothing. *)
Lemma onresult_afterLoop_quiet (B : Browser) (i f : JsString) (n : bool)
    (v : World) :
  isVoiceModeRef (hook v) = false
  \/ n = false
     /\ (isMobile B = false
         \/ looksComplete (trim (finalTranscriptRef (hook v) ++ i)) = false) ->
  let v' := exec (onresult_afterLoop B (i, f, n)) v in
  timers (rt v') = timers (rt v) /\ nextTimer (rt v') = nextTimer (rt v).
Proof.
  intros H. cbv zeta. unfold looksComplete in H.
  destruct H as [H|[-> [H|H]]]; handler; try (split; reflexivity);
    try congruence; rewrite H in *; discriminate.
Qed.

(** X11. A result event starts no turn in manual dictation, and none
    without a final segment unless the page runs on a phone and the
    interim text looks complete: in these cases [onresult] arms no timer
    (it can only disarm the auto-stop timer). *)
Theorem onresult_arms_no_timer
    (B : Browser) (r : RecId) (event : SpeechRecognitionEvent) (w : World) :
  isVoiceModeRef (hook w) = false
  \/ hasFinal (newResults event) = false
     /\ (isMobile B = false
         \/ looksComplete
              (trim (finalTranscriptRef (hook w) ++ interimText (newResults event)))
            = false) ->
  let w' := exec (onresult B r event) w in
  incl (timers (rt w')) (timers (rt w)) /\ nextTimer (rt w') = nextTimer (rt w).
Proof.
  intros H. cbv zeta. rewrite onresult_unfold.
  destruct (clearAutoStop_frame w r) as [_ [Hh _]].
  destruct (clearAutoStop_timers r w) as [Hi [Hn _]].
  set (w0 := exec (clearAutoStop r) w) in *.
  set (rs := newResults event) in *.
  set (v := exec (finalTranscriptRef_set _) w0).
  assert (Hv : isVoiceModeRef (hook v) = isVoiceModeRef (hook w)
               /\ finalTranscriptRef (hook v)
                  = finalTranscriptRef (hook w) ++ finalText rs
               /\ timers (rt v) = timers (rt w0)
               /\ nextTimer (rt v) = nextTimer (rt w0)).
  { subst v. rewrite <- Hh. destruct w0 as [a [] []]. repeat split; reflexivity. }
  destruct Hv as [Hv1 [Hv2 [Hv3 Hv4]]].
  destruct (onresult_afterLoop_quiet B (interimText rs) (finalText rs)
              (hasFinal rs) v) as [H1 H2].
  { rewrite Hv1, Hv2. destruct H as [H|[Hf H]]; [now left | right].
    split; [exact Hf|]. rewrite (hasFinal_false rs Hf), app_nil_r. exact H. }
  rewrite H1, H2, Hv3, Hv4. split; assumption.
Qed.

Lemma onresult_arms_no_timer_witness :
  let w := after desktop [EvVoiceToggle; EvProbe 0%nat micGranted false;
                          EvRecStart 0%nat] in
  let event := mkResultEvent [mkResult false (lit "hello wor")] 0 in
  let w' := exec (onresult desktop 0%nat event) w in
  isVoiceModeRef (hook w) = true
  /\ transcript (hook w') = lit "hello wor"
  /\ incl (timers (rt w')) (timers (rt w))
  /\ nextTimer (rt w') = nextTimer (rt w).
Proof.
  cbv zeta. split; [vm_compute; reflexivity|]. split; [vm_compute; reflexivity|].
  apply (onresult_arms_no_timer desktop 0%nat
           (mkResultEvent [mkResult false (lit "hello wor")] 0)).
  right. split; [reflexivity | left; reflexivity].
Defined.

(** When the part after the loop arms the silence timer of a final
    result. *)
Lemma onresult_afterLoop_final (B : Browser) (i f : JsString) (v : World) :
  isVoiceModeRef (hook v) = true -> isProcessingRef (hook v) = false ->
  1 < len (trim (finalTranscriptRef (hook v))) ->
  isMobile B = false \/ i = [] ->
  let d := if isMobile B then 500 else 300 in
  let v' := exec (onresult_afterLoop B (i, f, true)) v in
  timers (rt v')
  = timers (rt (exec (whenSome (silenceTimeoutRef (hook v)) clearTimeout) v))
    ++ [mkTimer (nextTimer (rt v)) d (now (rt v) + d)
          (TaSilence (trim (finalTranscriptRef (hook v))))]
  /\ silenceTimeoutRef (hook v') = Some (nextTimer (rt v)).
Proof.
  intros Hv Hp Hl Hi. cbv zeta.
  assert (Hg : truthy (trim (finalTranscriptRef (hook v)))
               && (1 <? len (trim (finalTranscriptRef (hook v)))) = true).
  { apply andb_true_iff. split.
    - destruct (trim (finalTranscriptRef (hook v))); [cbn in Hl; lia | reflexivity].
    - apply Z.ltb_lt. exact Hl. }
  destruct Hi as [Hi| ->]; handler; cbn in *;
    try (rewrite Hg in *; discriminate); try congruence;
    split; reflexivity.
Qed.

(** When the part after the loop arms the silence timer of an interim
    text on a phone. *)
Lemma onresult_afterLoop_interim (B : Browser) (i f : JsString) (v : World) :
  isMobile B = true ->
  isVoiceModeRef (hook v) = true -> isProcessingRef (hook v) = false ->
  truthy i = true ->
  looksComplete (trim (finalTranscriptRef (hook v) ++ i)) = true ->
  let v' := exec (onresult_afterLoop B (i, f, false)) v in
  timers (rt v')
  = timers (rt (exec (whenSome (silenceTimeoutRef (hook v)) clearTimeout) v))
    ++ [mkTimer (nextTimer (rt v)) 800 (now (rt v) + 800)
          (TaSilence (trim (finalTranscriptRef (hook v) ++ i)))]
  /\ silenceTimeoutRef (hook v') = Some (nextTimer (rt v)).
Proof.
  intros Hm Hv Hp Hi Hl. cbv zeta. unfold looksComplete in Hl.
  break_worlds. unfold_handlers. rewrite ?Hm, ?Hi, ?Hl. cbn [andb negb].
  repeat (case_step; unfold_handlers; rewrite ?Hm, ?Hi, ?Hl; cbn [andb negb]);
    try excluded; split; reflexivity.
Qed.

Lemma clearTracked_timers (o : option TimerId) (v v0 : World) :
  rt v = rt v0 ->
  timers (rt (exec (whenSome o clearTimeout) v))
  = timers (rt (exec (whenSome o clearTimeout) v0)).
Proof.
  intros H. destruct o; destruct v, v0; cbn in *; now rewrite H.
Qed.

(** The world the part after the loop starts in. *)
Lemma onresult_loop_world (r : RecId) (final : JsString) (w : World) :
  let w0 := exec (clearAutoStop r) w in
  let v := exec (finalTranscriptRef_set final) w0 in
  isVoiceModeRef (hook v) = isVoiceModeRef (hook w)
  /\ isProcessingRef (hook v) = isProcessingRef (hook w)
  /\ silenceTimeoutRef (hook v) = silenceTimeoutRef (hook w)
  /\ finalTranscriptRef (hook v) = final
  /\ rt v = rt w0
  /\ nextTimer (rt v) = nextTimer (rt w) /\ now (rt v) = now (rt w).
Proof.
  cbv zeta. destruct (clearAutoStop_frame w r) as [_ [Hh _]].
  destruct (clearAutoStop_timers r w) as [_ [Hn Ht]].
  rewrite <- Hh, <- Hn, <- Ht. destruct (exec (clearAutoStop r) w) as [a [] []].
  repeat split; reflexivity.
Qed.

(** X12. In voice mode, with the hook's latch clear, a result event with
    a new final segment whose accumulated text has more than one
    character clears the silence timer that is pending and arms a new one
    for the whole accumulated text, 300 ms from now on a desktop and
    500 ms on a phone, and keeps it in [silenceTimeoutRef]: the text is
    processed only after that long without a further result. *)
Theorem final_result_is_debounced
    (B : Browser) (r : RecId) (event : SpeechRecognitionEvent) (w : World) :
  let rs := newResults event in
  let fullText := trim (finalTranscriptRef (hook w) ++ finalText rs) in
  let d := if isMobile B then 500 else 300 in
  isVoiceModeRef (hook w) = true -> isProcessingRef (hook w) = false ->
  hasFinal rs = true -> 1 < len fullText ->
  isMobile B = false \/ interimText rs = [] ->
  let w' := exec (onresult B r event) w in
  timers (rt w')
  = timers (rt (exec (whenSome (silenceTimeoutRef (hook w)) clearTimeout)
                  (exec (clearAutoStop r) w)))
    ++ [mkTimer (nextTimer (rt w)) d (now (rt w) + d) (TaSilence fullText)]
  /\ silenceTimeoutRef (hook w') = Some (nextTimer (rt w)).
Proof.
  cbv zeta. intros Hv Hp Hf Hl Hi. rewrite onresult_unfold, Hf.
  set (rs := newResults event) in *.
  destruct (onresult_loop_world r (finalTranscriptRef (hook w) ++ finalText rs) w)
    as [E1 [E2 [E3 [E4 [E5 [E6 E7]]]]]].
  set (v := exec (finalTranscriptRef_set _) _) in *.
  destruct (onresult_afterLoop_final B (interimText rs) (finalText rs) v)
    as [H1 H2]; try congruence.
  rewrite H1, H2, E3, E4, E6, E7.
  rewrite (clearTracked_timers _ v _ E5). split; reflexivity.
Qed.

Lemma final_result_is_debounced_witness :
  let w := after desktop [EvVoiceToggle; EvProbe 0%nat micGranted false;
                          EvRecStart 0%nat;
                          EvRecResult 0%nat (finalResult "hello")] in
  let w' := exec (onresult desktop 0%nat (finalResult " world")) w in
  List.map (fun t => (t_id t, t_delay t, t_action t)) (timers (rt w))
  = [(1%nat, 300, TaSilence (lit "hello"))]
  /\ List.map (fun t => (t_id t, t_delay t, t_action t)) (timers (rt w'))
     = [(2%nat, 300, TaSilence (lit "helloworld"))]
  /\ timers (rt w')
     = timers (rt (exec (whenSome (silenceTimeoutRef (hook w)) clearTimeout)
                     (exec (clearAutoStop 0%nat) w)))
       ++ [mkTimer (nextTimer (rt w)) 300 (now (rt w) + 300)
             (TaSilence (trim (finalTranscriptRef (hook w)
                               ++ finalText (newResults (finalResult " world")))))]
  /\ silenceTimeoutRef (hook w') = Some (nextTimer (rt w)).
Proof.
  cbv zeta. split; [vm_compute; reflexivity|]. split; [vm_compute; reflexivity|].
  apply (final_result_is_debounced desktop 0%nat (finalResult " world"));
    try (vm_compute; reflexivity).
  left. reflexivity.
Defined.

(** X13. On a phone in voice mode, with the hook's latch clear, a result
    event without a final segment whose interim text is not empty and
    whose whole text looks complete (more than 3 characters and ending in
    a full stop, a question mark or an exclamation mark, or more than 10
    characters) clears the silence timer that is pending and arms one for
    the whole text, 800 ms from now. *)
Theorem mobile_interim_result_is_processed
    (B : Browser) (r : RecId) (event : SpeechRecognitionEvent) (w : World) :
  let rs := newResults event in
  let fullText := trim (finalTranscriptRef (hook w) ++ interimText rs) in
  isMobile B = true ->
  isVoiceModeRef (hook w) = true -> isProcessingRef (hook w) = false ->
  hasFinal rs = false -> truthy (interimText rs) = true ->
  looksComplete fullText = true ->
  let w' := exec (onresult B r event) w in
  timers (rt w')
  = timers (rt (exec (whenSome (silenceTimeoutRef (hook w)) clearTimeout)
                  (exec (clearAutoStop r) w)))
    ++ [mkTimer (nextTimer (rt w)) 800 (now (rt w) + 800) (TaSilence fullText)]
  /\ silenceTimeoutRef (hook w') = Some (nextTimer (rt w)).
Proof.
  cbv zeta. intros Hm Hv Hp Hf Hi Hl. rewrite onresult_unfold, Hf.
  set (rs := newResults event) in *.
  rewrite (hasFinal_false rs Hf), app_nil_r.
  destruct (onresult_loop_world r (finalTranscriptRef (hook w)) w)
    as [E1 [E2 [E3 [E4 [E5 [E6 E7]]]]]].
  set (v := exec (finalTranscriptRef_set _) _) in *.
  destruct (onresult_afterLoop_interim B (interimText rs) [] v)
    as [H1 H2]; try congruence.
  rewrite H1, H2, E3, E4, E6, E7.
  rewrite (clearTracked_timers _ v _ E5). split; reflexivity.
Qed.

Lemma mobile_interim_result_is_processed_witness :
  let w := after phone phoneListening in
  let event := mkResultEvent [mkResult false (lit "is it?")] 0 in
  let w' := exec (onresult phone 0%nat event) w in
  List.map (fun t => (t_delay t, t_action t)) (timers (rt w'))
  = [(800, TaSilence (lit "is it?"))]
  /\ timers (rt w')
     = timers (rt (exec (whenSome (silenceTimeoutRef (hook w)) clearTimeout)
                     (exec (clearAutoStop 0%nat) w)))
       ++ [mkTimer (nextTimer (rt w)) 800 (now (rt w) + 800)
             (TaSilence (trim (finalTranscriptRef (hook w)
                               ++ interimText (newResults event))))]
  /\ silenceTimeoutRef (hook w') = Some (nextTimer (rt w)).
Proof.
  cbv zeta. split; [vm_compute; reflexivity|].
  apply (mobile_interim_result_is_processed phone 0%nat
           (mkResultEvent [mkResult false (lit "is it?")] 0));
    vm_compute; reflexivity.
Defined.

(* ------------------------------------------------------------------ *)
(** ** Accepting a transcript *)
(* ------------------------------------------------------------------ *)

(** X14. A text the hook has looked at with its latch clear is not
    accepted a second time, not even after the timer of [onend] has
    released the latch: [lastProcessedTextRef] still holds it, and a text
    that was dropped as blank or too short is dropped again. *)
Theorem processed_text_is_not_processed_again (w : World) (text : JsString) :
  isProcessingRef (hook w) = false ->
  let w1 := exec resetProcessingTimer (exec (processVoiceResult text) w) in
  exec (processVoiceResult text) w1 = w1 /\ exec (silenceTimer text) w1 = w1.
Proof.
  intros Hp. cbv zeta.
  split; break_worlds; unfold_handlers; rewrite ?str_eqb_refl;
    repeat (case_step; unfold_handlers;
            rewrite ?str_eqb_refl, ?orb_true_r; cbn [orb negb]);
    try excluded; try reflexivity;
    repeat match goal with
           | H : ?x = _ |- context [?x] => rewrite H; cbn [orb negb]
           end;
    try reflexivity.
Qed.

Lemma processed_text_is_not_processed_again_witness :
  let w := after desktop [EvVoiceToggle; EvProbe 0%nat micGranted false;
                          EvRecStart 0%nat] in
  let w1 := exec resetProcessingTimer (exec (processVoiceResult (lit "hello")) w) in
  isProcessingRef (hook w) = false
  /\ List.map t_action (timers (rt w1))
     = [TaCallback HandleVoiceConversation (lit "hello")]
  /\ isProcessingRef (hook w1) = false
  /\ exec (processVoiceResult (lit "hello")) w1 = w1
  /\ exec (silenceTimer (lit "hello")) w1 = w1.
Proof.
  cbv zeta. split; [vm_compute; reflexivity|]. split; [vm_compute; reflexivity|].
  split; [vm_compute; reflexivity|].
  apply (processed_text_is_not_processed_again _ (lit "hello")).
  vm_compute. reflexivity.
Defined.

(* ------------------------------------------------------------------ *)
(** ** Starting recognition *)
(* ------------------------------------------------------------------ *)

Lemma checkMicrophonePermission_refused (p : MicProbe) :
  checkMicrophonePermission p = false <-> refused p.
Proof.
  unfold checkMicrophonePermission, refused. destruct p as [[| |[]] []]; cbn;
    intuition discriminate.
Qed.

(** X15. The permission probe is refused when the permissions query
    throws or reports [denied], or when [getUserMedia] fails, and only
    then; after a refusal [startListening] shows the alert and does
    nothing else: no recognizer is created, and no cell of the hook or of
    the component changes. *)
Theorem refused_microphone_only_alerts
    (B : Browser) (cb : option Callback) (env : Captured) (startThrows : bool)
    (answer : MicProbe) (w : World) :
  (checkMicrophonePermission answer = false <-> refused answer)
  /\ (refused answer ->
      let w' := exec (startListening_resume B cb env
                        (checkMicrophonePermission answer) startThrows) w in
      alerts (rt w') = alerts (rt w) ++ [micDeniedAlert]
      /\ app w' = app w /\ hook w' = hook w
      /\ recognizers (rt w') = recognizers (rt w)
      /\ timers (rt w') = timers (rt w) /\ calls (rt w') = calls (rt w)).
Proof.
  split; [apply checkMicrophonePermission_refused|].
  intros Hr. apply checkMicrophonePermission_refused in Hr. rewrite Hr.
  cbv zeta. handler; repeat split; reflexivity.
Qed.

Lemma refused_microphone_only_alerts_witness :
  let answer := mkMicProbe (QueryState true) true in
  let w := after desktop [EvVoiceToggle] in
  let w' := exec (startListening_resume desktop (Some HandleVoiceConversation)
                    (startListeningEnv (rt w))
                    (checkMicrophonePermission answer) false) w in
  refused answer
  /\ isVoiceMode (app w') = true /\ isListening (hook w') = false
  /\ alerts (rt w') = alerts (rt w) ++ [micDeniedAlert]
  /\ app w' = app w /\ hook w' = hook w
  /\ recognizers (rt w') = recognizers (rt w)
  /\ timers (rt w') = timers (rt w) /\ calls (rt w') = calls (rt w).
Proof.
  cbv zeta.
  assert (Hr : refused (mkMicProbe (QueryState true) true))
    by (right; left; reflexivity).
  split; [exact Hr|]. split; [vm_compute; reflexivity|].
  split; [vm_compute; reflexivity|].
  exact (proj2 (refused_microphone_only_alerts desktop
                  (Some HandleVoiceConversation) _ false
                  (mkMicProbe (QueryState true) true) _) Hr).
Defined.

Lemma lookupRec_snoc_fresh (n : RecId) (x : Recognizer)
    (l : list (RecId * Recognizer)) :
  Forall (fun y => (fst y < n)%nat) l -> lookupRec n (l ++ [(n, x)]) = Some x.
Proof.
  induction 1 as [|[k v] l Hk Hl IH]; cbn.
  - now rewrite Nat.eqb_refl.
  - cbn in Hk. destruct (k =? n)%nat eqn:E; [|exact IH].
    apply Nat.eqb_eq in E. lia.
Qed.

Lemma lookupRec_snoc_other (r n : RecId) (x : Recognizer)
    (l : list (RecId * Recognizer)) :
  r <> n -> lookupRec r (l ++ [(n, x)]) = lookupRec r l.
Proof.
  intros Hne. induction l as [|[k v] l IH]; cbn.
  - destruct (n =? r)%nat eqn:E; [|reflexivity].
    apply Nat.eqb_eq in E. congruence.
  - destruct (k =? r)%nat; [reflexivity | exact IH].
Qed.

Lemma lookupRec_updateRec_same (r : RecId) (f : Recognizer -> Recognizer)
    (l : list (RecId * Recognizer)) :
  lookupRec r (updateRec r f l) = option_map f (lookupRec r l).
Proof.
  induction l as [|[k v] l IH]; cbn; [reflexivity|].
  destruct (k =? r)%nat eqn:E; cbn; rewrite E; [reflexivity | exact IH].
Qed.

Lemma lookupRec_updateRec_other (r r' : RecId) (f : Recognizer -> Recognizer)
    (l : list (RecId * Recognizer)) :
  r <> r' -> lookupRec r (updateRec r' f l) = lookupRec r l.
Proof.
  intros Hne. induction l as [|[k v] l IH]; cbn; [reflexivity|].
  destruct (k =? r')%nat eqn:E; cbn.
  - destruct (k =? r)%nat eqn:E'; [|reflexivity].
    apply Nat.eqb_eq in E, E'. congruence.
  - destruct (k =? r)%nat; [reflexivity | exact IH].
Qed.

Lemma Forall_fst_updateRec (n : RecId) (r : RecId) (f : Recognizer -> Recognizer)
    (l : list (RecId * Recognizer)) :
  Forall (fun y => (fst y < n)%nat) l ->
  Forall (fun y => (fst y < n)%nat) (updateRec r f l).
Proof.
  induction 1 as [|[k v] l Hk Hl IH]; cbn; [constructor|].
  destruct (k =? r)%nat; constructor; assumption.
Qed.

Ltac rec_fresh_open :=
  unfold recognizersFresh in *;
  repeat match goal with H : _ /\ _ |- _ => destruct H end.

Lemma recFresh_updRec (r : RecId) (f : Recognizer -> Recognizer) :
  keeps recognizersFresh (updRec r f).
Proof.
  intros w H. rec_fresh_open. handler. cbn in *.
  split; [now apply Forall_fst_updateRec | assumption].
Qed.

Lemma recFresh_ref_none : keeps recognizersFresh (recognitionRef_set None).
Proof.
  intros w H. rec_fresh_open. handler. cbn in *.
  split; [assumption | discriminate].
Qed.

Lemma Forall_fst_S (n : RecId) (l : list (RecId * Recognizer)) :
  Forall (fun y => (fst y < n)%nat) l -> Forall (fun y => (fst y < S n)%nat) l.
Proof. intros H. eapply Forall_impl; [|exact H]. cbn. intros; lia. Qed.

Lemma recFresh_startListening_resume (B : Browser) (cb : option Callback)
    (env : Captured) (granted throws : bool) :
  keeps recognizersFresh (startListening_resume B cb env granted throws).
Proof.
  intros w H. rec_fresh_open.
  handler; cbn in *;
    (split;
     [ repeat apply Forall_fst_updateRec;
       try (apply Forall_app; split; [|repeat constructor; cbn; lia]);
       try apply Forall_fst_S; repeat apply Forall_fst_updateRec; assumption
     | intros r0 Hr0; try discriminate; try (injection Hr0 as <-; lia); auto ]).
Qed.

Lemma recFresh_handlerOf (B : Browser) (w : World) (e : Event) (h : M unit) :
  handlerOf B w e = Some h -> keeps recognizersFresh h.
Proof.
  intros He.
  pose proof recFresh_updRec. pose proof recFresh_ref_none.
  pose proof (recFresh_startListening_resume B).
  destruct e; handlerOf_inv He; kept.
Qed.

Lemma recFresh_reachable (B : Browser) (t0 : Z) (w : World) :
  reachable B t0 w -> recognizersFresh w.
Proof.
  apply invariant_reachable.
  - intros v e h J _ He. exact (recFresh_handlerOf B v e h He v J).
  - kept.
  - destruct B as [m [] s]; vm_compute; split; try constructor; discriminate.
Qed.

Lemma aborted_delivers_no_result (y : Recognizer) :
  recDelivers
    (rec_status (match rec_status y with
                 | RsStarted | RsStopRequested => with_status RsAborted y
                 | _ => y
                 end)) true = false.
Proof. destruct y as [c i l [] a e]; reflexivity. Qed.

(** What [startListening] does after a successful permission probe. *)
Lemma startListening_resume_granted
    (B : Browser) (cb : option Callback) (env : Captured) (w : World) :
  recognizersFresh w -> hasSpeechRecognition B = true ->
  let w' := exec (startListening_resume B cb env true false) w in
  let n := nextRec (rt w) in
  recognitionRef (hook w') = Some n
  /\ lookupRec n (recognizers (rt w')) = Some (configuredRecognizer B env RsStarted)
  /\ isVoiceModeRef (hook w') = isSome cb /\ onSpeechEndRef (hook w') = cb
  /\ finalTranscriptRef (hook w') = [] /\ isProcessingRef (hook w') = false
  /\ lastProcessedTextRef (hook w') = []
  /\ timeoutRef (hook w') = None /\ silenceTimeoutRef (hook w') = None
  /\ (forall r0 x, recognitionRef (hook w) = Some r0 ->
        lookupRec r0 (recognizers (rt w')) = Some x ->
        recDelivers (rec_status x) true = false)
  /\ app w' = app w.
Proof.
  intros Hr HB. rec_fresh_open.
  cbv zeta. unfold configuredRecognizer.
  break_worlds. unfold_handlers. rewrite HB. cbn [negb].
  repeat (case_step; unfold_handlers); try excluded; cbn in *;
    rewrite ?lookupRec_updateRec_same;
    rewrite ?lookupRec_snoc_fresh
      by (repeat apply Forall_fst_updateRec; assumption);
    repeat split; try reflexivity;
    intros r0 x Hr0 Hx; try discriminate; injection Hr0 as <-;
    match goal with
    | Hb : forall r, Some ?r1 = Some r -> _ |- _ =>
        pose proof (Hb r1 eq_refl) as Hlt
    end;
    repeat (rewrite lookupRec_updateRec_other in Hx by lia);
    rewrite lookupRec_snoc_other in Hx by lia;
    rewrite lookupRec_updateRec_same in Hx;
    match type of Hx with
    | option_map _ ?o = _ => destruct o as [y|]; [|discriminate]
    end;
    cbn in Hx; injection Hx as <-; apply aborted_delivers_no_result.
Qed.

(** The timers left pending by a successful [startListening]: [cleanup]
    has cancelled the timers the two cells held, and nothing was armed. *)
Lemma startListening_resume_timers
    (B : Browser) (cb : option Callback) (env : Captured) (w : World) :
  timersOwned w -> hasSpeechRecognition B = true ->
  timers (rt (exec (startListening_resume B cb env true false) w))
  = filter isUntracked (timers (rt w)).
Proof.
  intros [[Hb [Hn Ht]] [Hs Hr]] HB. owned_open.
  assert (K : forall t, In t (timers (rt w)) -> _)
    by exact (fun t Hin => cleared_iff_tracked (hook w) (timers (rt w))
                             (nextTimer (rt w)) t Hin Ht Hs Hr).
  clear Hb Hn Ht Hs Hr. revert K.
  break_worlds. unfold_handlers. rewrite HB. cbn [negb].
  repeat (case_step; unfold_handlers); try excluded; intros K.
  all: first [ apply filter_twice
             | apply filter_ext_in
             | apply filter_all ];
    (let x := fresh "x" in
     let Hx := fresh "Hx" in
     intros x Hx; specialize (K x Hx); cbn in K;
     rewrite ?andb_true_r in K; first [exact K | symmetry; exact K]).
Qed.

(** X16. When the permission probe succeeds, [startListening] first
    aborts the recognizer the hook was tracking, so that it delivers no
    further result, and clears the two timers it keeps: the pending
    silence and restart timers are cancelled, every other pending timer
    stays, no timer is armed, and both cells are emptied.  It then
    creates one new recognizer, with continuous capture off on a phone
    and on elsewhere, interim results on and the language [tr-TR], starts
    it and tracks it in [recognitionRef].  The mode flag and the callback
    are the ones of this call, and the transcript and the latch start
    empty. *)
Theorem start_replaces_the_tracked_recognizer
    (B : Browser) (t0 : Z) (cb : option Callback) (env : Captured) (w : World) :
  reachable B t0 w -> hasSpeechRecognition B = true ->
  let w' := exec (startListening_resume B cb env true false) w in
  let n := nextRec (rt w) in
  recognitionRef (hook w') = Some n
  /\ lookupRec n (recognizers (rt w')) = Some (configuredRecognizer B env RsStarted)
  /\ isVoiceModeRef (hook w') = isSome cb /\ onSpeechEndRef (hook w') = cb
  /\ finalTranscriptRef (hook w') = [] /\ isProcessingRef (hook w') = false
  /\ lastProcessedTextRef (hook w') = []
  /\ timeoutRef (hook w') = None /\ silenceTimeoutRef (hook w') = None
  /\ timers (rt w') = filter isUntracked (timers (rt w))
  /\ (forall r0 x, recognitionRef (hook w) = Some r0 ->
        lookupRec r0 (recognizers (rt w')) = Some x ->
        recDelivers (rec_status x) true = false).
Proof.
  intros Hr HB.
  pose proof (startListening_resume_timers B cb env w
                (owned_reachable B t0 w Hr) HB) as Ht.
  apply recFresh_reachable in Hr. cbv zeta.
  pose proof (startListening_resume_granted B cb env w Hr HB) as H.
  cbv zeta in H. tauto.
Qed.

Lemma start_replaces_the_tracked_recognizer_witness :
  let w := after desktop [EvVoiceToggle; EvProbe 0%nat micGranted false;
                          EvRecStart 0%nat; EvRecError 0%nat ErrOther;
                          EvVoiceToggle; EvVoiceToggle;
                          EvProbe 1%nat micGranted false; EvRecStart 1%nat;
                          EvRecResult 1%nat (finalResult "hello")] in
  let cb := Some HandleVoiceConversation in
  let env := startListeningEnv (rt w) in
  let w' := exec (startListening_resume desktop cb env true false) w in
  let n := nextRec (rt w) in
  reachable desktop 0 w
  /\ recognitionRef (hook w) = Some 1%nat
  /\ List.map (fun t => (t_due t, t_action t)) (timers (rt w))
     = [(1000, TaResetProcessing); (300, TaSilence (lit "hello"))]
  /\ List.map (fun t => (t_due t, t_action t)) (timers (rt w'))
     = [(1000, TaResetProcessing)]
  /\ List.map (fun x => (fst x, rec_status (snd x))) (recognizers (rt w'))
     = [(0%nat, RsStarted); (1%nat, RsAborted); (2%nat, RsStarted)]
  /\ recognitionRef (hook w') = Some n
  /\ lookupRec n (recognizers (rt w'))
     = Some (configuredRecognizer desktop env RsStarted)
  /\ isVoiceModeRef (hook w') = isSome cb /\ onSpeechEndRef (hook w') = cb
  /\ finalTranscriptRef (hook w') = [] /\ isProcessingRef (hook w') = false
  /\ lastProcessedTextRef (hook w') = []
  /\ timeoutRef (hook w') = None /\ silenceTimeoutRef (hook w') = None
  /\ timers (rt w') = filter isUntracked (timers (rt w))
  /\ (forall r0 x, recognitionRef (hook w) = Some r0 ->
        lookupRec r0 (recognizers (rt w')) = Some x ->
        recDelivers (rec_status x) true = false).
Proof.
  cbv zeta.
  match goal with |- reachable _ _ ?w /\ _ =>
    assert (Hr : reachable desktop 0 w)
      by (exists [EvVoiceToggle; EvProbe 0%nat micGranted false; EvRecStart 0%nat;
                  EvRecError 0%nat ErrOther; EvVoiceToggle; EvVoiceToggle;
                  EvProbe 1%nat micGranted false; EvRecStart 1%nat;
                  EvRecResult 1%nat (finalResult "hello")];
          vm_compute; reflexivity)
  end.
  split; [exact Hr|]. split; [vm_compute; reflexivity|].
  split; [vm_compute; reflexivity|]. split; [vm_compute; reflexivity|].
  split; [vm_compute; reflexivity|].
  exact (start_replaces_the_tracked_recognizer desktop 0
           (Some HandleVoiceConversation) _ _ Hr eq_refl).
Defined.

(** X17. When [start()] throws, the hook is left idle: it does not
    listen, tracks no recognizer and its latch is clear.  The recognizer
    that was created is configured but was never started; the mode flag
    and the callback of the call stay set, and no cell of the component
    changes, so a page in voice mode stays in voice mode with nothing
    listening. *)
Theorem failed_start_leaves_the_hook_idle
    (B : Browser) (t0 : Z) (cb : option Callback) (env : Captured) (w : World) :
  reachable B t0 w -> hasSpeechRecognition B = true ->
  let w' := exec (startListening_resume B cb env true true) w in
  isListening (hook w') = false /\ recognitionRef (hook w') = None
  /\ isProcessingRef (hook w') = false
  /\ lookupRec (nextRec (rt w)) (recognizers (rt w'))
     = Some (configuredRecognizer B env RsNew)
  /\ isVoiceModeRef (hook w') = isSome cb /\ onSpeechEndRef (hook w') = cb
  /\ app w' = app w /\ alerts (rt w') = alerts (rt w).
Proof.
  intros Hr HB. apply recFresh_reachable in Hr. rec_fresh_open.
  cbv zeta. unfold configuredRecognizer.
  break_worlds. unfold_handlers. rewrite HB. cbn [negb].
  repeat (case_step; unfold_handlers); try excluded; cbn in *;
    rewrite ?lookupRec_updateRec_same;
    rewrite ?lookupRec_snoc_fresh
      by (repeat apply Forall_fst_updateRec; assumption);
    repeat split; reflexivity.
Qed.

Lemma failed_start_leaves_the_hook_idle_witness :
  let w := after desktop [EvVoiceToggle] in
  let cb := Some HandleVoiceConversation in
  let env := startListeningEnv (rt w) in
  let w' := exec (startListening_resume desktop cb env true true) w in
  reachable desktop 0 w /\ isVoiceMode (app w') = true
  /\ isListening (hook w') = false /\ recognitionRef (hook w') = None
  /\ isProcessingRef (hook w') = false
  /\ lookupRec (nextRec (rt w)) (recognizers (rt w'))
     = Some (configuredRecognizer desktop env RsNew)
  /\ isVoiceModeRef (hook w') = isSome cb /\ onSpeechEndRef (hook w') = cb
  /\ app w' = app w /\ alerts (rt w') = alerts (rt w).
Proof.
  cbv zeta.
  match goal with |- reachable _ _ ?w /\ _ =>
    assert (Hr : reachable desktop 0 w)
      by (exists [EvVoiceToggle]; vm_compute; reflexivity)
  end.
  split; [exact Hr|]. split; [vm_compute; reflexivity|].
  exact (failed_start_leaves_the_hook_idle desktop 0
           (Some HandleVoiceConversation) _ _ Hr eq_refl).
Defined.

(* ------------------------------------------------------------------ *)
(** ** Where the platform has a recognizer *)
(* ------------------------------------------------------------------ *)

Lemma support_renderPass (B : Browser) : keeps (supportKnown B) renderPass.
Proof.
  intros w [H1 H2]. unfold supportKnown in *.
  break_worlds. unfold_handlers.
  repeat (case_step; unfold_handlers); cbn in *; try (split; congruence).
  all: rewrite H1, H2 in *; destruct (hasSpeechRecognition B); discriminate.
Qed.

Lemma support_handlerOf (B : Browser) (w : World) (e : Event) (h : M unit) :
  handlerOf B w e = Some h -> keeps (supportKnown B) h.
Proof. intros He. destruct e; handlerOf_inv He; kept. Qed.

Lemma support_reachable (B : Browser) (t0 : Z) (w : World) :
  reachable B t0 w -> supportKnown B w.
Proof.
  apply invariant_reachable.
  - intros v e h K _ He. exact (support_handlerOf B v e h He v K).
  - exact (support_renderPass B).
  - destruct B as [m [] s]; vm_compute; tauto.
Qed.

(** X18. Where the platform has a recognizer, the hook reports support
    from the first render on and the [startListening] closure is rebuilt
    with it: in every world the page can reach, a call of
    [startListening] passes its first test and suspends on the permission
    probe, with the callback it was given. *)
Theorem startListening_reaches_the_probe
    (B : Browser) (t0 : Z) (w : World) (cb : option Callback) :
  hasSpeechRecognition B = true -> reachable B t0 w ->
  isSupported (hook w) = true
  /\ probes (rt (exec (startListening cb) w))
     = probes (rt w) ++ [mkProbe (nextProbe (rt w)) cb (startListeningEnv (rt w))].
Proof.
  intros HB Hr. destruct (support_reachable B t0 w Hr) as [J1 J2].
  rewrite HB in J1, J2. split; [exact J1|].
  handler; cbn in *; congruence.
Qed.

Lemma startListening_reaches_the_probe_witness :
  let w := after desktop replySpoken in
  hasSpeechRecognition desktop = true /\ reachable desktop 0 w
  /\ isSupported (hook w) = true
  /\ probes (rt (exec (startListening None) w))
     = probes (rt w) ++ [mkProbe (nextProbe (rt w)) None (startListeningEnv (rt w))].
Proof.
  cbv zeta.
  assert (Hr : reachable desktop 0 (after desktop replySpoken))
    by (exists replySpoken; vm_compute; reflexivity).
  split; [reflexivity|]. split; [exact Hr|].
  exact (startListening_reaches_the_probe desktop 0 _ None eq_refl Hr).
Defined.

(* ------------------------------------------------------------------ *)
(** ** Recognizer errors and stopping *)
(* ------------------------------------------------------------------ *)

(** X19. After a recognizer error the hook is idle (it does not listen
    and tracks no recognizer) and a timer is armed that releases the
    latch one second later.  The alert is shown for [not-allowed] only.
    Only [no-speech] on a phone, in voice mode and with the latch clear,
    arms a restart, one second later; on a desktop no error arms one.  No
    cell of the component changes and no call is issued. *)
Theorem recognizer_error_leaves_the_hook_idle
    (B : Browser) (r : RecId) (error : RecError) (w : World) :
  let w' := exec (onerror B r error) w in
  let n := nextTimer (rt w) in
  let due := now (rt w) + 1000 in
  let restart :=
    match error with
    | ErrNoSpeech =>
        isMobile B && isVoiceModeRef (hook w) && negb (isProcessingRef (hook w))
    | _ => false
    end in
  isListening (hook w') = false /\ recognitionRef (hook w') = None
  /\ app w' = app w /\ calls (rt w') = calls (rt w)
  /\ alerts (rt w')
     = alerts (rt w)
       ++ match error with ErrNotAllowed => [micDeniedAlert] | _ => [] end
  /\ timers (rt w')
     = timers (rt (exec (clearAutoStop r) w))
       ++ (if restart
           then [mkTimer n 1000 due TaNoSpeechRestart;
                 mkTimer (S n) 1000 due TaResetProcessing]
           else [mkTimer n 1000 due TaResetProcessing]).
Proof.
  cbv zeta. destruct error; handler; cbn [app];
    rewrite <- ?app_assoc, ?app_nil_r; repeat split; reflexivity.
Qed.

(** X20. [stopListening] clears the mode flag and the callback, so the
    restart timers that may still be pending do nothing when they run:
    neither the timer of [restartListening] nor the restart after
    [no-speech], which is kept in no cell and cannot be cleared, calls
    [startListening].  Stopping again changes nothing. *)
Theorem stopped_hook_is_not_restarted (w : World) :
  let v := exec stopListening w in
  exec (restartTimer HandleVoiceConversation) v = v
  /\ exec noSpeechRestartTimer v = v
  /\ exec stopListening v = v
  /\ isListening (hook v) = false /\ recognitionRef (hook v) = None.
Proof. cbv zeta. repeat split; handler; reflexivity. Qed.

(* ------------------------------------------------------------------ *)
(** ** Replies that are not spoken *)
(* ------------------------------------------------------------------ *)

(** X21. A reply of a voice turn that is empty, or that arrives when the
    voice-mode flag is off, is appended to the transcript and not
    spoken: the guard and the loading flag are released at once; with the
    flag on, the 1000 ms timer of the restart is armed, and with the flag
    off nothing is armed. *)
Theorem unspoken_voice_reply (w : World) (data : ChatResponse) :
  truthy (textResponse data) = false \/ voiceModeRef (app w) = false ->
  let w' := exec (handleVoiceConversation_resolved data) w in
  let t := now (rt w) in
  messages (app w')
  = messages (app w)
    ++ [botMessage (orElse (resp_id data) (toString t)) (textResponse data) t]
  /\ playbacks (rt w') = playbacks (rt w) /\ utterance (rt w') = utterance (rt w)
  /\ currentBotSpeech (app w') = currentBotSpeech (app w)
  /\ isProcessingVoiceRef (app w') = false /\ isLoading (app w') = false
  /\ timers (rt w')
     = timers (rt w)
       ++ (if voiceModeRef (app w)
           then [mkTimer (nextTimer (rt w)) 1000 (t + 1000) TaVoiceRestart]
           else []).
Proof.
  intros H. cbv zeta. unfold botMessage.
  destruct H as [H|H]; break_worlds; unfold_handlers; rewrite ?H;
    cbn [andb]; rewrite ?andb_false_r;
    repeat (case_step; unfold_handlers); try excluded;
    rewrite ?app_nil_r; repeat split; reflexivity.
Qed.

Lemma unspoken_voice_reply_witness :
  let w := after desktop (awaitingReply ++ [EvVoiceToggle]) in
  let data := mkResponse None (lit "hi there") in
  let w' := exec (handleVoiceConversation_resolved data) w in
  let t := now (rt w) in
  List.length (calls (rt w)) = 1%nat /\ voiceModeRef (app w) = false
  /\ messages (app w')
     = messages (app w)
       ++ [botMessage (orElse (resp_id data) (toString t)) (textResponse data) t]
  /\ playbacks (rt w') = playbacks (rt w) /\ utterance (rt w') = utterance (rt w)
  /\ currentBotSpeech (app w') = currentBotSpeech (app w)
  /\ isProcessingVoiceRef (app w') = false /\ isLoading (app w') = false
  /\ timers (rt w')
     = timers (rt w)
       ++ (if voiceModeRef (app w)
           then [mkTimer (nextTimer (rt w)) 1000 (t + 1000) TaVoiceRestart]
           else []).
Proof.
  cbv zeta. split; [vm_compute; reflexivity|]. split; [vm_compute; reflexivity|].
  apply (unspoken_voice_reply _ (mkResponse None (lit "hi there"))).
  right. vm_compute. reflexivity.
Defined.

(* ------------------------------------------------------------------ *)
(** ** Replies to a text message *)
(* ------------------------------------------------------------------ *)

(** Rendering leaves the transcript, the loading flag, the timers, the
    calls and the speaker as they are. *)
Lemma render_frame (w : World) :
  let w' := exec render w in
  messages (app w') = messages (app w) /\ isLoading (app w') = isLoading (app w)
  /\ timers (rt w') = timers (rt w) /\ calls (rt w') = calls (rt w)
  /\ playbacks (rt w') = playbacks (rt w).
Proof.
  assert (H : keeps (fun v => messages (app v) = messages (app w)
                              /\ isLoading (app v) = isLoading (app w)
                              /\ timers (rt v) = timers (rt w)
                              /\ calls (rt v) = calls (rt w)
                              /\ playbacks (rt v) = playbacks (rt w)) render)
    by kept.
  exact (H w (conj eq_refl (conj eq_refl (conj eq_refl (conj eq_refl eq_refl))))).
Qed.

(** X22. When the call of a text message succeeds, the reply is appended
    to the transcript as a bot message (with the identifier of the
    response, or the time when it has none) and the loading flag is
    cleared.  Nothing is spoken at once: when automatic speaking was on
    at the moment the message was sent, whatever it is now, and the reply
    is not empty, a timer is armed that speaks it 500 ms later. *)
Theorem text_reply_is_appended
    (B : Browser) (c : CallId) (x : PendingCall) (a : bool)
    (data : ChatResponse) (w w' : World) :
  findCall c w = Some x -> call_k x = KSend a ->
  step B (EvResolve c data) w = Some w' ->
  let t := now (rt w) in
  messages (app w')
  = messages (app w)
    ++ [botMessage (orElse (resp_id data) (toString t)) (textResponse data) t]
  /\ isLoading (app w') = false
  /\ playbacks (rt w') = playbacks (rt w)
  /\ timers (rt w')
     = timers (rt w)
       ++ (if a && truthy (textResponse data)
           then [mkTimer (nextTimer (rt w)) 500 (t + 500)
                   (TaAutoSpeak (textResponse data))]
           else [])
  /\ calls (rt w') = filter (fun y => negb (call_id y =? c)%nat) (calls (rt w)).
Proof.
  intros Hf Hk Hs. cbv zeta. unfold step in Hs.
  destruct (offered B w (EvResolve c data)); [|discriminate].
  cbn [handlerOf] in Hs. rewrite Hf, Hk in Hs. injection Hs as <-.
  rewrite exec_bind.
  match goal with
  | |- context [exec render ?v] =>
      destruct (render_frame v) as [-> [-> [-> [-> ->]]]]
  end.
  clear Hf Hk. unfold botMessage.
  handler; rewrite ?app_nil_r; repeat split; reflexivity.
Qed.

Lemma text_reply_is_appended_witness :
  let w := after desktop (textInFlight ++ [EvAutoSpeakToggle]) in
  let data := mkResponse None (lit "hello") in
  let w' := after desktop (textInFlight ++ [EvAutoSpeakToggle; EvResolve 0%nat data]) in
  let t := now (rt w) in
  autoSpeak (app w) = false
  /\ messages (app w')
     = messages (app w)
       ++ [botMessage (orElse (resp_id data) (toString t)) (textResponse data) t]
  /\ isLoading (app w') = false
  /\ playbacks (rt w') = playbacks (rt w)
  /\ timers (rt w')
     = timers (rt w)
       ++ (if true && truthy (textResponse data)
           then [mkTimer (nextTimer (rt w)) 500 (t + 500)
                   (TaAutoSpeak (textResponse data))]
           else [])
  /\ calls (rt w') = filter (fun y => negb (call_id y =? 0)%nat) (calls (rt w)).
Proof.
  cbv zeta. split; [vm_compute; reflexivity|].
  apply (text_reply_is_appended desktop 0%nat
           (mkCall 0%nat (mkRequest (lit "hi") chatMode sessionId None None)
              (KSend true)) true (mkResponse None (lit "hello")));
    vm_compute; reflexivity.
Defined.

(** X23. When the call of a text message fails, a bot message is
    appended whose text is the error's own message for a [ChatApiError]
    and the fixed fallback text otherwise, and the loading flag is
    cleared.  Nothing is spoken and no timer is armed, whether automatic
    speaking is on or not, and the call is not issued again. *)
Theorem text_call_failure_is_reported
    (B : Browser) (c : CallId) (x : PendingCall) (a : bool)
    (error : CallError) (w w' : World) :
  findCall c w = Some x -> call_k x = KSend a ->
  step B (EvReject c error) w = Some w' ->
  let t := now (rt w) in
  messages (app w')
  = messages (app w) ++ [botMessage (toString t) (errorMessageOf error) t]
  /\ isLoading (app w') = false
  /\ playbacks (rt w') = playbacks (rt w)
  /\ timers (rt w') = timers (rt w)
  /\ calls (rt w') = filter (fun y => negb (call_id y =? c)%nat) (calls (rt w)).
Proof.
  intros Hf Hk Hs. cbv zeta. unfold step in Hs.
  destruct (offered B w (EvReject c error)); [|discriminate].
  cbn [handlerOf] in Hs. rewrite Hf, Hk in Hs. injection Hs as <-.
  rewrite exec_bind.
  match goal with
  | |- context [exec render ?v] =>
      destruct (render_frame v) as [-> [-> [-> [-> ->]]]]
  end.
  clear Hf Hk. unfold botMessage.
  handler; repeat split; reflexivity.
Qed.

Lemma text_call_failure_is_reported_witness :
  let w := after desktop textInFlight in
  let error := OtherError in
  let w' := after desktop (textInFlight ++ [EvReject 0%nat error]) in
  let t := now (rt w) in
  autoSpeak (app w) = true
  /\ List.map msg_message (messages (app w')) = [lit "hi"; fallbackErrorMessage]
  /\ messages (app w')
     = messages (app w) ++ [botMessage (toString t) (errorMessageOf error) t]
  /\ isLoading (app w') = false
  /\ playbacks (rt w') = playbacks (rt w)
  /\ timers (rt w') = timers (rt w)
  /\ calls (rt w') = filter (fun y => negb (call_id y =? 0)%nat) (calls (rt w)).
Proof.
  cbv zeta. split; [vm_compute; reflexivity|]. split; [vm_compute; reflexivity|].
  apply (text_call_failure_is_reported desktop 0%nat
           (mkCall 0%nat (mkRequest (lit "hi") chatMode sessionId None None)
              (KSend true)) true OtherError);
    vm_compute; reflexivity.
Defined.

(* ------------------------------------------------------------------ *)
(** ** Leaving voice mode with a transcript on display *)
(* ------------------------------------------------------------------ *)

(** One render right after voice mode was left with a transcript: the
    manual-microphone effect fires, because [isVoiceMode] changed. *)
Lemma renderPass_voiceExit (w : World) :
  dep_isVoiceMode (depsSeen (rt w)) = true ->
  isListening (hook w) = false ->
  isVoiceMode (app w) = false ->
  transcript (hook w) <> [] ->
  let w1 := exec renderPass w in
  input (app w1) = input (app w) ++ transcript (hook w)
  /\ transcript (hook w1) = [].
Proof.
  intros Hseen Hl Hv Ht. apply truthy_true in Ht. cbv zeta.
  break_worlds.
  unfold renderPass. unfold_handlers.
  repeat (case_step; unfold_handlers; rewrite ?Ht;
          cbn [Bool.eqb negb andb orb]; rewrite ?orb_true_r);
    repeat split; reflexivity.
Qed.

Lemma handleVoiceToggle_exit_effect (w : World) :
  isVoiceMode (app w) = true ->
  let w1 := exec handleVoiceToggle w in
  isVoiceMode (app w1) = false /\ isListening (hook w1) = false
  /\ depsSeen (rt w1) = depsSeen (rt w)
  /\ transcript (hook w1) = transcript (hook w)
  /\ input (app w1) = input (app w).
Proof. intros Hv. cbv zeta. handler; repeat split; reflexivity. Qed.

(** Every turn of the event loop ends with the renders it causes, so the
    effects have seen the current values in every world the page can
    reach. *)
Lemma settled_reachable (B : Browser) (t0 : Z) (w : World) :
  reachable B t0 w -> settled w.
Proof.
  intros [es Hr].
  assert (H0 : settled (mounted B t0)).
  { unfold mounted. rewrite exec_bind. apply render_reaches_fixed_point. }
  revert Hr H0. generalize (mounted B t0).
  induction es as [|e es IH]; cbn [run]; intros v Hr Hv.
  - now injection Hr as <-.
  - destruct (step B e v) as [v1|] eqn:Hs; [|discriminate].
    apply (IH v1 Hr). unfold step in Hs.
    destruct (offered B v e); [|discriminate].
    destruct (handlerOf B v e) as [h|]; [|discriminate].
    injection Hs as <-. rewrite exec_bind. apply render_reaches_fixed_point.
Qed.

(** X24. The exit branch of [handleVoiceToggle] stops the hook but does
    not reset its transcript, and the manual-microphone effect runs
    whenever [isVoiceMode] changes: when the user leaves voice mode while
    a transcript is on display, the render that follows appends that
    transcript to the text input and then resets it. *)
Theorem leaving_voice_mode_moves_transcript_to_input
    (B : Browser) (t0 : Z) (w w' : World) :
  reachable B t0 w -> isVoiceMode (app w) = true -> transcript (hook w) <> [] ->
  step B EvVoiceToggle w = Some w' ->
  isVoiceMode (app w') = false
  /\ input (app w') = input (app w) ++ transcript (hook w)
  /\ transcript (hook w') = [].
Proof.
  intros Hs Hv Ht Hstep. apply settled_reachable in Hs. unfold settled in Hs.
  assert (Hseen : dep_isVoiceMode (depsSeen (rt w)) = true)
    by (rewrite Hs; exact Hv).
  unfold step in Hstep. destruct (offered B w EvVoiceToggle); [|discriminate].
  cbn [handlerOf] in Hstep. injection Hstep as <-.
  rewrite exec_bind. unfold render. rewrite exec_bind.
  destruct (handleVoiceToggle_exit_effect w Hv) as [Hv1 [Hl1 [Hd [Htr Hi]]]].
  set (w1 := exec handleVoiceToggle w) in *.
  destruct (renderPass_voiceExit w1) as [Hi2 Hnil]; try congruence.
  destruct (renderPass_quiet (exec renderPass w1) Hnil) as [Hi3 [Hnil3 _]].
  assert (Hvm : keeps (fun v => isVoiceMode (app v) = false) renderPass) by kept.
  split; [exact (Hvm _ (Hvm _ Hv1))|].
  rewrite Hi3, Hi2, Hi, Htr. split; [reflexivity | exact Hnil3].
Qed.

Lemma leaving_voice_mode_moves_transcript_to_input_witness :
  let es := [EvInput (lit "note: "); EvVoiceToggle;
             EvProbe 0%nat micGranted false; EvRecStart 0%nat;
             EvRecResult 0%nat (mkResultEvent [mkResult false (lit "buy mi")] 0)] in
  let w := after desktop es in
  let w' := after desktop (es ++ [EvVoiceToggle]) in
  reachable desktop 0 w
  /\ transcript (hook w) = lit "buy mi"
  /\ input (app w') = lit "note: buy mi"
  /\ isVoiceMode (app w') = false
  /\ input (app w') = input (app w) ++ transcript (hook w)
  /\ transcript (hook w') = [].
Proof.
  cbv zeta.
  match goal with |- reachable _ _ ?w /\ _ =>
    assert (Hr : reachable desktop 0 w)
      by (exists [EvInput (lit "note: "); EvVoiceToggle;
                  EvProbe 0%nat micGranted false; EvRecStart 0%nat;
                  EvRecResult 0%nat
                    (mkResultEvent [mkResult false (lit "buy mi")] 0)];
          vm_compute; reflexivity)
  end.
  split; [exact Hr|]. split; [vm_compute; reflexivity|].
  split; [vm_compute; reflexivity|].
  apply (leaving_voice_mode_moves_transcript_to_input desktop 0 _ _ Hr);
    try (vm_compute; reflexivity).
  vm_compute. discriminate.
Defined.

(* ------------------------------------------------------------------ *)
(** ** The duplicate filter lasts one turn *)
(* ------------------------------------------------------------------ *)

Lemma str_eqb_nil_r (s : JsString) : truthy s = true -> str_eqb s [] = false.
Proof. destruct s; [discriminate | reflexivity]. Qed.

(** X25. [resetTranscript] and [restartListening] release the latch and
    forget the text processed last: right after either of them, any text
    of at least two characters is accepted by [processVoiceResult], also
    the one that was processed just before, and handed to the callback
    100 ms later. *)
Theorem reset_reopens_the_duplicate_filter
    (w : World) (text : JsString) (cb : Callback) :
  2 <= len (trim text) ->
  (forall v, v = exec resetTranscript w \/ v = exec (restartListening cb) w ->
     let v' := exec (processVoiceResult text) v in
     isProcessingRef (hook v') = true
     /\ lastProcessedTextRef (hook v') = trim text
     /\ (forall callback, onSpeechEndRef (hook w) = Some callback ->
           timers (rt v')
           = timers (rt v)
             ++ [mkTimer (nextTimer (rt v)) 100 (now (rt v) + 100)
                   (TaCallback callback (trim text))])).
Proof.
  intros Hl v Hv. cbv zeta.
  assert (Ht : truthy (trim text) = true)
    by (destruct (trim text); [cbn in Hl; lia | reflexivity]).
  assert (Hn : str_eqb (trim text) [] = false) by (apply str_eqb_nil_r; exact Ht).
  assert (Hs : (len (trim text) <? 2) = false) by (apply Z.ltb_ge; exact Hl).
  destruct Hv as [-> | ->]; break_worlds; unfold_handlers;
    rewrite ?Ht, ?Hn, ?Hs; cbn [negb orb];
    repeat (case_step; unfold_handlers; rewrite ?Ht, ?Hn, ?Hs; cbn [negb orb]);
    try excluded; repeat split; try reflexivity;
    intros callback Hc; try discriminate;
    repeat match goal with c : Callback |- _ => destruct c end; reflexivity.
Qed.

Lemma reset_reopens_the_duplicate_filter_witness :
  let w := exec (processVoiceResult (lit "hello"))
             (after desktop [EvVoiceToggle; EvProbe 0%nat micGranted false;
                             EvRecStart 0%nat]) in
  let v := exec resetTranscript w in
  let v' := exec (processVoiceResult (lit "hello")) v in
  lastProcessedTextRef (hook w) = lit "hello"
  /\ isProcessingRef (hook v') = true
  /\ lastProcessedTextRef (hook v') = trim (lit "hello")
  /\ (forall callback, onSpeechEndRef (hook w) = Some callback ->
        timers (rt v')
        = timers (rt v)
          ++ [mkTimer (nextTimer (rt v)) 100 (now (rt v) + 100)
                (TaCallback callback (trim (lit "hello")))]).
Proof.
  cbv zeta. split; [vm_compute; reflexivity|].
  apply (reset_reopens_the_duplicate_filter _ (lit "hello") HandleVoiceConversation).
  - vm_compute. discriminate.
  - left. reflexivity.
Defined.

(* ------------------------------------------------------------------ *)
(** ** A permission probe that is answered after voice mode was left *)
(* ------------------------------------------------------------------ *)

Lemma run_snoc (B : Browser) (es : list Event) (e : Event) (w w1 w2 : World) :
  run B es w = Some w1 -> step B e w1 = Some w2 -> run B (es ++ [e]) w = Some w2.
Proof.
  revert w. induction es as [|x es IH]; cbn [run List.app]; intros w Hr Hs.
  - injection Hr as ->. now rewrite Hs.
  - destruct (step B x w) as [v|]; [|discriminate]. exact (IH v Hr Hs).
Qed.

Lemma reachable_step (B : Browser) (t0 : Z) (e : Event) (w w' : World) :
  reachable B t0 w -> step B e w = Some w' -> reachable B t0 w'.
Proof.
  intros [es Hr] Hs. exists (es ++ [e]). exact (run_snoc B es e _ w w' Hr Hs).
Qed.

Lemma handleVoiceToggle_exit_probes (w : World) :
  isVoiceMode (app w) = true ->
  probes (rt (exec handleVoiceToggle w)) = probes (rt w)
  /\ isVoiceMode (app (exec handleVoiceToggle w)) = false.
Proof. intros Hv. handler; split; reflexivity. Qed.

(** X26. [startListening] does not look at the component after its
    [await], and leaving voice mode does not withdraw a permission probe
    that is pending: in every world the page can reach in voice mode
    with a probe of the voice loop pending, the user can leave voice mode
    and the probe can be granted afterwards, and then a recognizer is
    started and tracked with the hook in voice mode and the voice
    callback set, while the page is on the chat screen. *)
Theorem pending_probe_outlives_voice_exit
    (B : Browser) (t0 : Z) (w : World) (p : ProbeId) (x : PendingProbe)
    (answer : MicProbe) :
  hasSpeechRecognition B = true -> reachable B t0 w ->
  isVoiceMode (app w) = true -> findProbe p w = Some x ->
  probe_onSpeechEnd x = Some HandleVoiceConversation ->
  checkMicrophonePermission answer = true ->
  exists w1 w2,
    step B EvVoiceToggle w = Some w1
    /\ step B (EvProbe p answer false) w1 = Some w2
    /\ isVoiceMode (app w1) = false /\ isVoiceMode (app w2) = false
    /\ isVoiceModeRef (hook w2) = true
    /\ onSpeechEndRef (hook w2) = Some HandleVoiceConversation
    /\ exists r, recognitionRef (hook w2) = Some r
         /\ lookupRec r (recognizers (rt w2))
            = Some (configuredRecognizer B (probe_env x) RsStarted).
Proof.
  intros HB Hr Hv Hf Hcb Hok.
  assert (Hs1 : step B EvVoiceToggle w
                = Some (exec render (exec handleVoiceToggle w))).
  { unfold step. cbn [offered handlerOf]. rewrite Hv. cbn [orb].
    now rewrite exec_bind. }
  set (w1 := exec render (exec handleVoiceToggle w)) in *.
  destruct (handleVoiceToggle_exit_probes w Hv) as [Hp Hv0].
  assert (K1 : probes (rt w1) = probes (rt w) /\ isVoiceMode (app w1) = false).
  { assert (K : keeps (fun u => probes (rt u) = probes (rt w)
                               /\ isVoiceMode (app u) = false) render) by kept.
    exact (K _ (conj Hp Hv0)). }
  destruct K1 as [Hp1 Hv1].
  assert (Hf1 : findProbe p w1 = Some x).
  { unfold findProbe in *. now rewrite Hp1. }
  pose proof (recFresh_reachable B t0 w1 (reachable_step B t0 _ w w1 Hr Hs1))
    as Hfresh.
  set (h2 := dropProbe p ;;
             startListening_resume B (probe_onSpeechEnd x) (probe_env x)
               (checkMicrophonePermission answer) false).
  assert (Hs2 : step B (EvProbe p answer false) w1
                = Some (exec render (exec h2 w1))).
  { unfold step. cbn [offered handlerOf]. rewrite Hf1.
    now rewrite exec_bind. }
  exists w1, (exec render (exec h2 w1)).
  split; [exact Hs1|]. split; [exact Hs2|]. split; [exact Hv1|].
  subst h2. rewrite exec_bind, Hcb, Hok.
  set (v := exec (dropProbe p) w1).
  assert (Hv' : recognizersFresh v /\ app v = app w1).
  { subst v. clear -Hfresh. destruct w1 as [a hk []].
    split; [exact Hfresh | reflexivity]. }
  destruct Hv' as [Hfv Hav].
  pose proof (startListening_resume_granted B (Some HandleVoiceConversation)
                (probe_env x) v Hfv HB) as G.
  cbv zeta in G.
  destruct G as [G1 [G2 [G3 [G4 [_ [_ [_ [_ [_ [_ G5]]]]]]]]]].
  set (v' := exec (startListening_resume B _ _ true false) v) in *.
  assert (K : keeps (fun u => isVoiceMode (app u) = false
                              /\ isVoiceModeRef (hook u) = true
                              /\ onSpeechEndRef (hook u)
                                 = Some HandleVoiceConversation
                              /\ recognitionRef (hook u) = Some (nextRec (rt v))
                              /\ lookupRec (nextRec (rt v)) (recognizers (rt u))
                                 = Some (configuredRecognizer B (probe_env x)
                                           RsStarted)) render) by kept.
  destruct (K v') as [R1 [R2 [R3 [R4 R5]]]].
  { repeat split; try assumption. now rewrite G5, Hav. }
  repeat split; try assumption. exists (nextRec (rt v)). split; assumption.
Qed.

Lemma pending_probe_outlives_voice_exit_witness :
  let w := after desktop [EvVoiceToggle] in
  let x := mkProbe 0%nat (Some HandleVoiceConversation) (mkCaptured true false) in
  hasSpeechRecognition desktop = true /\ reachable desktop 0 w
  /\ isVoiceMode (app w) = true /\ findProbe 0%nat w = Some x
  /\ exists w1 w2,
       step desktop EvVoiceToggle w = Some w1
       /\ step desktop (EvProbe 0%nat micGranted false) w1 = Some w2
       /\ isVoiceMode (app w1) = false /\ isVoiceMode (app w2) = false
       /\ isVoiceModeRef (hook w2) = true
       /\ onSpeechEndRef (hook w2) = Some HandleVoiceConversation
       /\ exists r, recognitionRef (hook w2) = Some r
            /\ lookupRec r (recognizers (rt w2))
               = Some (configuredRecognizer desktop (probe_env x) RsStarted).
Proof.
  cbv zeta.
  assert (Hr : reachable desktop 0 (after desktop [EvVoiceToggle]))
    by (exists [EvVoiceToggle]; vm_compute; reflexivity).
  assert (Hv : isVoiceMode (app (after desktop [EvVoiceToggle])) = true)
    by (vm_compute; reflexivity).
  assert (Hf : findProbe 0%nat (after desktop [EvVoiceToggle])
               = Some (mkProbe 0%nat (Some HandleVoiceConversation)
                         (mkCaptured true false)))
    by (vm_compute; reflexivity).
  split; [reflexivity|]. split; [exact Hr|]. split; [exact Hv|].
  split; [exact Hf|].
  exact (pending_probe_outlives_voice_exit desktop 0 _ 0%nat _ micGranted
           eq_refl Hr Hv Hf eq_refl eq_refl).
Defined.

(* ------------------------------------------------------------------ *)
(** ** Asking for recognition *)
(* ------------------------------------------------------------------ *)

Lemma render_quiet (w : World) :
  transcript (hook w) = [] -> transcript (hook (exec render w)) = [].
Proof.
  intros Ht. unfold render. rewrite exec_bind.
  destruct (renderPass_quiet w Ht) as [_ [Q1 _]].
  destruct (renderPass_quiet (exec renderPass w) Q1) as [_ [Q2 _]]. exact Q2.
Qed.

Lemma handleVoiceToggle_enter (w : World) :
  isVoiceMode (app w) = false ->
  cap_isSupported (startListeningEnv (rt w)) = true ->
  let w1 := exec handleVoiceToggle w in
  isVoiceMode (app w1) = true /\ voiceModeRef (app w1) = true
  /\ isProcessingVoiceRef (app w1) = false
  /\ probes (rt w1)
     = probes (rt w)
       ++ [mkProbe (nextProbe (rt w)) (Some HandleVoiceConversation)
             (startListeningEnv (rt w))]
  /\ recognizers (rt w1) = recognizers (rt w)
  /\ isListening (hook w1) = isListening (hook w).
Proof.
  intros Hv Hc. cbv zeta. handler; cbn in *; try congruence;
    repeat split; reflexivity.
Qed.

Lemma handleManualVoiceInput_start (w : World) :
  isListening (hook w) = false ->
  cap_isSupported (startListeningEnv (rt w)) = true ->
  let w1 := exec handleManualVoiceInput w in
  probes (rt w1)
  = probes (rt w) ++ [mkProbe (nextProbe (rt w)) None (startListeningEnv (rt w))]
  /\ recognizers (rt w1) = recognizers (rt w)
  /\ isListening (hook w1) = false /\ transcript (hook w1) = []
  /\ app w1 = app w.
Proof.
  intros Hl Hc. cbv zeta. handler; cbn in *; try congruence;
    repeat split; reflexivity.
Qed.

(** X27. On a platform with a recognizer, entering voice mode and
    pressing the microphone button while nothing listens only ask for
    recognition: one permission probe is added, with the voice callback
    for voice mode and with none for the microphone button, and no
    recognizer is created, started or stopped before the probe is
    answered.  Entering voice mode sets the voice-mode state and flag and
    clears the guard; the microphone button resets the transcript and
    leaves the component as it is. *)
Theorem recognition_is_requested_not_started
    (B : Browser) (t0 : Z) (w w' : World) :
  hasSpeechRecognition B = true -> reachable B t0 w ->
  (isVoiceMode (app w) = false -> step B EvVoiceToggle w = Some w' ->
   isVoiceMode (app w') = true /\ voiceModeRef (app w') = true
   /\ isProcessingVoiceRef (app w') = false
   /\ probes (rt w')
      = probes (rt w)
        ++ [mkProbe (nextProbe (rt w)) (Some HandleVoiceConversation)
              (startListeningEnv (rt w))]
   /\ recognizers (rt w') = recognizers (rt w)
   /\ isListening (hook w') = isListening (hook w))
  /\ (isListening (hook w) = false -> step B EvManualVoiceInput w = Some w' ->
      probes (rt w')
      = probes (rt w)
        ++ [mkProbe (nextProbe (rt w)) None (startListeningEnv (rt w))]
      /\ recognizers (rt w') = recognizers (rt w)
      /\ isListening (hook w') = false /\ transcript (hook w') = []
      /\ isVoiceMode (app w') = false).
Proof.
  intros HB Hr. destruct (support_reachable B t0 w Hr) as [_ Hc].
  rewrite HB in Hc. split.
  - intros Hv Hs. unfold step in Hs.
    destruct (offered B w EvVoiceToggle); [|discriminate].
    cbn [handlerOf] in Hs. injection Hs as <-. rewrite exec_bind.
    destruct (handleVoiceToggle_enter w Hv Hc) as [E1 [E2 [E3 [E4 [E5 E6]]]]].
    set (w1 := exec handleVoiceToggle w) in *.
    assert (K : keeps (fun u => isVoiceMode (app u) = true
                                /\ isProcessingVoiceRef (app u) = false
                                /\ probes (rt u) = probes (rt w1)
                                /\ recognizers (rt u) = recognizers (rt w1)
                                /\ isListening (hook u) = isListening (hook w1))
                  render) by kept.
    destruct (K w1) as [R1 [R2 [R3 [R4 R5]]]]; [tauto|].
    change (snd (render w1)) with (exec render w1) in *.
    assert (D : voiceDisplayConsistent (exec render w1)).
    { unfold render. rewrite exec_bind.
      apply display_renderPass. apply display_renderPass.
      split; [unfold voiceModeMirrored; congruence|].
      intros Hf. congruence. }
    destruct D as [D _]. unfold voiceModeMirrored in D.
    repeat split; congruence.
  - intros Hl Hs. unfold step in Hs.
    destruct (offered B w EvManualVoiceInput) eqn:Ho; [|discriminate].
    cbn [handlerOf] in Hs. injection Hs as <-. rewrite exec_bind.
    destruct (handleManualVoiceInput_start w Hl Hc) as [E1 [E2 [E3 [E4 E5]]]].
    set (w1 := exec handleManualVoiceInput w) in *.
    assert (Hchat : isVoiceMode (app w) = false).
    { cbn [offered] in Ho. destruct (isVoiceMode (app w)); [discriminate Ho|].
      reflexivity. }
    assert (K : keeps (fun u => isVoiceMode (app u) = false
                                /\ probes (rt u) = probes (rt w1)
                                /\ recognizers (rt u) = recognizers (rt w1)
                                /\ isListening (hook u) = false)
                  render) by kept.
    destruct (K w1) as [R1 [R2 [R3 R4]]].
    { repeat split; try assumption. now rewrite E5. }
    change (snd (render w1)) with (exec render w1) in *.
    pose proof (render_quiet w1 E4) as Q.
    repeat split; congruence.
Qed.

Lemma recognition_is_requested_not_started_witness :
  let w := after desktop [EvInput (lit "hi")] in
  let w' := after desktop [EvInput (lit "hi"); EvVoiceToggle] in
  hasSpeechRecognition desktop = true /\ reachable desktop 0 w
  /\ isVoiceMode (app w) = false
  /\ step desktop EvVoiceToggle w = Some w'
  /\ isVoiceMode (app w') = true /\ voiceModeRef (app w') = true
  /\ isProcessingVoiceRef (app w') = false
  /\ probes (rt w')
     = probes (rt w)
       ++ [mkProbe (nextProbe (rt w)) (Some HandleVoiceConversation)
             (startListeningEnv (rt w))]
  /\ recognizers (rt w') = recognizers (rt w)
  /\ isListening (hook w') = isListening (hook w).
Proof.
  cbv zeta.
  assert (Hr : reachable desktop 0 (after desktop [EvInput (lit "hi")]))
    by (exists [EvInput (lit "hi")]; vm_compute; reflexivity).
  assert (Hv : isVoiceMode (app (after desktop [EvInput (lit "hi")])) = false)
    by (vm_compute; reflexivity).
  assert (Hs : step desktop EvVoiceToggle (after desktop [EvInput (lit "hi")])
               = Some (after desktop [EvInput (lit "hi"); EvVoiceToggle]))
    by (vm_compute; reflexivity).
  split; [reflexivity|]. split; [exact Hr|]. split; [exact Hv|].
  split; [exact Hs|].
  exact (proj1 (recognition_is_requested_not_started desktop 0 _ _ eq_refl Hr)
           Hv Hs).
Defined.

(* ------------------------------------------------------------------ *)
(** ** The reset control *)
(* ------------------------------------------------------------------ *)

(** C8. Whenever the reset control can be used, the reset operation runs:
    it leaves the message list empty and adds to the outstanding calls
    one request to the remote endpoint, whose reset flag is true. *)
Theorem reset_clears_and_notifies (B : Browser) (w : World) :
  offered B w EvResetChat = true ->
  exists w', step B EvResetChat w = Some w'
  /\ messages (app w') = []
  /\ calls (rt w') = calls (rt w) ++ [mkCall (nextCall (rt w)) resetRequest KReset]
  /\ req_reset resetRequest = Some true.
Proof.
  intros Ho. unfold step. rewrite Ho. cbn [handlerOf].
  eexists. split; [reflexivity|].
  assert (Hl : isLoading (app w) = false).
  { cbn [offered] in Ho. apply andb_true_iff in Ho. destruct Ho as [_ Ho].
    now apply negb_true_iff in Ho. }
  rewrite exec_bind.
  destruct (render_frame (exec handleResetChat w)) as [-> [_ [_ [-> _]]]].
  exact (handleResetChat_clears_and_notifies w Hl).
Qed.

Lemma reset_clears_and_notifies_witness :
  let w := after desktop textAnswered in
  List.map msg_message (messages (app w)) = [lit "hi"; lit "hello"]
  /\ exists w', step desktop EvResetChat w = Some w'
     /\ messages (app w') = []
     /\ calls (rt w') = calls (rt w) ++ [mkCall (nextCall (rt w)) resetRequest KReset]
     /\ req_reset resetRequest = Some true.
Proof.
  cbv zeta. split; [vm_compute; reflexivity|].
  apply (reset_clears_and_notifies desktop (after desktop textAnswered)).
  vm_compute. reflexivity.
Defined.

(* ------------------------------------------------------------------ *)
(** ** The manual microphone, whatever stops the hook *)
(* ------------------------------------------------------------------ *)

Lemma render_isListening (w : World) :
  isListening (hook (exec render w)) = isListening (hook w).
Proof.
  assert (H : keeps (fun v => isListening (hook v) = isListening (hook w)) render)
    by kept.
  exact (H w eq_refl).
Qed.

(** A render with an empty transcript changes neither the input nor the
    transcript. *)
Lemma render_nothing_to_append (w : World) :
  transcript (hook w) = [] ->
  input (app (exec render w)) = input (app w)
  /\ transcript (hook (exec render w)) = [].
Proof.
  intros Ht. unfold render. rewrite exec_bind.
  destruct (renderPass_quiet w Ht) as [Hi [Q1 _]].
  destruct (renderPass_quiet (exec renderPass w) Q1) as [Hi2 [Q2 _]].
  rewrite Hi2, Hi. split; [reflexivity | exact Q2].
Qed.

(** The hook after the handler of an event, outside voice mode and while
    it listens: either it still listens, or it has stopped as
    [stoppedWith] says. *)
Ltac still_listening :=
  left;
  match goal with
  | Hl : isListening (hook ?w) = true |- isListening (hook (exec ?h ?w)) = true =>
      let K := fresh "K" in
      assert (K : keeps (fun v => isListening (hook v) = true) h) by kept;
      exact (K w Hl)
  end.

Lemma listening_handlerOf (B : Browser) (w : World) (e : Event) (h : M unit) :
  isVoiceMode (app w) = false -> isListening (hook w) = true ->
  handlerOf B w e = Some h ->
  isListening (hook (exec h w)) = true \/ stoppedWith w e (exec h w).
Proof.
  intros Hv Hl He.
  assert (Kon : keeps (fun v => isListening (hook v) = true) (setIsListening true))
    by (intros v _; destruct v as [[] [] []]; reflexivity).
  destruct e; handlerOf_inv He.
  all: try still_listening.
  all: unfold stoppedWith, shownWhenStopped, transcriptAtEnd.
  all: clear Kon; handler;
    first [ left; reflexivity | right; repeat split; reflexivity ].
Qed.


(** C9, as the code has it.  Outside voice mode, on a rendered page
    whose hook is listening, take any event after whose step the hook no
    longer listens: the end of the recognizer, a recognizer error, a
    second press of the microphone button, a granted start that replaces
    the recognizer, or a reset of the chat.  After that step the
    transcript is empty, and the text input is what it was, typed text
    included, with the transcript of [shownWhenStopped] appended: the
    transcript [onend] leaves when the recognizer ended, which is the
    accumulated final text when there is one, the transcript on display
    after an error, the microphone button or a replaced recognizer, and
    nothing after a reset, which empties the transcript itself before the
    effect can run. *)
Theorem manual_transcript_reaches_input
    (B : Browser) (w w' : World) (e : Event) :
  settled w -> isVoiceMode (app w) = false -> isListening (hook w) = true ->
  step B e w = Some w' -> isListening (hook w') = false ->
  input (app w') = input (app w) ++ shownWhenStopped w e
  /\ transcript (hook w') = [].
Proof.
  intros Hs Hv Hl Hstep Hstop. unfold settled in Hs.
  assert (Hseen : dep_isListening (depsSeen (rt w)) = true)
    by (rewrite Hs; exact Hl).
  unfold step in Hstep.
  destruct (offered B w e); [|discriminate].
  destruct (handlerOf B w e) as [h|] eqn:He; [|discriminate].
  injection Hstep as <-. rewrite exec_bind in *.
  rewrite render_isListening in Hstop.
  destruct (listening_handlerOf B w e h Hv Hl He) as [Hon | Hoff].
  - rewrite Hon in Hstop. discriminate Hstop.
  - destruct Hoff as [Hl1 [Hv1 [Hd [Hi Ht]]]].
    destruct (transcript (hook (exec h w))) as [|c s] eqn:Hshown.
    + destruct (render_nothing_to_append (exec h w) Hshown) as [Hi2 Hnil].
      rewrite Hi2, Hi, <- Ht, app_nil_r. split; [reflexivity | exact Hnil].
    + destruct (render_manualMicrophone (exec h w)) as [Hi2 [Hnil _]].
      * now rewrite Hd.
      * exact Hl1.
      * exact Hv1.
      * rewrite Hshown. discriminate.
      * rewrite Hi2, Hi, Hshown, Ht. split; [reflexivity | exact Hnil].
Qed.

Lemma manual_transcript_reaches_input_witness :
  let w := after desktop dictating in
  let w' := after desktop (dictating ++ [EvRecEnd 0%nat]) in
  input (app w) = lit "note: "
  /\ shownWhenStopped w (EvRecEnd 0%nat) = lit "buy milk"
  /\ input (app w') = input (app w) ++ shownWhenStopped w (EvRecEnd 0%nat)
  /\ transcript (hook w') = [].
Proof.
  cbv zeta.
  split; [vm_compute; reflexivity|]. split; [vm_compute; reflexivity|].
  apply (manual_transcript_reaches_input desktop
           (after desktop dictating)
           (after desktop (dictating ++ [EvRecEnd 0%nat])) (EvRecEnd 0%nat)).
  - vm_compute. reflexivity.
  - vm_compute. reflexivity.
  - vm_compute. reflexivity.
  - vm_compute. reflexivity.
  - vm_compute. reflexivity.
Defined.

(** C9 as stated fails for a reset.  The user has typed "note: " and is
    dictating; the transcript on display is "buy milk".  Resetting the
    chat stops the hook, and the transcript is discarded: the text input
    still reads "note: " and the transcript is empty. *)
Lemma reset_discards_dictated_transcript :
  let w := after desktop dictating in
  let w' := after desktop resetWhileDictating in
  happens desktop resetWhileDictating
  /\ step desktop EvResetChat w = Some w'
  /\ isVoiceMode (app w) = false /\ isListening (hook w) = true
  /\ transcript (hook w) = lit "buy milk" /\ input (app w) = lit "note: "
  /\ isVoiceMode (app w') = false /\ isListening (hook w') = false
  /\ transcript (hook w') = []
  /\ input (app w') = lit "note: "
  /\ input (app w') <> input (app w) ++ transcript (hook w).
Proof. cbv zeta. concrete. Qed.

(* ------------------------------------------------------------------ *)
(** ** A short transcript on a phone *)
(* ------------------------------------------------------------------ *)

Lemma lookupRec_In (r : RecId) (l : list (RecId * Recognizer)) (x : Recognizer) :
  lookupRec r l = Some x -> In (r, x) l.
Proof.
  induction l as [|[k v] l IH]; cbn [lookupRec]; [discriminate|].
  destruct (k =? r)%nat eqn:E.
  - intros H. injection H as <-. apply Nat.eqb_eq in E. subst. now left.
  - intros H. right. now apply IH.
Qed.

Lemma stalled_renderPass : keeps voiceLoopStalled renderPass.
Proof.
  intros w H. unfold voiceLoopStalled in *.
  destruct H as [Hv [Hl [Ht [Hp [Hc [Hu Hr]]]]]].
  break_worlds. unfold renderPass. unfold_handlers.
  repeat (case_step; unfold_handlers); repeat split; solve [reflexivity | assumption].
Qed.

(** Nothing but the clock moves in a stalled loop until the user leaves
    voice mode: no timer, probe, call, playback or recognizer event is
    left to occur, and the voice screen offers no control but the close
    button. *)
Lemma stalled_step (B : Browser) (e : Event) (w w' : World) :
  voiceLoopStalled w -> isVoiceToggle e = false ->
  step B e w = Some w' -> voiceLoopStalled w'.
Proof.
  intros H Hne Hs. unfold step in Hs.
  destruct (offered B w e) eqn:Ho; [|discriminate].
  destruct (handlerOf B w e) as [h|] eqn:He; [|discriminate].
  injection Hs as <-. rewrite exec_bind. unfold render. rewrite exec_bind.
  apply stalled_renderPass. apply stalled_renderPass.
  destruct H as [Hv [Hl [Ht [Hp [Hc [Hu Hr]]]]]].
  assert (Hrec : forall r x, lookupRec r (recognizers (rt w)) = Some x ->
                   forall b, recDelivers (rec_status x) b = false).
  { intros r x Hx b. apply lookupRec_In in Hx.
    rewrite Forall_forall in Hr. specialize (Hr _ Hx). cbn in Hr.
    rewrite Hr. reflexivity. }
  destruct e; try discriminate Hne;
    cbn [offered] in Ho; rewrite ?Hv in Ho; try discriminate Ho;
    cbn [handlerOf] in He; unfold findTimer, findProbe, findCall in He;
    rewrite ?Ht, ?Hp, ?Hc, ?Hu in He; try discriminate He.
  - (* the clock *)
    destruct (0 <=? ms); [|discriminate]. injection He as <-.
    unfold voiceLoopStalled. clear Hrec.
    break_worlds. unfold_handlers. repeat split; assumption.
  - destruct (lookupRec r (recognizers (rt w))) as [x|] eqn:Hx; [|discriminate].
    rewrite (Hrec r x Hx) in He. discriminate.
  - destruct (lookupRec r (recognizers (rt w))) as [x|] eqn:Hx; [|discriminate].
    rewrite (Hrec r x Hx) in He. discriminate.
  - destruct (lookupRec r (recognizers (rt w))) as [x|] eqn:Hx; [|discriminate].
    rewrite (Hrec r x Hx) in He. discriminate.
  - destruct (lookupRec r (recognizers (rt w))) as [x|] eqn:Hx; [|discriminate].
    rewrite (Hrec r x Hx) in He. discriminate.
Qed.

Lemma stalled_run (B : Browser) (es : list Event) (w w' : World) :
  voiceLoopStalled w -> existsb isVoiceToggle es = false ->
  run B es w = Some w' -> voiceLoopStalled w'.
Proof.
  revert w. induction es as [|e es IH]; cbn [run existsb]; intros w J Hn Hr.
  - now injection Hr as <-.
  - apply orb_false_iff in Hn. destruct Hn as [He Hes].
    destruct (step B e w) as [w1|] eqn:Hs; [|discriminate].
    exact (IH w1 (stalled_step B e w w1 J He Hs) Hes Hr).
Qed.

(** *** The restart of [handleVoiceConversation] is never reached *)

Lemma trimStart_clean (s : JsString) : noLeadingSpace (trimStart s).
Proof.
  induction s as [|c s IH]; cbn [trimStart]; [exact I|].
  destruct (isWhiteSpace c) eqn:E; [exact IH | exact E].
Qed.

Lemma trimStart_of_clean (s : JsString) : noLeadingSpace s -> trimStart s = s.
Proof. destruct s as [|c s]; cbn; [reflexivity|]. now intros ->. Qed.

Lemma trimStart_suffix (s : JsString) : exists p, s = p ++ trimStart s.
Proof.
  induction s as [|c s [p IH]]; cbn [trimStart]; [now exists []|].
  destruct (isWhiteSpace c).
  - exists (c :: p). cbn. now rewrite <- IH.
  - now exists [].
Qed.

(** [s.trim().trim()] is [s.trim()]. *)
Lemma trim_idempotent (s : JsString) : trim (trim s) = trim s.
Proof.
  unfold trim, trimEnd.
  pose proof (trimStart_clean s) as Ha.
  set (a := trimStart s) in *.
  pose proof (trimStart_clean (rev a)) as Hb.
  destruct (trimStart_suffix (rev a)) as [p Hp].
  set (b := trimStart (rev a)) in *.
  assert (Hc : noLeadingSpace (rev b)).
  { assert (E : a = rev b ++ rev p)
      by (rewrite <- rev_app_distr, <- Hp; symmetry; apply rev_involutive).
    destruct (rev b) as [|c r]; [exact I|]. rewrite E in Ha. exact Ha. }
  rewrite (trimStart_of_clean _ Hc), rev_involutive.
  now rewrite (trimStart_of_clean _ Hb).
Qed.

Ltac handover_open := unfold handoversLongEnough in *.

Lemma handover_setTimeout (a : TimerAction) (d : Z) :
  match a with
  | TaCallback _ text => negb (truthy (trim text)) || (len (trim text) <? 2) = false
  | _ => True
  end ->
  keeps handoversLongEnough (setTimeout a d).
Proof.
  intros Ha w H. handover_open. break_worlds. unfold_handlers. cbn in *.
  apply Forall_app. split; [exact H|]. constructor; [exact Ha | constructor].
Qed.

Lemma handover_clearTimeout (id : TimerId) :
  keeps handoversLongEnough (clearTimeout id).
Proof.
  intros w H. handover_open. break_worlds. unfold_handlers. cbn in *.
  rewrite Forall_forall in *. intros t Ht. apply filter_In in Ht. now apply H.
Qed.

Lemma handover_processVoiceResult (text : JsString) :
  keeps handoversLongEnough (processVoiceResult text).
Proof.
  pose proof handover_clearTimeout. pose proof handover_setTimeout.
  unfold processVoiceResult. cbv zeta.
  apply keeps_bind; [kept|]. intros h.
  destruct (isProcessingRef h || negb (truthy (trim text))
            || str_eqb (trim text) (lastProcessedTextRef h)) eqn:E1; [kept|].
  destruct (len (trim text) <? 2) eqn:E2; [kept|].
  apply orb_false_iff in E1. destruct E1 as [E1 _].
  apply orb_false_iff in E1. destruct E1 as [_ E1].
  assert (Hlong : negb (truthy (trim (trim text)))
                  || (len (trim (trim text)) <? 2) = false)
    by (rewrite trim_idempotent, E1, E2; reflexivity).
  kept.
Qed.

Lemma handover_handlerOf (B : Browser) (w : World) (e : Event) (h : M unit) :
  handlerOf B w e = Some h -> keeps handoversLongEnough h.
Proof.
  intros He.
  pose proof handover_clearTimeout. pose proof handover_setTimeout.
  pose proof handover_processVoiceResult.
  destruct e; handlerOf_inv He; kept.
Qed.

Lemma handover_reachable (B : Browser) (t0 : Z) (w : World) :
  reachable B t0 w -> handoversLongEnough w.
Proof.
  apply invariant_reachable.
  - intros v e h J _ He. exact (handover_handlerOf B v e h He v J).
  - kept.
  - destruct B as [m [] s]; vm_compute; constructor.
Qed.

(** The text a hand-over timer passes to [handleVoiceConversation] is
    never too short: [processVoiceResult] has trimmed and measured it
    before arming the timer, and trimming it again changes nothing.  The
    test of [handleVoiceConversation] on the length, and the restart of
    listening behind it, are therefore never reached. *)
Lemma handover_is_never_short
    (B : Browser) (t0 : Z) (w : World) (id : TimerId) (t : Timer)
    (cb : Callback) (text : JsString) :
  reachable B t0 w -> findTimer id w = Some t ->
  t_action t = TaCallback cb text ->
  negb (truthy (trim text)) || (len (trim text) <? 2) = false.
Proof.
  intros Hr Hf Ha. apply handover_reachable in Hr. handover_open.
  unfold findTimer in Hf. apply find_some in Hf. destruct Hf as [Hin _].
  rewrite Forall_forall in Hr. specialize (Hr t Hin). now rewrite Ha in Hr.
Qed.

(** C3. The failing run.  On a phone, in voice mode, the recognizer
    reports the one-letter final segment "a" and then ends, as a
    recognizer without continuous capture does.  The result handler arms
    no timer for so short a text and no remote call is issued; but
    nothing restarts listening either.  Once the timer of [onend] has
    run, the page is in voice mode with nothing listening and nothing
    pending: no timer, no permission probe, no call, no recognizer that
    can deliver an event.  It stays so whatever happens, until the user
    leaves voice mode. *)
Theorem short_result_on_phone_leaves_loop_idle :
  let heard := after phone shortResultHeard in
  let w := after phone shortResultOnPhone in
  happens phone shortResultOnPhone
  /\ isListening (hook heard) = true /\ finalTranscriptRef (hook heard) = lit "a"
  /\ timers (rt heard) = [] /\ calls (rt heard) = []
  /\ isVoiceMode (app w) = true /\ isVoiceModeRef (hook w) = true
  /\ finalTranscriptRef (hook w) = lit "a"
  /\ isListening (hook w) = false /\ recognitionRef (hook w) = None
  /\ List.map (fun x => rec_status (snd x)) (recognizers (rt w)) = [RsEnded]
  /\ timers (rt w) = [] /\ probes (rt w) = [] /\ calls (rt w) = []
  /\ messages (app w) = []
  /\ getCurrentVoiceState w = idle
  /\ (forall es w', existsb isVoiceToggle es = false ->
        run phone es w = Some w' -> voiceLoopStalled w').
Proof.
  cbv zeta.
  assert (Hstalled : voiceLoopStalled (after phone shortResultOnPhone))
    by (vm_compute; repeat split; repeat constructor).
  repeat match goal with |- _ /\ _ => split end;
    lazymatch goal with
    | |- forall _, _ => idtac
    | |- _ => vm_compute; reflexivity
    end.
  intros es w' Hn Hr.
  exact (stalled_run phone es _ w' Hstalled Hn Hr).
Qed.

Lemma short_result_on_phone_leaves_loop_idle_witness :
  let es := [EvAdvance 60000; EvAdvance 60000] in
  existsb isVoiceToggle es = false
  /\ voiceLoopStalled (after phone (shortResultOnPhone ++ es)).
Proof.
  cbv zeta. split; [reflexivity|].
  pose proof short_result_on_phone_leaves_loop_idle as H. cbv zeta in H.
  repeat match type of H with
         | _ /\ _ => destruct H as [_ H]
         end.
  apply (H [EvAdvance 60000; EvAdvance 60000]).
  - reflexivity.
  - vm_compute. reflexivity.
Defined.
